(** * Tool-calling orchestration loops of the Gemini TypeScript examples

    A shallow embedding of
    - [typescript-examples/adjustable-settings/src/index.ts]
      (settings assistant: [get_current_app_settings], [update_app_settings],
      [main]),
    - the video assistant ([find_relevant_timestamps], [answer_user_query],
      [main]),
    - the navigation assistant ([find_route], [main]),
    - the single-shot validators [refineQueryWithContext] and [classifyQuery],
    followed by the properties of the orchestration loop, of the structured
    output validation and of the conversation session.

    Layout: Part I holds every definition, Part II the lemmas about them,
    Part III the properties of the specification, C1 to C10, and Part IV
    further properties of the code, X1 to X16. *)

From Stdlib Require Import List String Bool Arith ZArith Lia Floats.
Import ListNotations.

Set Warnings "-inexact-float,-register-all".

(* ================================================================== *)
(** * Part I.  Definitions                                             *)
(* ================================================================== *)

(** ** JavaScript numbers

    A JavaScript number is an IEEE 754 binary64 value, which is what Rocq's
    primitive [float] is.  [Math.max] and [Math.min] follow ECMAScript: a NaN
    argument gives NaN, and [+0] counts as larger than [-0]. *)

Module JsNumber.

Open Scope float_scope.

Definition Math_min (x y : float) : float :=
  if is_nan x || is_nan y then nan
  else if x <? y then x
  else if y <? x then y
  else if get_sign x then x else y.

Definition Math_max (x y : float) : float :=
  if is_nan x || is_nan y then nan
  else if x <? y then y
  else if y <? x then x
  else if get_sign x then y else x.

(** [Math.max(lo, Math.min(hi, v))] *)
Definition clamp (lo hi v : float) : float := Math_max lo (Math_min hi v).

(** ECMAScript [SameValueZero]: equality of numbers as values, with
    [NaN] equal to itself and [+0] equal to [-0]. *)
Definition SameValueZero (x y : float) : bool :=
  (is_nan x && is_nan y) || (x =? y).

(** The shape of the bounds the source uses: [+0] or a positive finite
    number. *)
Definition nonneg_finite (c : spec_float) : bool :=
  match c with
  | S754_zero false | S754_finite false _ _ => true
  | _ => false
  end.

(** A declared inclusive range [[lo, hi]] with [lo < hi]. *)
Definition declared_range (lo hi : float) : bool :=
  nonneg_finite (Prim2SF lo) && nonneg_finite (Prim2SF hi) && (lo <? hi).

(** What a clamped field can hold: a number of the range [[lo, hi]], or
    [NaN] (which clamping leaves as it is). *)
Definition in_range_or_nan (lo hi n : float) : bool :=
  is_nan n || ((lo <=? n) && (n <=? hi)).

End JsNumber.

(** ** JavaScript values, exceptions and property access *)

Module Js.

Open Scope string_scope.

(** Values as [JSON.parse] produces them, plus [undefined].  An array
    carries, besides its elements, the named properties assigned to it. *)
Inductive JsValue : Type :=
| JUndefined
| JNull
| JBool (b : bool)
| JNum (n : float)
| JStr (s : string)
| JArr (elems : list JsValue) (own : list (string * JsValue))
| JObj (own : list (string * JsValue)).

Inductive JsError : Type :=
| SyntaxError                      (* JSON.parse on malformed text *)
| TypeError                        (* property access on null, call of a non-function, ... *)
| Error (message : string)         (* new Error(message) *)
| ClientError (message : string).  (* raised by the model client *)

(** The result of evaluating code that may throw. *)
Inductive Completion (A : Type) : Type :=
| Normal (a : A)
| Throw (e : JsError).
Arguments Normal {A} a.
Arguments Throw {A} e.

Definition bind {A B} (c : Completion A) (k : A -> Completion B) : Completion B :=
  match c with
  | Normal a => k a
  | Throw e => Throw e
  end.

Fixpoint lookup (k : string) (own : list (string * JsValue)) : JsValue :=
  match own with
  | [] => JUndefined
  | (k', v) :: rest => if String.eqb k k' then v else lookup k rest
  end.

Fixpoint assign (k : string) (v : JsValue) (own : list (string * JsValue))
  : list (string * JsValue) :=
  match own with
  | [] => [(k, v)]
  | (k', v') :: rest =>
      if String.eqb k k' then (k', v) :: rest else (k', v') :: assign k v rest
  end.

(** [o.k] read.  Reading a property of [null] or [undefined] throws; a
    primitive has none of the names the sources read; objects and arrays
    give the stored value or [undefined].  (The sources read only names
    that are neither array indices nor built-in properties.) *)
Definition Get (o : JsValue) (k : string) : Completion JsValue :=
  match o with
  | JUndefined | JNull => Throw TypeError
  | JObj own => Normal (lookup k own)
  | JArr _ own => Normal (lookup k own)
  | JBool _ | JNum _ | JStr _ => Normal JUndefined
  end.

(** [o.k = v] in strict mode (the sources are ES modules).  Assigning to a
    property of [null], [undefined] or a primitive throws a [TypeError]. *)
Definition Put (o : JsValue) (k : string) (v : JsValue) : Completion JsValue :=
  match o with
  | JObj own => Normal (JObj (assign k v own))
  | JArr elems own => Normal (JArr elems (assign k v own))
  | _ => Throw TypeError
  end.

(** Objects and arrays, as opposed to [null], [undefined] and the
    primitives. *)
Definition is_object (o : JsValue) : bool :=
  match o with
  | JObj _ | JArr _ _ => true
  | _ => false
  end.

(** Truthiness, as [!x], [x || y] and [if (x)] use it. *)
Definition ToBoolean (v : JsValue) : bool :=
  match v with
  | JUndefined | JNull => false
  | JBool b => b
  | JNum n => negb (is_zero n || is_nan n)
  | JStr s => negb (String.eqb s "")
  | JArr _ _ | JObj _ => true
  end.

(** Built-ins of the JavaScript platform that are not part of the
    repository: [JSON.parse] ([None] when it throws a [SyntaxError]); the
    string case of the [ToNumber] conversion and the number case of
    [ToString]; and the two conversions of an object or array, which go
    through its [valueOf] and [toString] and throw when neither gives a
    primitive (a [TypeError] on the parsed [{"toString": null}]). *)
Record Platform : Type := {
  JSON_parse : string -> option JsValue;
  StringToNumber : string -> float;
  ObjectToNumber : JsValue -> Completion float;
  NumberToString : float -> string;
  ObjectToString : JsValue -> Completion string
}.

Definition parse (P : Platform) (text : string) : Completion JsValue :=
  match JSON_parse P text with
  | Some v => Normal v
  | None => Throw SyntaxError
  end.

(** [ToNumber], as [Math.min] and [Math.max] apply it to their
    arguments. *)
Definition ToNumber (P : Platform) (v : JsValue) : Completion float :=
  match v with
  | JUndefined => Normal nan
  | JNull => Normal zero
  | JBool true => Normal one
  | JBool false => Normal zero
  | JNum n => Normal n
  | JStr s => Normal (StringToNumber P s)
  | JArr _ _ | JObj _ => ObjectToNumber P v
  end.

(** [ToString], as a template literal applies it to each substitution. *)
Definition ToString (P : Platform) (v : JsValue) : Completion string :=
  match v with
  | JUndefined => Normal "undefined"
  | JNull => Normal "null"
  | JBool true => Normal "true"
  | JBool false => Normal "false"
  | JNum n => Normal (NumberToString P n)
  | JStr s => Normal s
  | JArr _ _ | JObj _ => ObjectToString P v
  end.

(** [Array.prototype.join]: [undefined] and [null] elements count as the
    empty string, every other element is converted with [ToString], from
    left to right. *)
Definition element_string (P : Platform) (x : JsValue) : Completion string :=
  match x with
  | JUndefined | JNull => Normal ""
  | _ => ToString P x
  end.

Fixpoint join_elements (P : Platform) (separator : string) (elems : list JsValue)
  : Completion string :=
  match elems with
  | [] => Normal ""
  | x :: rest =>
      match element_string P x with
      | Throw e => Throw e
      | Normal s =>
          match rest with
          | [] => Normal s
          | _ :: _ =>
              match join_elements P separator rest with
              | Throw e => Throw e
              | Normal r => Normal (s ++ separator ++ r)
              end
          end
      end
  end.

(** [x.join(separator)]: only an array has [join]; on [null] and
    [undefined] the property read throws, on any other value the call of
    [undefined] (or of whatever a parsed object holds under that name)
    does. *)
Definition join (P : Platform) (separator : string) (x : JsValue) : Completion string :=
  match x with
  | JArr elems _ => join_elements P separator elems
  | _ => Throw TypeError
  end.

End Js.

Notation "x <- c ;; k" := (Js.bind c (fun x => k))
  (at level 61, c at next level, right associativity).

(** ** The model client and the conversation session

    The client library ([@google/generative-ai]) is not part of the
    repository; the loops reach it through [model.startChat],
    [chat.sendMessage], [model.generateContent] and the accessors of the
    response. *)

Module Sdk.

Import Js.

(** [FunctionCall]: the tool-call of a response part, [{ name, args }]. *)
Record FunctionCall : Type := {
  name : string;
  args : JsValue
}.

Record Part : Type := {
  part_text : option string;
  functionCall : option FunctionCall
}.

Record Content : Type := { parts : option (list Part) }.

Record Candidate : Type := { content : option Content }.

(** A response: its candidates (which may be absent) and what the accessor
    [response.text()] does: it returns a string (the empty string when the
    response carries no text) or throws, as the client library does for a
    reply that was blocked. *)
Record Response : Type := {
  candidates : option (list Candidate);
  text : Completion string
}.

(** One turn of the conversation: the user's text, a function response
    [{ functionResponse: { name, response } }] or a reply of the model. *)
Inductive Turn : Type :=
| UserText (s : string)
| FunctionResponse (name : string) (response : JsValue)
| ModelTurn (r : Response).

End Sdk.

Module Session.

Import Sdk.

(** Modelled from the spec: the ConversationSession, which the sources hold
    as the client library's [ChatSession]; an ordered turn log with
    [append] and [view] and no other operation. *)
Definition t : Type := list Turn.

(** Modelled from the spec: the session created at interaction start
    ([model.startChat({ history: [] })]). *)
Definition empty : t := [].

(** Modelled from the spec: [append(turn)] adds a turn to the end. *)
Definition append (s : t) (turn : Turn) : t := s ++ [turn].

(** Modelled from the spec: [view()] returns the full ordered sequence. *)
Definition view (s : t) : list Turn := s.

(** The operations of the session interface, for statements that range
    over every operation. *)
Inductive Op : Type :=
| OpAppend (turn : Turn)
| OpView.

Definition apply (s : t) (o : Op) : t :=
  match o with
  | OpAppend turn => append s turn
  | OpView => s
  end.

Definition run (s : t) (ops : list Op) : t := fold_left apply ops s.

End Session.

Module Client.

Import Js Sdk.

(** Modelled from the spec: the conversational side of the Model Client,
    [send(turns) -> response]; it receives the session view and either
    replies or fails. *)
Definition ModelClient : Type := list Turn -> Completion Response.

(** What a single-shot call is asked: the data the prompt of each handler is
    built from. *)
Inductive GenerateContentRequest : Type :=
| SettingsPrompt (currentSettings : JsValue) (userRequest : string)
| TimestampsPrompt (userQuery : JsValue)
| AnswerPrompt (userQuery : JsValue) (imagePart : string)
| RefinePrompt (userQuery : string)
| ClassifyPrompt (query : string).

(** Modelled from the spec: the single-shot side of the Model Client,
    [generate(prompt, contract?)], here [model.generateContent(request)]
    followed by [result.response]; the call may fail. *)
Definition GenerativeModel : Type := GenerateContentRequest -> Completion Response.

(** Modelled from the spec: [chat.sendMessage(msg)] appends the outgoing
    turn, submits the session view and, when the client replies, appends the
    reply. *)
Definition sendMessage (client : ModelClient) (chat : Session.t) (msg : Turn)
  : Session.t * Completion Response :=
  let chat1 := Session.append chat msg in
  match client (Session.view chat1) with
  | Normal r => (Session.append chat1 (ModelTurn r), Normal r)
  | Throw e => (chat1, Throw e)
  end.

(** The failures of a single-shot call that expects JSON: the call itself
    fails, the text of its response cannot be read, or that text is not
    JSON. *)
Definition call_or_parse_fails (P : Platform) (model : GenerativeModel)
    (request : GenerateContentRequest) : Prop :=
  (exists e, model request = Throw e) \/
  (exists response e,
     model request = Normal response /\ text response = Throw e) \/
  (exists response t,
     model request = Normal response /\ text response = Normal t /\
     JSON_parse P t = None).

End Client.

(** ** Observable events of a run *)

Module Trace.

Import Js Sdk Client.

Inductive Event : Type :=
(* chat.sendMessage(msg): one round trip to the model *)
| EvSend (msg : Turn)
(* [main] calls a tool handler with these arguments; the lines the handler
   itself logs are not events *)
| EvToolCall (name : string) (arguments : list JsValue)
(* model.generateContent(request) inside a handler *)
| EvGenerate (request : GenerateContentRequest)
(* console.log(`Assistant (Final Response): ${response.text()}`) *)
| EvFinalResponse (text : string)
(* console.log(`Assistant requested Function Call ${loopCount}: ${name}`) *)
| EvRequestedCall (loopCount : nat) (name : string)
(* console.warn(`Received unexpected function call: ${name}`) *)
| EvUnexpectedCall (name : string)
(* console.warn("Maximum function call loops reached.") *)
| EvMaxLoopsReached
(* console.error("Exited loop due to maximum iterations.") *)
| EvExitedMaxIterations
(* console.log(`Assistant (Last): ${lastResponseText}`) *)
| EvLastText (text : string)
(* the catch block of main: "--- ERROR DURING CHAT OR PROCESSING ---" *)
| EvCaught (e : JsError)
(* console.log(`Assistant: ${responseText}`) of the navigation assistant *)
| EvAssistant (text : string).

Definition is_send (e : Event) : bool :=
  match e with EvSend _ => true | _ => false end.

Definition is_tool_call (e : Event) : bool :=
  match e with EvToolCall _ _ => true | _ => false end.

Definition sends (tr : list Event) : list Event := filter is_send tr.

Definition tool_calls (tr : list Event) : list Event := filter is_tool_call tr.

(** "No model round trip after the [n]-th dispatch": no event that follows
    [n] handler calls is a [chat.sendMessage]. *)
Definition no_round_trip_after (n : nat) (tr : list Event) : Prop :=
  forall pre e post,
    tr = (pre ++ e :: post)%list -> List.length (tool_calls pre) = n -> is_send e = false.

End Trace.

(** ** The function-calling loop

    The loop of [main] is the same text in the settings assistant
    (index.ts, lines 283-356) and in the video assistant; the two differ in
    the chain of [if (name === ...)] tests that runs the handlers, which is
    the parameter [dispatch] here. *)

Module Loop.

Import Js Sdk Client Trace.

Definition MAX_LOOPS : nat := 5.

(** [parts.filter(part => !!part.functionCall).map(part => part.functionCall)] *)
Fixpoint filter_functionCall (ps : list Part) : list FunctionCall :=
  match ps with
  | [] => []
  | p :: rest =>
      match functionCall p with
      | Some fc => fc :: filter_functionCall rest
      | None => filter_functionCall rest
      end
  end.

(** [response.candidates?.[0]?.content?.parts?.filter(...).map(...)];
    [None] is [undefined]. *)
Definition functionCalls (response : Response) : option (list FunctionCall) :=
  match candidates response with
  | Some (c :: _) =>
      match content c with
      | Some ct =>
          match parts ct with
          | Some ps => Some (filter_functionCall ps)
          | None => None
          end
      | None => None
      end
  | _ => None
  end.

(** What the [if (name === ...)] chain of a loop does with a tool-call. *)
Inductive Dispatch (S : Type) : Type :=
(* a branch ran to its end: [apiResponse] goes into the function response *)
| Responded (apiResponse : JsValue) (data : S) (evs : list Event)
(* a branch threw *)
| Thrown (e : JsError) (evs : list Event)
(* the final [else]: no branch matches the name *)
| Unexpected.
Arguments Responded {S} apiResponse data evs.
Arguments Thrown {S} e evs.
Arguments Unexpected {S}.

(** The variables of the loop: [chat], [result.response], [loopCount], the
    loop's own data ([currentSettingsData] in the settings assistant) and
    the events emitted so far. *)
Record LoopState (S : Type) : Type := {
  chat : Session.t;
  result : Response;
  loopCount : nat;
  data : S;
  out : list Event
}.
Arguments chat {S} l.
Arguments result {S} l.
Arguments loopCount {S} l.
Arguments data {S} l.
Arguments out {S} l.

(** How one pass through the loop body ends. *)
Inductive Step (S : Type) : Type :=
| Next (st : LoopState S)                  (* falls off the end of the body *)
| Exit (st : LoopState S)                  (* break *)
| Raise (e : JsError) (st : LoopState S).  (* an exception leaves the loop *)
Arguments Next {S} st.
Arguments Exit {S} st.
Arguments Raise {S} e st.

Inductive LoopExit (S : Type) : Type :=
| Finished (st : LoopState S)
| Raised (e : JsError) (st : LoopState S)
| OutOfFuel (st : LoopState S).
Arguments Finished {S} st.
Arguments Raised {S} e st.
Arguments OutOfFuel {S} st.

Inductive Outcome : Type :=
| Completed               (* the try block ran to its end *)
| Failed (e : JsError)    (* the catch block ran *)
| Diverged.               (* the model of the loop ran out of fuel *)

Record RunResult : Type := {
  session : Session.t;
  events : list Event;
  count : nat;
  outcome : Outcome
}.

Section WithDispatch.

Variable S : Type.
Variable client : ModelClient.
(** [dispatch loopCount data fnCall] *)
Variable dispatch : nat -> S -> FunctionCall -> Dispatch S.

Definition emit (st : LoopState S) (evs : list Event) : LoopState S :=
  {| chat := chat st; result := result st; loopCount := loopCount st;
     data := data st; out := out st ++ evs |}.

(** The body of [while (loopCount < MAX_LOOPS) { ... }].  Every branch of
    the dispatch that does not throw or break sets [functionResponsePart],
    so the [else] of [if (functionResponsePart)] is never taken and is left
    out. *)
Definition iteration (st : LoopState S) : Step S :=
  let n := Datatypes.S (loopCount st) in                     (* loopCount++ *)
  let st1 := {| chat := chat st; result := result st; loopCount := n;
                data := data st; out := out st |} in
  let response := result st1 in
  match functionCalls response with
  | None | Some [] =>
      match text response with                              (* response.text() *)
      | Normal t => Exit (emit st1 [EvFinalResponse t])
      | Throw e => Raise e st1
      end
  | Some (fnCall :: _) =>                                   (* functionCalls[0] *)
      let st2 := emit st1 [EvRequestedCall n (name fnCall)] in
      match dispatch n (data st2) fnCall with
      | Unexpected => Exit (emit st2 [EvUnexpectedCall (name fnCall)])
      | Thrown e evs => Raise e (emit st2 evs)
      | Responded apiResponse d evs =>
          let msg := FunctionResponse (name fnCall) apiResponse in
          let sent := sendMessage client (chat st2) msg in
          let st3 := {| chat := fst sent; result := result st2; loopCount := n;
                        data := d; out := out st2 ++ evs ++ [EvSend msg] |} in
          match snd sent with
          | Throw e => Raise e st3
          | Normal r =>
              let st4 := {| chat := chat st3; result := r; loopCount := n;
                            data := d; out := out st3 |} in
              if (MAX_LOOPS <=? n)%nat
              then Exit (emit st4 [EvMaxLoopsReached])
              else Next st4
          end
      end
  end.

(** The state in which a pass leaves the variables. *)
Definition state_of (s : Step S) : LoopState S :=
  match s with
  | Next st | Exit st | Raise _ st => st
  end.

Fixpoint while_loop (fuel : nat) (st : LoopState S) : LoopExit S :=
  match fuel with
  | O => OutOfFuel st
  | Datatypes.S fuel' =>
      if (loopCount st <? MAX_LOOPS)%nat then
        match iteration st with
        | Next st' => while_loop fuel' st'
        | Exit st' => Finished st'
        | Raise e st' => Raised e st'
        end
      else Finished st
  end.

(** The code after the loop:
    [if (loopCount >= MAX_LOOPS) { console.error(...); ... }], still inside
    the [try]: the events it prints, and the exception of
    [result.response.text()] when that throws (the report is printed
    before). *)
Definition after_loop (st : LoopState S) : list Event * option JsError :=
  if (MAX_LOOPS <=? loopCount st)%nat then
    match text (result st) with
    | Normal lastResponseText =>
        (EvExitedMaxIterations ::
           (if String.eqb lastResponseText "" then [] else [EvLastText lastResponseText]),
         None)
    | Throw e => ([EvExitedMaxIterations], Some e)
    end
  else ([], None).

(** [let result = await chat.sendMessage(userQuery)] and the
    initialisation of the loop variables. *)
Definition start (userQuery : string) (d0 : S)
  : Session.t * Completion (LoopState S) :=
  let sent := sendMessage client Session.empty (UserText userQuery) in
  match snd sent with
  | Throw e => (fst sent, Throw e)
  | Normal r =>
      (fst sent,
       Normal {| chat := fst sent; result := r; loopCount := 0;
                 data := d0; out := [EvSend (UserText userQuery)] |})
  end.

(** What follows the loop: the report after it, or the [catch] block. *)
Definition finish (x : LoopExit S) : RunResult :=
  match x with
  | Finished st =>
      match snd (after_loop st) with
      | None =>
          {| session := chat st; events := out st ++ fst (after_loop st);
             count := loopCount st; outcome := Completed |}
      | Some e =>
          {| session := chat st;
             events := out st ++ fst (after_loop st) ++ [EvCaught e];
             count := loopCount st; outcome := Failed e |}
      end
  | Raised e st =>
      {| session := chat st; events := out st ++ [EvCaught e];
         count := loopCount st; outcome := Failed e |}
  | OutOfFuel st =>
      {| session := chat st; events := out st; count := loopCount st;
         outcome := Diverged |}
  end.

(** The [try { ... } catch (error) { ... }] of [main], from the first
    [chat.sendMessage(userQuery)] on. *)
Definition run (userQuery : string) (d0 : S) : RunResult :=
  match start userQuery d0 with
  | (chat0, Throw e) =>
      {| session := chat0; events := [EvSend (UserText userQuery); EvCaught e];
         count := 0; outcome := Failed e |}
  | (_, Normal st0) => finish (while_loop (Datatypes.S MAX_LOOPS) st0)
  end.

(** The events one pass of the loop body adds to the output. *)
Definition emitted (st : LoopState S) : list Event :=
  skipn (List.length (out st)) (out (state_of (iteration st))).

(** One pass of the loop, as a relation between the states before and
    after it. *)
Definition pass (st st' : LoopState S) : Prop :=
  (loopCount st < MAX_LOOPS)%nat /\ state_of (iteration st) = st'.

Definition continues (st st' : LoopState S) : Prop :=
  (loopCount st < MAX_LOOPS)%nat /\ iteration st = Next st'.

(** The states at the head of the loop that a run goes through. *)
Inductive at_loop_head (st0 : LoopState S) : LoopState S -> Prop :=
| head_first : at_loop_head st0 st0
| head_next st st' :
    at_loop_head st0 st -> continues st st' -> at_loop_head st0 st'.

(** A dispatcher runs one handler for a tool-call it answers, at most one
    when it throws, and does not talk to the chat model itself. *)
Definition one_handler_per_call : Prop :=
  forall n d fc,
    match dispatch n d fc with
    | Responded _ _ evs => sends evs = [] /\ List.length (tool_calls evs) = 1
    | Thrown _ evs => sends evs = [] /\ List.length (tool_calls evs) <= 1
    | Unexpected => True
    end.

End WithDispatch.

(** The model asked for [fc]: it is the first tool-call of one of its
    replies in the session. *)
Definition requested (s : Session.t) (fc : FunctionCall) : Prop :=
  exists r rest, In (ModelTurn r) s /\ functionCalls r = Some (fc :: rest).

(** "Handlers receive the arguments of the request verbatim": every handler
    call of the run is for a request of the model and carries exactly the
    arguments of that request. *)
Definition dispatched_verbatim (r : RunResult) : Prop :=
  forall nm a,
    In (EvToolCall nm a) (events r) ->
    exists fc, requested (session r) fc /\ nm = name fc /\ a = [args fc].

Arguments one_handler_per_call {S} dispatch.
Arguments emit {S} st evs.
Arguments iteration {S} client dispatch st.
Arguments while_loop {S} client dispatch fuel st.
Arguments after_loop {S} st.
Arguments start {S} client userQuery d0.
Arguments finish {S} x.
Arguments run {S} client dispatch userQuery d0.
Arguments emitted {S} client dispatch st.
Arguments state_of {S} s.
Arguments pass {S} client dispatch st st'.
Arguments continues {S} client dispatch st st'.
Arguments at_loop_head {S} client dispatch st0 _.

End Loop.

(** ** The settings assistant
    ([typescript-examples/adjustable-settings/src/index.ts]) *)

Module Settings.

Import Js Sdk Client Trace JsNumber.
Open Scope string_scope.

(** [interface AppSettings] *)
Record AppSettings : Type := {
  darkMode : bool;
  fontSizeFactor : float;
  notificationsEnabled : bool;
  notificationVolume : float;
  reduceMotion : bool;
  autoPlayVideos : bool;
  highContrast : bool;
  textToSpeechRate : float
}.

(** The settings object as a JavaScript value. *)
Definition to_js (s : AppSettings) : JsValue :=
  JObj [ ("darkMode", JBool (darkMode s));
         ("fontSizeFactor", JNum (fontSizeFactor s));
         ("notificationsEnabled", JBool (notificationsEnabled s));
         ("notificationVolume", JNum (notificationVolume s));
         ("reduceMotion", JBool (reduceMotion s));
         ("autoPlayVideos", JBool (autoPlayVideos s));
         ("highContrast", JBool (highContrast s));
         ("textToSpeechRate", JNum (textToSpeechRate s)) ].

(** What the assistant runs against: the platform built-ins, the chat
    model and the model used for transactional calls (its behaviour may
    differ from one round of the loop to the next). *)
Record Env : Type := {
  platform : Platform;
  model : ModelClient;
  transactionalModel : nat -> GenerativeModel
}.

Definition get_current_app_settings : AppSettings * list Event :=
  let currentSettings :=
    {| darkMode := false;
       fontSizeFactor := 1.0;
       notificationsEnabled := true;
       notificationVolume := 0.7;
       reduceMotion := false;
       autoPlayVideos := true;
       highContrast := false;
       textToSpeechRate := 1.0 |} in
  (currentSettings, [EvToolCall "get_current_app_settings" []]).

(** The argument object [{ currentSettings, userRequest }]. *)
Definition toolArgs (currentSettings : AppSettings) (userRequest : string) : JsValue :=
  JObj [ ("currentSettings", to_js currentSettings);
         ("userRequest", JStr userRequest) ].

(** [proposedSettings.k = Math.max(lo, Math.min(hi, proposedSettings.k))] *)
Definition clamp_field (P : Platform) (o : JsValue) (k : string) (lo hi : float)
  : Completion JsValue :=
  v <- Get o k ;;
  n <- ToNumber P v ;;                 (* [Math.min] converts its arguments *)
  Put o k (JNum (Math_max lo (Math_min hi n))).

(** The numeric fields with a declared range (the comments of
    [interface AppSettings] and the output format of the prompt). *)
Definition declared_ranges : list (string * (float * float)) :=
  [ ("fontSizeFactor", (0.8, 2.0));
    ("notificationVolume", (0.0, 1.0));
    ("textToSpeechRate", (0.5, 2.0)) ].

(** The [try] block of [update_app_settings] (lines 182-197). *)
Definition update_app_settings_try (P : Platform)
    (currentSettings : AppSettings) (userRequest : string)
    (model : GenerativeModel) : Completion JsValue :=
  response <- model (SettingsPrompt (to_js currentSettings) userRequest) ;;
  responseText <- text response ;;
  proposedSettings <- parse P responseText ;;
  p1 <- clamp_field P proposedSettings "fontSizeFactor" 0.8 2.0 ;;
  p2 <- clamp_field P p1 "notificationVolume" 0.0 1.0 ;;
  p3 <- clamp_field P p2 "textToSpeechRate" 0.5 2.0 ;;
  Normal p3.

(** [update_app_settings({ currentSettings, userRequest }, model,
    settingDefinitions)]: the [catch] block returns [currentSettings]. *)
Definition update_app_settings (P : Platform)
    (currentSettings : AppSettings) (userRequest : string)
    (model : GenerativeModel) : JsValue * list Event :=
  let evs := [ EvToolCall "update_app_settings" [toolArgs currentSettings userRequest];
               EvGenerate (SettingsPrompt (to_js currentSettings) userRequest) ] in
  match update_app_settings_try P currentSettings userRequest model with
  | Normal proposedSettings => (proposedSettings, evs)
  | Throw _ => (to_js currentSettings, evs)
  end.

Definition guard_message : string :=
  "Cannot call update_app_settings without current settings. get_current_app_settings must be called first.".

(** Lines 310-329 of [main]: the data of the loop is
    [currentSettingsData]. *)
Definition dispatch (env : Env) (userQuery : string) (loopCount : nat)
    (currentSettingsData : option AppSettings) (fnCall : FunctionCall)
  : Loop.Dispatch (option AppSettings) :=
  if String.eqb (name fnCall) "get_current_app_settings" then
    let (apiResponse, evs) := get_current_app_settings in
    Loop.Responded (to_js apiResponse) (Some apiResponse) evs
  else if String.eqb (name fnCall) "update_app_settings" then
    match currentSettingsData with
    | None => Loop.Thrown (Error guard_message) []
    | Some current =>
        let (apiResponse, evs) :=
          update_app_settings (platform env) current userQuery
            (transactionalModel env loopCount) in
        Loop.Responded apiResponse currentSettingsData evs
    end
  else Loop.Unexpected.

(** [main], from [chat.sendMessage(userQuery)] on; [userQuery] is the text
    read from the console (or the default query). *)
Definition main (env : Env) (userQuery : string) : Loop.RunResult :=
  Loop.run (model env) (dispatch env userQuery) userQuery None.

(** The tools declared to the model. *)
Definition registered : list string :=
  ["get_current_app_settings"; "update_app_settings"].

End Settings.

(** ** The video assistant *)

Module Video.

Import Js Sdk Client Trace.
Open Scope string_scope.

Record Env : Type := {
  platform : Platform;
  model : ModelClient;
  transactionalModel : nat -> GenerativeModel;
  (* loadImageBase64(STORYBOARD_IMAGE_PATH): the encoded image, or a failure *)
  loadImageBase64 : Completion string
}.

Definition no_timestamps : JsValue :=
  JObj [("relevantTimestamps", JArr [] [])].

(** The [try] block of [find_relevant_timestamps]. *)
Definition find_relevant_timestamps_try (P : Platform) (userQuery : JsValue)
    (model : GenerativeModel) : Completion JsValue :=
  response <- model (TimestampsPrompt userQuery) ;;
  responseText <- text response ;;
  parsed <- parse P responseText ;;
  ts <- Get parsed "timestamps" ;;
  let timestamps := if ToBoolean ts then ts else JArr [] [] in   (* parsed.timestamps || [] *)
  _ <- join P ", " timestamps ;;
  Normal (JObj [("relevantTimestamps", timestamps)]).

(** [find_relevant_timestamps({ userQuery }, model)].  Before its [try] the
    function destructures its argument and puts [userQuery] into a log line
    and into the prompt, two template literals that convert it to a string
    (once is enough to know whether it throws). *)
Definition find_relevant_timestamps (P : Platform) (args : JsValue)
    (model : GenerativeModel) : Completion JsValue * list Event :=
  let call := EvToolCall "find_relevant_timestamps" [args] in
  let before_try :=
    userQuery <- Get args "userQuery" ;;
    _ <- ToString P userQuery ;;
    Normal userQuery in
  match before_try with
  | Throw e => (Throw e, [call])
  | Normal userQuery =>
      let evs := [call; EvGenerate (TimestampsPrompt userQuery)] in
      match find_relevant_timestamps_try P userQuery model with
      | Normal r => (Normal r, evs)
      | Throw _ => (Normal no_timestamps, evs)
      end
  end.

Definition apology : string :=
  "Sorry, I encountered an error analyzing the visual context.".

(** The [try] block of [answer_user_query]. *)
Definition answer_user_query_try (model : GenerativeModel)
    (request : GenerateContentRequest) : Completion JsValue :=
  response <- model request ;;
  answerText <- text response ;;
  Normal (JObj [("answerText", JStr answerText)]).

(** [answer_user_query({ userQuery, relevantTimestamps }, model)].  Before
    its [try]: the destructuring, the log line
    [`Answering query "${userQuery}" using timestamps: [${relevantTimestamps.join(', ')}]`],
    the loading of the image and the prompt. *)
Definition answer_user_query (env : Env) (args : JsValue)
    (model : GenerativeModel) : Completion JsValue * list Event :=
  let call := EvToolCall "answer_user_query" [args] in
  let before_try :=
    userQuery <- Get args "userQuery" ;;
    relevantTimestamps <- Get args "relevantTimestamps" ;;
    _ <- ToString (platform env) userQuery ;;
    _ <- join (platform env) ", " relevantTimestamps ;;
    imagePart <- match loadImageBase64 env with
                 | Normal d => Normal d
                 | Throw _ => Throw (Error "Failed to load storyboard image.")
                 end ;;
    Normal (userQuery, imagePart) in
  match before_try with
  | Throw e => (Throw e, [call])
  | Normal (userQuery, imagePart) =>
      let request := AnswerPrompt userQuery imagePart in
      match answer_user_query_try model request with
      | Normal r => (Normal r, [call; EvGenerate request])
      | Throw _ =>
          (Normal (JObj [("answerText", JStr apology)]), [call; EvGenerate request])
      end
  end.

Definition of_handler (r : Completion JsValue * list Event) : Loop.Dispatch unit :=
  match fst r with
  | Normal apiResponse => Loop.Responded apiResponse tt (snd r)
  | Throw e => Loop.Thrown e (snd r)
  end.

(** The [if (name === ...)] chain of [main]. *)
Definition dispatch (env : Env) (loopCount : nat) (_ : unit) (fnCall : FunctionCall)
  : Loop.Dispatch unit :=
  if String.eqb (name fnCall) "find_relevant_timestamps" then
    of_handler (find_relevant_timestamps (platform env) (args fnCall)
                  (transactionalModel env loopCount))
  else if String.eqb (name fnCall) "answer_user_query" then
    of_handler (answer_user_query env (args fnCall) (transactionalModel env loopCount))
  else Loop.Unexpected.

Definition userQuery : string := "What is Sundar Pichai wearing?".

Definition main (env : Env) : Loop.RunResult :=
  Loop.run (model env) (dispatch env) userQuery tt.

Definition registered : list string :=
  ["find_relevant_timestamps"; "answer_user_query"].

End Video.

(** ** The navigation assistant

    Its loop runs "until the model calls the tool": it has no iteration
    counter and no bound, so it is modelled with fuel. *)

Module Navigation.

Import Js Sdk Client Trace.
Open Scope string_scope.

Record Env : Type := {
  platform : Platform;
  model : ModelClient
}.

(** [find_route({ rephrasedUserQuery, reasoning })]: the destructuring,
    the two log lines that convert the fields to strings, and the result,
    which holds the first of them again. *)
Definition find_route (P : Platform) (args : JsValue) : Completion JsValue * list Event :=
  let call := EvToolCall "find_route" [args] in
  let r :=
    rephrasedUserQuery <- Get args "rephrasedUserQuery" ;;
    reasoning <- Get args "reasoning" ;;
    query <- ToString P rephrasedUserQuery ;;
    _ <- ToString P reasoning ;;
    Normal (JObj [("routeInfo",
                   JStr ("Route calculation based on '" ++ query
                         ++ "' completed. No route found (placeholder)."))]) in
  (r, [call]).

(** [response.candidates?.[0]?.content?.parts?.[0]?.functionCall] *)
Definition first_part_functionCall (response : Response) : option FunctionCall :=
  match candidates response with
  | Some (c :: _) =>
      match content c with
      | Some ct =>
          match parts ct with
          | Some (p :: _) => functionCall p
          | _ => None
          end
      | None => None
      end
  | _ => None
  end.

(** The variables of the loop. *)
Record State : Type := {
  chat : Session.t;
  result : Response;
  response : Response;
  completedFunctionCall : bool;
  out : list Event
}.

Inductive Step : Type :=
| Next (st : State)
| Raise (e : JsError) (st : State).

Inductive LoopExit : Type :=
| Finished (st : State)
| Raised (e : JsError) (st : State)
| OutOfFuel (st : State).

Definition ok_message : Turn := UserText "Ok. Please help me find it.".

(** The body of [while (!completedFunctionCall) { ... }]. *)
Definition iteration (env : Env) (st : State) : Step :=
  match first_part_functionCall (response st) with
  | Some fc =>
      let out1 := (out st ++ [EvRequestedCall 0 (name fc)])%list in
      if String.eqb (name fc) "find_route" then
        let (r, evs) := find_route (platform env) (args fc) in
        match r with
        | Throw e =>
            Raise e {| chat := chat st; result := result st; response := response st;
                       completedFunctionCall := true; out := (out1 ++ evs)%list |}
        | Normal apiResponse =>
            let msg := FunctionResponse "find_route" apiResponse in
            let sent := sendMessage (model env) (chat st) msg in
            let out2 := (out1 ++ evs ++ [EvSend msg])%list in
            match snd sent with
            | Throw e =>
                Raise e {| chat := fst sent; result := result st; response := response st;
                           completedFunctionCall := true; out := out2 |}
            | Normal r' =>
                Next {| chat := fst sent; result := r'; response := r';
                        completedFunctionCall := true; out := out2 |}
            end
        end
      else
        Next {| chat := chat st; result := result st; response := response st;
                completedFunctionCall := true;
                out := (out1 ++ [EvUnexpectedCall (name fc)])%list |}
  | None =>
      let response' := result st in                    (* response = result.response *)
      match text response' with                        (* response.text() *)
      | Throw e =>
          Raise e {| chat := chat st; result := result st; response := response';
                     completedFunctionCall := false; out := out st |}
      | Normal responseText =>
          let sent := sendMessage (model env) (chat st) ok_message in
          let out1 := (out st ++ [EvAssistant responseText; EvSend ok_message])%list in
          match snd sent with
          | Throw e =>
              Raise e {| chat := fst sent; result := result st; response := response';
                         completedFunctionCall := false; out := out1 |}
          | Normal r' =>
              Next {| chat := fst sent; result := r'; response := response';
                      completedFunctionCall := false; out := out1 |}
          end
      end
  end.

Fixpoint while_loop (env : Env) (fuel : nat) (st : State) : LoopExit :=
  match fuel with
  | O => OutOfFuel st
  | S fuel' =>
      if negb (completedFunctionCall st) then
        match iteration env st with
        | Next st' => while_loop env fuel' st'
        | Raise e st' => Raised e st'
        end
      else Finished st
  end.

(** A chat model that always replies, with a reply whose text can be read
    and whose first part is no tool-call. *)
Definition keeps_talking (client : ModelClient) : Prop :=
  forall view,
    exists r t, client view = Normal r /\ first_part_functionCall r = None /\
                text r = Normal t.

(** The state in which [main] enters the loop, once both queries have been
    answered: [chat0] is the session and [r] the reply to the second
    query. *)
Definition enter (chat0 : Session.t) (r : Response) : State :=
  {| chat := chat0; result := r; response := r;
     completedFunctionCall := false; out := [] |}.

End Navigation.

(** ** The single-shot validators of the two examples without tools *)

Module Refine.

Import Js Sdk Client.
Open Scope string_scope.

(** [response.candidates[0].content.parts[0].text], after the test that
    every step of the path exists; [None] where the function returns
    [null]. *)
Definition first_text (response : Response) : option string :=
  match candidates response with
  | Some (c :: _) =>
      match content c with
      | Some ct =>
          match parts ct with
          | Some (p :: _) =>
              match part_text p with
              | Some t => if String.eqb t "" then None else Some t
              | None => None
              end
          | _ => None
          end
      | None => None
      end
  | _ => None
  end.

(** The inner [try] block: parse, then the test for the required fields. *)
Definition validate (P : Platform) (responseText : string) : Completion (option JsValue) :=
  parsedResponse <- parse P responseText ;;
  if negb (ToBoolean parsedResponse) then Normal None
  else
    rephrasedQuery <- Get parsedResponse "rephrasedQuery" ;;
    if negb (ToBoolean rephrasedQuery) then Normal None
    else
      reason <- Get parsedResponse "reason" ;;
      if negb (ToBoolean reason) then Normal None
      else Normal (Some parsedResponse).

(** [refineQueryWithContext(model, userQuery, context)]; [None] is
    [null]. *)
Definition refineQueryWithContext (P : Platform) (model : GenerativeModel)
    (userQuery : string) : option JsValue :=
  match model (RefinePrompt userQuery) with
  | Throw _ => None
  | Normal response =>
      match first_text response with
      | None => None
      | Some responseText =>
          match validate P responseText with
          | Normal r => r
          | Throw _ => None
          end
      end
  end.

End Refine.

Module Classify.

Import Js Sdk Client.
Open Scope string_scope.

(** [Array.isArray(x) && x.length !== 0] *)
Definition nonempty_array (x : JsValue) : bool :=
  match x with
  | JArr (_ :: _) _ => true
  | _ => false
  end.

Definition validate (P : Platform) (responseText : string) : Completion (option JsValue) :=
  parsedResponse <- parse P responseText ;;
  if negb (ToBoolean parsedResponse) then Normal None
  else
    r <- Get parsedResponse "response" ;;
    if negb (nonempty_array r) then Normal None
    else Normal (Some parsedResponse).

(** [classifyQuery(model, query)]; [None] is [null]. *)
Definition classifyQuery (P : Platform) (model : GenerativeModel) (query : string)
  : option JsValue :=
  match model (ClassifyPrompt query) with
  | Throw _ => None
  | Normal response =>
      match text response with
      | Throw _ => None          (* thrown in the inner [try], and again by the
                                    log of the inner [catch]: the outer one
                                    returns [null] *)
      | Normal responseText =>
          match validate P responseText with
          | Normal r => r
          | Throw _ => None
          end
      end
  end.

End Classify.

(** ** Concrete scenarios

    Responses, model clients and a platform used to run the definitions on
    concrete inputs. *)

Module Scenarios.

Import Js Sdk Client Trace.
Open Scope string_scope.

(** The double-quote character and a quoted JSON string. *)
Definition dq : string := String (Ascii.ascii_of_nat 34) EmptyString.

Definition quoted (s : string) : string := dq ++ s ++ dq.

(** A response whose only part is a tool-call. *)
Definition call_response (name : string) (args : JsValue) : Response :=
  {| candidates :=
       Some [ {| content :=
                   Some {| parts :=
                             Some [ {| part_text := None;
                                       functionCall := Some {| name := name; args := args |} |} ] |} |} ];
     text := Normal "" |}.

(** A response whose only part is text. *)
Definition text_response (t : string) : Response :=
  {| candidates :=
       Some [ {| content :=
                   Some {| parts := Some [ {| part_text := Some t; functionCall := None |} ] |} |} ];
     text := Normal t |}.

(** A response with two tool-calls. *)
Definition two_calls_response (c1 c2 : FunctionCall) : Response :=
  {| candidates :=
       Some [ {| content :=
                   Some {| parts :=
                             Some [ {| part_text := None; functionCall := Some c1 |};
                                    {| part_text := None; functionCall := Some c2 |} ] |} |} ];
     text := Normal "" |}.

(** A chat model that gives the replies of a script in order, and [final]
    once the script is used up.  The view it receives holds [2 i + 1] turns
    when it is asked for reply number [i] (counting from 0). *)
Definition scripted (replies : list Response) (final : Response) : ModelClient :=
  fun view => Normal (nth (Nat.div2 (List.length view)) replies final).

(** A chat model that fails from its [k]-th reply on. *)
Definition fails_from (k : nat) (replies : list Response) : ModelClient :=
  fun view =>
    if (Nat.div2 (List.length view) <? k)%nat
    then Normal (nth (Nat.div2 (List.length view)) replies (text_response ""))
    else Throw (ClientError "fetch failed").

Definition no_args : JsValue := JObj [].

Definition get_call : Response := call_response "get_current_app_settings" no_args.

(** The tool-call of the model for [update_app_settings]: its own
    [userRequest], not the text the user typed. *)
Definition update_args : JsValue :=
  JObj [ ("currentSettings", JObj [("darkMode", JBool false)]);
         ("userRequest", JStr "enable dark mode and enlarge the font") ].

Definition update_call : Response := call_response "update_app_settings" update_args.

(** Texts a transactional call may return, and what [JSON.parse] makes of
    them. *)
Definition text_not_json : string := "not-json".

Definition text_font_5 : string := "{" ++ quoted "fontSizeFactor" ++ ": 5.0}".

Definition text_font_minus_1 : string := "{" ++ quoted "fontSizeFactor" ++ ": -1}".

Definition text_dark_only : string := "{" ++ quoted "darkMode" ++ ": true}".

Definition text_null : string := "null".

Definition text_only_query : string := "{" ++ quoted "rephrasedQuery" ++ ": " ++ quoted "route to the museum" ++ "}".

Definition text_timestamps : string :=
  "{" ++ quoted "timestamps" ++ ": [" ++ quoted "0:05" ++ ", " ++ quoted "0:24" ++ "]}".

Definition parse_table : list (string * JsValue) :=
  [ (text_font_5, JObj [("fontSizeFactor", JNum 5.0)]);
    (text_font_minus_1, JObj [("fontSizeFactor", JNum (-1))]);
    (text_dark_only, JObj [("darkMode", JBool true)]);
    (text_null, JNull);
    (text_only_query, JObj [("rephrasedQuery", JStr "route to the museum")]);
    (text_timestamps, JObj [("timestamps", JArr [JStr "0:05"; JStr "0:24"] [])]) ].

Fixpoint table_lookup (s : string) (table : list (string * JsValue)) : option JsValue :=
  match table with
  | [] => None
  | (k, v) :: rest => if String.eqb s k then Some v else table_lookup s rest
  end.

(** An object that holds a property [toString] of its own: parsed from
    JSON that property is no function, so neither conversion of the object
    gives a primitive. *)
Definition own_toString (v : JsValue) : bool :=
  match v with
  | JObj own =>
      match lookup "toString" own with
      | JUndefined => false
      | _ => true
      end
  | _ => false
  end.

(** A platform that parses the texts above and rejects every other text.
    Its conversions of objects are those of plain parsed objects; no
    scenario converts a string, a number or an array. *)
Definition platform : Platform :=
  {| JSON_parse := fun s => table_lookup s parse_table;
     StringToNumber := fun _ => nan;
     ObjectToNumber := fun v => if own_toString v then Throw TypeError else Normal nan;
     NumberToString := fun _ => "";
     ObjectToString :=
       fun v => if own_toString v then Throw TypeError else Normal "[object Object]" |}.

(** Transactional models: one that always answers with a given text, one
    that always fails. *)
Definition answers (t : string) : nat -> GenerativeModel :=
  fun _ _ => Normal (text_response t).

Definition unavailable : nat -> GenerativeModel :=
  fun _ _ => Throw (ClientError "503 Service Unavailable").

Definition settings_env (client : ModelClient) (tm : nat -> GenerativeModel)
  : Settings.Env :=
  {| Settings.platform := platform; Settings.model := client;
     Settings.transactionalModel := tm |}.

Definition video_env (client : ModelClient) (tm : nat -> GenerativeModel)
  : Video.Env :=
  {| Video.platform := platform; Video.model := client;
     Video.transactionalModel := tm;
     Video.loadImageBase64 := Normal "base64" |}.

Definition default_query : string :=
  "My eyes are sensitive to light and I need a bigger font size.".

(** The settings a run starts from. *)
Definition current : Settings.AppSettings := fst Settings.get_current_app_settings.

(** Six consecutive tool-call rounds. *)
Definition six_calls : ModelClient :=
  scripted [get_call; get_call; get_call; get_call; get_call; get_call]
           (text_response "done").

(** Four tool-call rounds, then the final answer in the fifth round. *)
Definition answer_in_round_5 : ModelClient :=
  scripted [get_call; get_call; get_call; get_call] (text_response "All set.").

(** The usual exchange: read the settings, update them, confirm. *)
Definition read_update_confirm : ModelClient :=
  scripted [get_call; update_call] (text_response "Dark mode is on.").

(** The model asks for the update without having read the settings. *)
Definition update_first : ModelClient :=
  scripted [update_call] (text_response "unreachable").

(** The model asks for a tool that was never declared. *)
Definition unknown_call : FunctionCall :=
  {| name := "reset_all_settings"; args := no_args |}.

Definition unknown_first : ModelClient :=
  scripted [call_response "reset_all_settings" no_args] (text_response "unreachable").

(** The first reply holds two tool-calls: a read, then an update. *)
Definition read_and_update : Response :=
  two_calls_response
    {| name := "get_current_app_settings"; args := no_args |}
    {| name := "update_app_settings"; args := update_args |}.

(** The state in which the settings assistant enters its loop when the
    first reply of the model is [r]. *)
Definition first_state (r : Response) : Loop.LoopState (option Settings.AppSettings) :=
  {| Loop.chat := [UserText default_query; ModelTurn r];
     Loop.result := r;
     Loop.loopCount := 0;
     Loop.data := None;
     Loop.out := [EvSend (UserText default_query)] |}.

(** The state at the head of the loop after the read of
    [read_update_confirm] has been answered: the settings are stored and the
    model asks for the update. *)
Definition second_state : Loop.LoopState (option Settings.AppSettings) :=
  {| Loop.chat := [ UserText default_query; ModelTurn get_call;
                    FunctionResponse "get_current_app_settings" (Settings.to_js current);
                    ModelTurn update_call ];
     Loop.result := update_call;
     Loop.loopCount := 1;
     Loop.data := Some current;
     Loop.out := [ EvSend (UserText default_query);
                   EvRequestedCall 1 "get_current_app_settings";
                   EvToolCall "get_current_app_settings" [];
                   EvSend (FunctionResponse "get_current_app_settings"
                             (Settings.to_js current)) ] |}.

(** A chat model that never asks for a tool, and the navigation assistant
    run against it. *)
Definition never_calls : ModelClient :=
  fun _ => Normal (text_response "Where would you like to go?").

Definition navigation_env : Navigation.Env :=
  {| Navigation.platform := platform; Navigation.model := never_calls |}.

(** The model answers at once. *)
Definition answers_at_once : ModelClient :=
  scripted [] (text_response "Hello! How can I help?").

End Scenarios.

(** ** Further definitions: the rest of the example programs *)

Module LoopMore.

Import Js Sdk Client Trace Loop.

(** The state in which a finished loop leaves the variables. *)
Definition exit_state {S : Type} (x : LoopExit S) : LoopState S :=
  match x with
  | Finished st | Raised _ st | OutOfFuel st => st
  end.

(** The events the handlers emit: their own entry and their transactional
    call. *)
Definition is_handler_event (e : Event) : bool :=
  match e with
  | EvToolCall _ _ | EvGenerate _ => true
  | _ => false
  end.

(** A dispatcher emits handler events only. *)
Definition handlers_only {S : Type}
    (dispatch : nat -> S -> FunctionCall -> Dispatch S) : Prop :=
  forall n d fc,
    match dispatch n d fc with
    | Responded _ _ evs => forallb is_handler_event evs = true
    | Thrown _ evs => forallb is_handler_event evs = true
    | Unexpected => True
    end.

(** A value whose field [k] holds a number of the range [[lo, hi]], or
    [NaN]. *)
Definition within (v : JsValue) (k : string) (lo hi : float) : Prop :=
  exists n, Get v k = Normal (JNum n) /\ JsNumber.in_range_or_nan lo hi n = true.

(** A run surfaces a failure: its [catch] block ran and reported the
    error. *)
Definition explicit_failure (r : RunResult) : Prop :=
  exists e, outcome r = Failed e /\ In (EvCaught e) (events r).

(** Before the loop is left the abort report has not been printed, and the
    counter is within the bound. *)
Definition no_report_yet {S : Type} (st : LoopState S) : Prop :=
  ~ In EvExitedMaxIterations (out st) /\ (loopCount st <= MAX_LOOPS)%nat.

End LoopMore.

Module SettingsMore.

Import Js Sdk Client Trace Loop.
Open Scope string_scope.

(** The settings [get_current_app_settings] returns. *)
Definition stored : Settings.AppSettings := fst Settings.get_current_app_settings.

(** The structure the prompt and the response schema of
    [update_app_settings] ask for: an object that holds the eight settings,
    booleans and numbers. *)
Definition holds_boolean (o : JsValue) (k : string) : bool :=
  match Get o k with
  | Normal (JBool _) => true
  | _ => false
  end.

Definition holds_number (o : JsValue) (k : string) : bool :=
  match Get o k with
  | Normal (JNum _) => true
  | _ => false
  end.

Definition expected_structure (o : JsValue) : bool :=
  match o with
  | JObj _ =>
      holds_boolean o "darkMode" && holds_number o "fontSizeFactor" &&
      holds_boolean o "notificationsEnabled" && holds_number o "notificationVolume" &&
      holds_boolean o "reduceMotion" && holds_boolean o "autoPlayVideos" &&
      holds_boolean o "highContrast" && holds_number o "textToSpeechRate"
  | _ => false
  end.

(** "Every text that does not parse as the expected structure gives the
    fallback": what would have to hold of [update_app_settings] for payloads
    that are JSON of another shape. *)
Definition falls_back_on_every_other_shape : Prop :=
  forall P current userRequest model response t o,
    model (SettingsPrompt (Settings.to_js current) userRequest) = Normal response ->
    text response = Normal t ->
    JSON_parse P t = Some o ->
    expected_structure o = false ->
    fst (Settings.update_app_settings P current userRequest model)
    = Settings.to_js current.

(** The handler calls of a trace of the settings assistant, read from left
    to right: a read is called without arguments; an update is called with
    the stored settings and the query [userQuery], and only once a read has
    been seen ([seen], or earlier in the trace). *)
Fixpoint calls_in_order (userQuery : string) (seen : bool) (tr : list Event) : Prop :=
  match tr with
  | [] => True
  | EvToolCall nm a :: rest =>
      (nm = "get_current_app_settings" /\ a = [] /\
       calls_in_order userQuery true rest) \/
      (nm = "update_app_settings" /\ seen = true /\
       a = [Settings.toolArgs stored userQuery] /\
       calls_in_order userQuery seen rest)
  | _ :: rest => calls_in_order userQuery seen rest
  end.

(** A read occurs in the trace. *)
Definition has_read (tr : list Event) : bool :=
  existsb (fun e => match e with
                    | EvToolCall nm _ => String.eqb nm "get_current_app_settings"
                    | _ => false
                    end) tr.

(** What the settings assistant sends back for an update holds, in every
    ranged field, a number of the range or [NaN]. *)
Definition safe_to_send (e : Event) : Prop :=
  match e with
  | EvSend (FunctionResponse nm v) =>
      nm = "update_app_settings" ->
      forall k lo hi, In (k, (lo, hi)) Settings.declared_ranges ->
                      LoopMore.within v k lo hi
  | _ => True
  end.

(** What holds at every point of a run of the settings assistant: the
    handler calls so far are in order, the stored settings are those of a
    read that has happened, and every answer sent for an update is within
    the ranges. *)
Definition Inv (q : string) (st : LoopState (option Settings.AppSettings)) : Prop :=
  calls_in_order q false (out st) /\
  (data st = None /\ has_read (out st) = false \/
   data st = Some stored /\ has_read (out st) = true) /\
  Forall safe_to_send (out st).

End SettingsMore.

(** [main] of the navigation assistant, from the first
    [chat.sendMessage(query1)] on.  [query2_raw] is the second query as the
    loop receives it (the text read from the console, or the default query
    when that is empty); the loop has no bound of its own, so the run takes
    fuel. *)

Module NavigationMain.

Import Js Sdk Client Trace Navigation.
Open Scope string_scope.

Definition query1 : string :=
  "Tell me more about the Pacific Science Center accessibility.".

Definition defaultQuery : string := "Whats the best Ruth to get there".

Record RunResult : Type := {
  session : Session.t;
  events : list Event;
  outcome : Loop.Outcome
}.

(** The state in which the loop is entered: [responseText] is the text of
    the reply to the first query, [r2] the reply to the second. *)
Definition entry (chat0 : Session.t) (responseText : string) (r2 : Response)
    (query2_raw : string) : State :=
  {| chat := chat0; result := r2; response := r2;
     completedFunctionCall := false;
     out := [ EvSend (UserText query1); EvAssistant responseText;
              EvSend (UserText query2_raw) ] |}.

Definition main (env : Env) (query2_raw : string) (fuel : nat) : RunResult :=
  let sent1 := sendMessage (model env) Session.empty (UserText query1) in
  match snd sent1 with
  | Throw e =>
      {| session := fst sent1;
         events := [EvSend (UserText query1); EvCaught e];
         outcome := Loop.Failed e |}
  | Normal r1 =>
      match text r1 with                               (* response.text() *)
      | Throw e =>
          {| session := fst sent1;
             events := [EvSend (UserText query1); EvCaught e];
             outcome := Loop.Failed e |}
      | Normal responseText =>
          let sent2 := sendMessage (model env) (fst sent1) (UserText query2_raw) in
          match snd sent2 with
          | Throw e =>
              {| session := fst sent2;
                 events := [ EvSend (UserText query1); EvAssistant responseText;
                             EvSend (UserText query2_raw); EvCaught e ];
                 outcome := Loop.Failed e |}
          | Normal r2 =>
              match while_loop env fuel (entry (fst sent2) responseText r2 query2_raw) with
              | Finished st =>
                  match text (response st) with        (* response.text() *)
                  | Normal t =>
                      {| session := chat st;
                         events := (out st ++ [EvFinalResponse t])%list;
                         outcome := Loop.Completed |}
                  | Throw e =>
                      {| session := chat st;
                         events := (out st ++ [EvCaught e])%list;
                         outcome := Loop.Failed e |}
                  end
              | Raised e st =>
                  {| session := chat st;
                     events := (out st ++ [EvCaught e])%list;
                     outcome := Loop.Failed e |}
              | OutOfFuel st =>
                  {| session := chat st; events := out st; outcome := Loop.Diverged |}
              end
          end
      end
  end.

(** The state in which a finished loop leaves the variables. *)
Definition exit_state (x : LoopExit) : State :=
  match x with
  | Finished st | Raised _ st | OutOfFuel st => st
  end.

(** A handler call answers a request of the session [s]: it is for
    [find_route] and carries the arguments of a reply whose first part asks
    for it. *)
Definition answers_request (s : Session.t) (e : Event) : Prop :=
  match e with
  | EvToolCall nm a =>
      nm = "find_route" /\
      exists reply fc,
        In (ModelTurn reply) s /\ first_part_functionCall reply = Some fc /\
        name fc = "find_route" /\ a = [args fc]
  | _ => True
  end.

(** What holds at every point of the loop: no handler has run while the
    flag is unset, at most one has run at all, the two responses the loop
    holds are replies of the session, and every handler call answers a
    request. *)
Definition Inv (st : State) : Prop :=
  (completedFunctionCall st = false -> tool_calls (out st) = []) /\
  (List.length (tool_calls (out st)) <= 1)%nat /\
  In (ModelTurn (response st)) (chat st) /\
  In (ModelTurn (result st)) (chat st) /\
  Forall (answers_request (chat st)) (out st).

End NavigationMain.

(** [main] of the classification example: it prints one line per element of
    the accepted [response] array. *)

Module ClassifyMain.

Import Js Sdk Client.
Open Scope string_scope.

(** The callback [c => `${c.queryClassification}: ${c.reason}`]: each
    substitution is read and converted to a string before the next one is
    read. *)
Definition describe_one (P : Platform) (c : JsValue) : Completion string :=
  queryClassification <- Get c "queryClassification" ;;
  s1 <- ToString P queryClassification ;;
  reason <- Get c "reason" ;;
  s2 <- ToString P reason ;;
  Normal (s1 ++ ": " ++ s2).

(** [response.map(c => ...)]: the callback runs on the elements in order,
    and what it throws ends the [map]. *)
Fixpoint describe (P : Platform) (elems : list JsValue) : Completion (list string) :=
  match elems with
  | [] => Normal []
  | c :: rest =>
      line <- describe_one P c ;;
      lines <- describe P rest ;;
      Normal (line :: lines)
  end.

Inductive Output : Type :=
| Classifications (lines : list string)   (* "--- Classification Result ---" *)
| CouldNotClassify.                       (* "Could not classify the query." *)

(** [main], from [classifyQuery(model, userQuery)] on; nothing in [main]
    catches what it throws. *)
Definition main (P : Platform) (model : GenerativeModel) (userQuery : string)
  : Completion Output :=
  match Classify.classifyQuery P model userQuery with
  | Some classificationResult =>
      response <- Get classificationResult "response" ;;
      match response with
      | JArr elems _ =>
          lines <- describe P elems ;;
          Normal (Classifications lines)
      | _ => Throw TypeError            (* no [map] to call *)
      end
  | None => Normal CouldNotClassify
  end.

End ClassifyMain.

(** The compiled build of the classification example (the JavaScript file
    beside the TypeScript sources): its validator tests another field. *)

Module ClassifyCompiled.

Import Js Sdk Client.
Open Scope string_scope.

Definition validate (P : Platform) (responseText : string) : Completion (option JsValue) :=
  parsedResponse <- parse P responseText ;;
  if negb (ToBoolean parsedResponse) then Normal None
  else
    q <- Get parsedResponse "query_classification" ;;
    if negb (Classify.nonempty_array q) then Normal None
    else Normal (Some parsedResponse).

(** [classifyQuery(model, query)]; [None] is [null]. *)
Definition classifyQuery (P : Platform) (model : GenerativeModel) (query : string)
  : option JsValue :=
  match model (ClassifyPrompt query) with
  | Throw _ => None
  | Normal response =>
      match text response with
      | Throw _ => None
      | Normal responseText =>
          match validate P responseText with
          | Normal r => r
          | Throw _ => None
          end
      end
  end.

End ClassifyCompiled.

(** ** Further scenarios *)

Module ScenariosMore.

Import Js Sdk Client Trace Scenarios.
Open Scope string_scope.

(** A complete and valid settings payload. *)
Definition text_valid_settings : string :=
  "{" ++ quoted "darkMode" ++ ": true, "
      ++ quoted "fontSizeFactor" ++ ": 1.25, "
      ++ quoted "notificationsEnabled" ++ ": true, "
      ++ quoted "notificationVolume" ++ ": 0.5, "
      ++ quoted "reduceMotion" ++ ": false, "
      ++ quoted "autoPlayVideos" ++ ": true, "
      ++ quoted "highContrast" ++ ": false, "
      ++ quoted "textToSpeechRate" ++ ": 1}".

Definition valid_settings : JsValue :=
  JObj [ ("darkMode", JBool true);
         ("fontSizeFactor", JNum 1.25);
         ("notificationsEnabled", JBool true);
         ("notificationVolume", JNum 0.5);
         ("reduceMotion", JBool false);
         ("autoPlayVideos", JBool true);
         ("highContrast", JBool false);
         ("textToSpeechRate", JNum 1) ].

(** Payloads of the two examples without tools. *)
Definition text_refined : string :=
  "{" ++ quoted "rephrasedQuery" ++ ": " ++ quoted "Step-free route to the Pacific Science Center"
      ++ ", " ++ quoted "reason" ++ ": " ++ quoted "Corrected Ruth to route" ++ "}".

Definition refined : JsValue :=
  JObj [ ("rephrasedQuery", JStr "Step-free route to the Pacific Science Center");
         ("reason", JStr "Corrected Ruth to route") ].

Definition text_empty_reason : string :=
  "{" ++ quoted "rephrasedQuery" ++ ": " ++ quoted "route" ++ ", "
      ++ quoted "reason" ++ ": " ++ dq ++ dq ++ "}".

Definition text_classified : string :=
  "{" ++ quoted "response" ++ ": [{" ++ quoted "queryClassification" ++ ": "
      ++ quoted "UPDATE_APP_SETTINGS" ++ ", " ++ quoted "reason" ++ ": "
      ++ quoted "asks for a bigger font" ++ "}]}".

Definition classified : JsValue :=
  JObj [ ("response",
          JArr [ JObj [ ("queryClassification", JStr "UPDATE_APP_SETTINGS");
                        ("reason", JStr "asks for a bigger font") ] ] []) ].

Definition text_null_element : string :=
  "{" ++ quoted "response" ++ ": [null]}".

Definition text_old_shape : string :=
  "{" ++ quoted "query_classification" ++ ": [" ++ quoted "APP_SETTINGS" ++ "]}".

(** Payloads that are JSON but not settings: an array, and an object whose
    font size factor is an object that cannot be converted to a number. *)
Definition text_array : string := "[1, 2]".

Definition text_font_object : string :=
  "{" ++ quoted "fontSizeFactor" ++ ": {" ++ quoted "toString" ++ ": null}}".

Definition unconvertible : JsValue := JObj [("toString", JNull)].

(** A reply that was blocked: it has no candidates, and its [text()]
    throws an error with this message. *)
Definition blocked_message : string :=
  "Text not available. Response was blocked due to SAFETY".

Definition blocked : Response :=
  {| candidates := None; text := Throw (ClientError blocked_message) |}.

(** Arguments of a tool-call whose [userQuery] cannot be converted to a
    string. *)
Definition unconvertible_query : JsValue := JObj [("userQuery", unconvertible)].

Definition parse_table : list (string * JsValue) :=
  [ (text_valid_settings, valid_settings);
    (text_refined, refined);
    (text_empty_reason,
     JObj [("rephrasedQuery", JStr "route"); ("reason", JStr "")]);
    (text_classified, classified);
    (text_null_element, JObj [("response", JArr [JNull] [])]);
    (text_old_shape, JObj [("query_classification", JArr [JStr "APP_SETTINGS"] [])]);
    (text_array, JArr [JNum 1; JNum 2] []);
    (text_font_object, JObj [("fontSizeFactor", unconvertible)]) ].

(** A platform that parses the texts above and those of [Scenarios], with
    the conversions of [Scenarios.platform]. *)
Definition platform : Platform :=
  {| JSON_parse := fun s => table_lookup s (parse_table ++ Scenarios.parse_table)%list;
     StringToNumber := StringToNumber Scenarios.platform;
     ObjectToNumber := ObjectToNumber Scenarios.platform;
     NumberToString := NumberToString Scenarios.platform;
     ObjectToString := ObjectToString Scenarios.platform |}.

(** Responses of the navigation assistant's model. *)
Definition route_args : JsValue :=
  JObj [ ("rephrasedUserQuery", JStr "Step-free route from MoPOP to the Pacific Science Center");
         ("reasoning", JStr "there is the Pacific Science Center") ].

Definition route_call : Response := call_response "find_route" route_args.

(** A reply that opens with text and then asks for the route. *)
Definition text_then_call : Response :=
  {| candidates :=
       Some [ {| content :=
                   Some {| parts :=
                             Some [ {| part_text := Some "Let me look that up.";
                                       functionCall := None |};
                                    {| part_text := None;
                                       functionCall :=
                                         Some {| name := "find_route"; args := route_args |} |} ] |} |} ];
     text := Normal "Let me look that up." |}.

Definition navigation_env (client : ModelClient) : Navigation.Env :=
  {| Navigation.platform := platform; Navigation.model := client |}.

(** The model describes the place, asks back once, then asks for the
    route: its replies to the two queries, to the first "Ok" and to the
    second. *)
Definition asks_back_once : ModelClient :=
  scripted [ text_response "The Pacific Science Center is accessible.";
             text_response "Do you want directions?";
             route_call;
             text_response "Anything else?" ]
           (text_response "Here is your route.").

(** The model asks for the route as soon as it reads the second query. *)
Definition calls_at_once : ModelClient :=
  scripted [ text_response "The Pacific Science Center is accessible."; route_call ]
           (text_response "No route was found.").

End ScenariosMore.

(* ================================================================== *)
(** * Part II.  Lemmas and theorems                                    *)
(* ================================================================== *)

(** ** Comparison and clamping of JavaScript numbers *)

Module JsNumberFacts.

Import JsNumber.
Open Scope float_scope.

Lemma SFcompare_antisym x y :
  SFcompare y x = option_map CompOpp (SFcompare x y).
Proof.
  destruct x as [[|]|[|]| |[|] m1 e1], y as [[|]|[|]| |[|] m2 e2];
    try reflexivity; unfold SFcompare; cbv beta iota;
    change (PosDef.Pos.compare_cont Eq m2 m1) with (Pos.compare m2 m1);
    change (PosDef.Pos.compare_cont Eq m1 m2) with (Pos.compare m1 m2);
    rewrite (Z.compare_antisym e1 e2), (Pos.compare_antisym m1 m2);
    destruct (e1 ?= e2)%Z, (m1 ?= m2)%positive; reflexivity.
Qed.

Lemma SFcompare_lt_trans x a b :
  nonneg_finite a = true -> nonneg_finite b = true ->
  SFcompare x a = Some Lt -> SFcompare a b = Some Lt -> SFcompare x b = Some Lt.
Proof.
  destruct a as [[|]|[|]| |[|] ma ea]; try discriminate;
  destruct b as [[|]|[|]| |[|] mb eb]; try discriminate;
  destruct x as [[|]|[|]| |[|] m e]; intros _ _; unfold SFcompare; cbv beta iota;
    try discriminate; try reflexivity;
    change (PosDef.Pos.compare_cont Eq) with Pos.compare;
    destruct (Z.compare_spec e ea), (Z.compare_spec ea eb), (Z.compare_spec e eb);
    destruct (Pos.compare_spec m ma), (Pos.compare_spec ma mb), (Pos.compare_spec m mb);
    try discriminate; try reflexivity; intros; exfalso; lia.
Qed.

Lemma SFcompare_refl x : x <> S754_nan -> SFcompare x x = Some Eq.
Proof.
  destruct x as [[|]|[|]| |[|] m e]; intros H; try reflexivity; try congruence;
    unfold SFcompare; rewrite Z.compare_refl;
    change (PosDef.Pos.compare_cont Eq m m) with (Pos.compare m m);
    rewrite Pos.compare_refl; reflexivity.
Qed.

Lemma is_nan_spec v :
  is_nan v = match Prim2SF v with S754_nan => true | _ => false end.
Proof.
  unfold is_nan. rewrite FloatAxioms.eqb_spec. unfold SFeqb.
  destruct (Prim2SF v) as [s|s| |s m e] eqn:E; try reflexivity;
    rewrite SFcompare_refl by discriminate; reflexivity.
Qed.

(** The three outcomes of comparing [v] with a bound [c]. *)
Lemma ltb_compare v c :
  (v <? c) = match SFcompare (Prim2SF v) (Prim2SF c) with
             | Some Lt => true
             | _ => false
             end.
Proof. rewrite ltb_spec. reflexivity. Qed.

Lemma gtb_compare v c :
  (c <? v) = match SFcompare (Prim2SF v) (Prim2SF c) with
             | Some Gt => true
             | _ => false
             end.
Proof.
  rewrite ltb_spec. unfold SFltb.
  rewrite (SFcompare_antisym (Prim2SF v) (Prim2SF c)).
  destruct (SFcompare (Prim2SF v) (Prim2SF c)) as [[| |]|]; reflexivity.
Qed.

Lemma eqb_compare v c :
  (c =? v) = match SFcompare (Prim2SF v) (Prim2SF c) with
             | Some Eq => true
             | _ => false
             end.
Proof.
  rewrite FloatAxioms.eqb_spec. unfold SFeqb.
  rewrite (SFcompare_antisym (Prim2SF v) (Prim2SF c)).
  destruct (SFcompare (Prim2SF v) (Prim2SF c)) as [[| |]|]; reflexivity.
Qed.

Lemma is_nan_compare v c :
  nonneg_finite (Prim2SF c) = true ->
  is_nan v = match SFcompare (Prim2SF v) (Prim2SF c) with
             | None => true
             | _ => false
             end.
Proof.
  rewrite is_nan_spec.
  destruct (Prim2SF c) as [[|]|[|]| |[|] mc ec]; try discriminate; intros _;
    destruct (Prim2SF v) as [[|]|[|]| |[|] m e]; reflexivity.
Qed.

Lemma is_nan_bound c : nonneg_finite (Prim2SF c) = true -> is_nan c = false.
Proof.
  intros H. rewrite is_nan_spec.
  destruct (Prim2SF c) as [[|]|[|]| |[|] mc ec]; try discriminate; reflexivity.
Qed.

Lemma get_sign_bound c : nonneg_finite (Prim2SF c) = true -> get_sign c = false.
Proof.
  intros H. destruct (Prim2SF c) as [[|]|[|]| |[|] mc ec] eqn:E; try discriminate.
  - assert (c = zero) as -> by (apply Prim2SF_inj; rewrite E; reflexivity).
    reflexivity.
  - unfold get_sign, is_zero.
    rewrite FloatAxioms.eqb_spec, E.
    change (SFeqb (S754_finite false mc ec) (Prim2SF zero)) with false.
    cbv beta iota zeta. rewrite ltb_spec, E. reflexivity.
Qed.

Lemma Math_min_compare hi v :
  nonneg_finite (Prim2SF hi) = true ->
  Math_min hi v = match SFcompare (Prim2SF v) (Prim2SF hi) with
                  | None => nan
                  | Some Gt => hi
                  | _ => v
                  end.
Proof.
  intros H. unfold Math_min.
  rewrite (is_nan_bound _ H), (get_sign_bound _ H), (is_nan_compare v _ H).
  rewrite (gtb_compare v hi), (ltb_compare v hi).
  destruct (SFcompare (Prim2SF v) (Prim2SF hi)) as [[| |]|]; reflexivity.
Qed.

Lemma Math_max_compare lo w :
  nonneg_finite (Prim2SF lo) = true ->
  Math_max lo w = match SFcompare (Prim2SF w) (Prim2SF lo) with
                  | None => nan
                  | Some Gt => w
                  | _ => lo
                  end.
Proof.
  intros H. unfold Math_max.
  rewrite (is_nan_bound _ H), (get_sign_bound _ H), (is_nan_compare w _ H).
  rewrite (gtb_compare w lo), (ltb_compare w lo).
  destruct (SFcompare (Prim2SF w) (Prim2SF lo)) as [[| |]|]; reflexivity.
Qed.

Lemma declared_range_inv lo hi :
  declared_range lo hi = true ->
  nonneg_finite (Prim2SF lo) = true /\ nonneg_finite (Prim2SF hi) = true /\
  SFcompare (Prim2SF lo) (Prim2SF hi) = Some Lt.
Proof.
  unfold declared_range. rewrite !andb_true_iff, ltb_compare.
  intros [[Hlo Hhi] Hlt]. repeat split; trivial.
  destruct (SFcompare (Prim2SF lo) (Prim2SF hi)) as [[| |]|]; congruence.
Qed.

Lemma SameValueZero_refl v : SameValueZero v v = true.
Proof.
  unfold SameValueZero. rewrite (eqb_compare v v), is_nan_spec.
  destruct (Prim2SF v) eqn:E; try reflexivity;
    rewrite SFcompare_refl by discriminate; reflexivity.
Qed.

Lemma SameValueZero_compare c v :
  SFcompare (Prim2SF v) (Prim2SF c) = Some Eq -> SameValueZero c v = true.
Proof.
  intros H. unfold SameValueZero. rewrite (eqb_compare v c), H. apply orb_true_r.
Qed.

Lemma SameValueZero_nan v c :
  nonneg_finite (Prim2SF c) = true ->
  SFcompare (Prim2SF v) (Prim2SF c) = None -> SameValueZero nan v = true.
Proof.
  intros Hc H. unfold SameValueZero.
  rewrite (is_nan_compare v c Hc), H. reflexivity.
Qed.

Lemma Math_max_nan lo : nonneg_finite (Prim2SF lo) = true -> Math_max lo nan = nan.
Proof.
  intros Hlo. rewrite (Math_max_compare lo nan Hlo).
  change (Prim2SF nan) with S754_nan.
  destruct (Prim2SF lo); reflexivity.
Qed.

(** [clamp] by cases on how [v] compares with the two bounds. *)
Lemma clamp_cases lo hi v :
  declared_range lo hi = true ->
  ((v <? lo) = true -> clamp lo hi v = lo) /\
  ((hi <? v) = true -> clamp lo hi v = hi) /\
  ((v <? lo) = false -> (hi <? v) = false ->
     SameValueZero (clamp lo hi v) v = true).
Proof.
  intros Hr. destruct (declared_range_inv _ _ Hr) as (Hlo & Hhi & Hlt).
  unfold clamp.
  rewrite (Math_min_compare hi v Hhi).
  rewrite (ltb_compare v lo), (gtb_compare v hi).
  assert (Hgt : SFcompare (Prim2SF hi) (Prim2SF lo) = Some Gt)
    by (rewrite SFcompare_antisym, Hlt; reflexivity).
  assert (Htr : SFcompare (Prim2SF v) (Prim2SF lo) = Some Lt ->
                SFcompare (Prim2SF v) (Prim2SF hi) = Some Lt)
    by (intros C; exact (SFcompare_lt_trans _ _ _ Hlo Hhi C Hlt)).
  destruct (SFcompare (Prim2SF v) (Prim2SF hi)) as [[| |]|] eqn:Chi;
    [ rewrite (Math_max_compare lo v Hlo)
    | rewrite (Math_max_compare lo v Hlo)
    | rewrite (Math_max_compare lo hi Hlo), Hgt
    | rewrite (Math_max_nan lo Hlo) ];
    destruct (SFcompare (Prim2SF v) (Prim2SF lo)) as [[| |]|] eqn:Clo;
    repeat split; intros;
    first [ discriminate
          | reflexivity
          | (specialize (Htr eq_refl); discriminate)
          | apply SameValueZero_refl
          | (apply SameValueZero_compare; assumption)
          | (apply (SameValueZero_nan v lo Hlo); assumption)
          | (apply (SameValueZero_nan v hi Hhi); assumption) ].
Qed.

(** Inside the range the value comes back as it is; the only change of
    representation is at a value equal to the lower bound, which comes back
    as the bound itself ([-0] becomes [+0] when the bound is [0]). *)
Lemma clamp_in_range_eq lo hi v :
  declared_range lo hi = true ->
  (v <? lo) = false -> (hi <? v) = false ->
  clamp lo hi v = v \/ ((lo =? v) = true /\ clamp lo hi v = lo).
Proof.
  intros Hr. destruct (declared_range_inv _ _ Hr) as (Hlo & Hhi & Hlt).
  unfold clamp.
  rewrite (Math_min_compare hi v Hhi).
  rewrite (ltb_compare v lo), (gtb_compare v hi), (eqb_compare v lo).
  pose proof (is_nan_compare v lo Hlo) as Nlo.
  pose proof (is_nan_compare v hi Hhi) as Nhi.
  rewrite is_nan_spec in Nlo, Nhi.
  destruct (SFcompare (Prim2SF v) (Prim2SF hi)) as [[| |]|] eqn:Chi;
    [ rewrite (Math_max_compare lo v Hlo)
    | rewrite (Math_max_compare lo v Hlo)
    | intros; discriminate
    | rewrite (Math_max_nan lo Hlo) ];
    destruct (SFcompare (Prim2SF v) (Prim2SF lo)) as [[| |]|] eqn:Clo;
    intros; try discriminate; auto;
    destruct (Prim2SF v) eqn:E; try discriminate;
    left; symmetry; apply Prim2SF_inj; rewrite E; reflexivity.
Qed.

End JsNumberFacts.

(** ** Property access *)

Module JsFacts.

Import Js.
Open Scope string_scope.

Lemma lookup_assign_same k v own : lookup k (assign k v own) = v.
Proof.
  induction own as [|[k' v'] rest IH]; simpl.
  - rewrite String.eqb_refl. reflexivity.
  - destruct (String.eqb k k') eqn:E; simpl; rewrite E; auto.
Qed.

Lemma lookup_assign_other k k' v own :
  String.eqb k k' = false -> lookup k (assign k' v own) = lookup k own.
Proof.
  intros Hk. induction own as [|[k0 v0] rest IH]; simpl.
  - rewrite Hk. reflexivity.
  - destruct (String.eqb k' k0) eqn:E; simpl.
    + apply String.eqb_eq in E. subst k0. rewrite Hk. reflexivity.
    + destruct (String.eqb k k0); auto.
Qed.

Lemma Put_object o k v :
  is_object o = true ->
  exists o', Put o k v = Normal o' /\ is_object o' = true /\
             Get o' k = Normal v /\
             forall k', String.eqb k' k = false -> Get o' k' = Get o k'.
Proof.
  destruct o; simpl; intros H; try discriminate;
    eexists; (split; [reflexivity|]); simpl; (split; [reflexivity|]);
    rewrite lookup_assign_same; (split; [reflexivity|]);
    intros k' Hk; rewrite lookup_assign_other by assumption; reflexivity.
Qed.

Lemma Put_primitive o k v : is_object o = false -> Put o k v = Throw TypeError.
Proof. destruct o; simpl; intros H; try discriminate; reflexivity. Qed.

Lemma Get_object o k : is_object o = true -> exists v, Get o k = Normal v.
Proof. destruct o; simpl; intros H; try discriminate; eexists; reflexivity. Qed.

End JsFacts.

(** ** The validation path of [update_app_settings] *)

Module SettingsFacts.

Import Js Sdk Client Trace JsNumber JsFacts Settings.
Open Scope string_scope.

Lemma ToNumber_primitive P v :
  is_object v = false -> exists n, ToNumber P v = Normal n.
Proof.
  destruct v as [| |[|]|n|s|elems own|own]; cbn; intros H; try discriminate;
    eexists; reflexivity.
Qed.

Lemma clamp_field_object P o k lo hi v n :
  is_object o = true ->
  Get o k = Normal v ->
  ToNumber P v = Normal n ->
  exists o',
    clamp_field P o k lo hi = Normal o' /\ is_object o' = true /\
    Get o' k = Normal (JNum (clamp lo hi n)) /\
    forall k', String.eqb k' k = false -> Get o' k' = Get o k'.
Proof.
  intros Ho Hv Hn.
  destruct (Put_object o k (JNum (clamp lo hi n)) Ho) as (o' & HP & Ho' & Hk & Hother).
  exists o'. unfold clamp_field. rewrite Hv. cbn [bind]. rewrite Hn. cbn [bind].
  unfold clamp in HP. rewrite HP. auto.
Qed.

Lemma clamp_field_primitive P o k lo hi :
  is_object o = false -> exists e, clamp_field P o k lo hi = Throw e.
Proof.
  intros Ho. unfold clamp_field.
  destruct (Get o k) as [v|e] eqn:G; cbn [bind]; [|eauto].
  destruct (ToNumber P v) as [n|e]; cbn [bind]; [|eauto].
  rewrite Put_primitive by assumption. eauto.
Qed.

(** A field that cannot be converted to a number makes the clamping
    throw. *)
Lemma clamp_field_unconvertible P o k lo hi v e :
  Get o k = Normal v -> ToNumber P v = Throw e ->
  clamp_field P o k lo hi = Throw e.
Proof. intros Hv Hn. unfold clamp_field. rewrite Hv. cbn [bind]. rewrite Hn. reflexivity. Qed.

(** What the [try] block returns for a parsed object whose three ranged
    fields convert to numbers: each of them holds the clamped number, every
    other property is as parsed. *)
Lemma update_try_object P current userRequest model response t o v1 v2 v3 n1 n2 n3 :
  model (SettingsPrompt (to_js current) userRequest) = Normal response ->
  text response = Normal t ->
  JSON_parse P t = Some o ->
  is_object o = true ->
  Get o "fontSizeFactor" = Normal v1 -> ToNumber P v1 = Normal n1 ->
  Get o "notificationVolume" = Normal v2 -> ToNumber P v2 = Normal n2 ->
  Get o "textToSpeechRate" = Normal v3 -> ToNumber P v3 = Normal n3 ->
  exists r,
    update_app_settings_try P current userRequest model = Normal r /\
    Get r "fontSizeFactor" = Normal (JNum (clamp 0.8 2.0 n1)) /\
    Get r "notificationVolume" = Normal (JNum (clamp 0.0 1.0 n2)) /\
    Get r "textToSpeechRate" = Normal (JNum (clamp 0.5 2.0 n3)) /\
    forall k, String.eqb k "fontSizeFactor" = false ->
              String.eqb k "notificationVolume" = false ->
              String.eqb k "textToSpeechRate" = false ->
              Get r k = Get o k.
Proof.
  intros Hm Ht Hp Ho G1 N1 G2 N2 G3 N3.
  destruct (clamp_field_object P o "fontSizeFactor" 0.8 2.0 v1 n1 Ho G1 N1)
    as (p1 & C1 & O1 & K1 & R1).
  assert (G2' : Get p1 "notificationVolume" = Normal v2)
    by (rewrite (R1 "notificationVolume" eq_refl); exact G2).
  destruct (clamp_field_object P p1 "notificationVolume" 0.0 1.0 v2 n2 O1 G2' N2)
    as (p2 & C2 & O2 & K2 & R2).
  assert (G3' : Get p2 "textToSpeechRate" = Normal v3)
    by (rewrite (R2 "textToSpeechRate" eq_refl), (R1 "textToSpeechRate" eq_refl); exact G3).
  destruct (clamp_field_object P p2 "textToSpeechRate" 0.5 2.0 v3 n3 O2 G3' N3)
    as (p3 & C3 & O3 & K3 & R3).
  exists p3.
  unfold update_app_settings_try, parse. rewrite Hm. cbn [bind]. rewrite Ht. cbn [bind].
  rewrite Hp. cbn [bind].
  rewrite C1. cbn [bind]. rewrite C2. cbn [bind]. rewrite C3. cbn [bind].
  split; [reflexivity|].
  split; [rewrite (R3 "fontSizeFactor" eq_refl), (R2 "fontSizeFactor" eq_refl); exact K1|].
  split; [rewrite (R3 "notificationVolume" eq_refl); exact K2|].
  split; [exact K3|].
  intros k H1 H2 H3. rewrite (R3 k H3), (R2 k H2), (R1 k H1). reflexivity.
Qed.

(** Whatever the [try] block returns is an object that holds a clamped
    number in each of the three ranged fields. *)
Lemma update_try_normal P current userRequest model r :
  update_app_settings_try P current userRequest model = Normal r ->
  exists n1 n2 n3,
    Get r "fontSizeFactor" = Normal (JNum (clamp 0.8 2.0 n1)) /\
    Get r "notificationVolume" = Normal (JNum (clamp 0.0 1.0 n2)) /\
    Get r "textToSpeechRate" = Normal (JNum (clamp 0.5 2.0 n3)).
Proof.
  intros H. unfold update_app_settings_try, parse in H.
  destruct (model _) as [response|e]; cbn [bind] in H; [|discriminate].
  destruct (text response) as [t|e] eqn:Ht; cbn [bind] in H; [|discriminate].
  destruct (JSON_parse P t) as [o|] eqn:Hp; cbn [bind] in H; [|discriminate].
  destruct (is_object o) eqn:Ho.
  2: { destruct (clamp_field_primitive P o "fontSizeFactor" 0.8 2.0 Ho) as [e He].
       rewrite He in H. discriminate. }
  destruct (Get_object o "fontSizeFactor" Ho) as [v1 G1].
  destruct (ToNumber P v1) as [n1|e] eqn:N1.
  2: { rewrite (clamp_field_unconvertible P o _ _ _ v1 e G1 N1) in H. discriminate. }
  destruct (clamp_field_object P o "fontSizeFactor" 0.8 2.0 v1 n1 Ho G1 N1)
    as (p1 & C1 & O1 & K1 & R1).
  rewrite C1 in H. cbn [bind] in H.
  destruct (Get_object p1 "notificationVolume" O1) as [v2 G2].
  destruct (ToNumber P v2) as [n2|e] eqn:N2.
  2: { rewrite (clamp_field_unconvertible P p1 _ _ _ v2 e G2 N2) in H. discriminate. }
  destruct (clamp_field_object P p1 "notificationVolume" 0.0 1.0 v2 n2 O1 G2 N2)
    as (p2 & C2 & O2 & K2 & R2).
  rewrite C2 in H. cbn [bind] in H.
  destruct (Get_object p2 "textToSpeechRate" O2) as [v3 G3].
  destruct (ToNumber P v3) as [n3|e] eqn:N3.
  2: { rewrite (clamp_field_unconvertible P p2 _ _ _ v3 e G3 N3) in H. discriminate. }
  destruct (clamp_field_object P p2 "textToSpeechRate" 0.5 2.0 v3 n3 O2 G3 N3)
    as (p3 & C3 & O3 & K3 & R3).
  rewrite C3 in H. cbn [bind] in H. inversion H; subst r.
  exists n1, n2, n3.
  split; [rewrite (R3 "fontSizeFactor" eq_refl), (R2 "fontSizeFactor" eq_refl); exact K1|].
  split; [rewrite (R3 "notificationVolume" eq_refl); exact K2|exact K3].
Qed.

End SettingsFacts.

(** ** The function-calling loop: one pass *)

Module LoopFacts.

Import Js Sdk Client Trace Loop.
Open Scope list_scope.

Lemma skipn_app_exact {A} (l x : list A) : skipn (List.length l) (l ++ x) = x.
Proof. induction l as [|a l IH]; simpl; auto. Qed.

Lemma tool_calls_app a b : tool_calls (a ++ b) = tool_calls a ++ tool_calls b.
Proof. apply filter_app. Qed.

Lemma sends_app a b : sends (a ++ b) = sends a ++ sends b.
Proof. apply filter_app. Qed.

Section WithDispatch.

Variable S : Type.
Variable client : ModelClient.
Variable dispatch : nat -> S -> FunctionCall -> Dispatch S.

Local Abbreviation iteration := (Loop.iteration client dispatch).
Local Abbreviation while_loop := (Loop.while_loop client dispatch).
Local Abbreviation emitted := (Loop.emitted client dispatch).
Local Abbreviation at_loop_head := (Loop.at_loop_head client dispatch).
Local Abbreviation continues := (Loop.continues client dispatch).
Local Abbreviation pass := (Loop.pass client dispatch).

(** Case analysis of the loop body, along its tests. *)
Ltac body st :=
  unfold Loop.iteration, Loop.emit, sendMessage, Session.append, Session.view;
  cbn [chat result loopCount data out fst snd];
  destruct (functionCalls (result st)) as [[|fnCall others]|] eqn:Hcalls;
  [ destruct (text (result st)) as [t|e] eqn:Htext
  | destruct (dispatch (Datatypes.S (loopCount st)) (data st) fnCall)
        as [apiResponse d evs|e evs|] eqn:Hdispatch;
      [ cbn [chat result loopCount data out fst snd];
        destruct (client (chat st ++
                   [FunctionResponse (name fnCall) apiResponse])) as [r|e] eqn:Hsend;
        cbn [fst snd];
        [ destruct (MAX_LOOPS <=? Datatypes.S (loopCount st))%nat eqn:Hmax | ]
      | | ]
  | destruct (text (result st)) as [t|e] eqn:Htext ];
  cbn [state_of chat result loopCount data out fst snd].

(** [loopCount++]: every pass adds one to the counter. *)
Lemma iteration_loopCount st :
  loopCount (state_of (iteration st)) = Datatypes.S (loopCount st).
Proof. body st; reflexivity. Qed.

(** A pass only adds events to the output. *)
Lemma iteration_out st :
  out (state_of (iteration st)) = out st ++ emitted st.
Proof.
  unfold Loop.emitted.
  assert (H : exists x, out (state_of (iteration st)) = out st ++ x).
  { body st; try (eexists; reflexivity);
      try (exists []; rewrite app_nil_r; reflexivity);
      rewrite <- ?app_assoc; eexists; reflexivity. }
  destruct H as [x Hx]. rewrite Hx, skipn_app_exact. reflexivity.
Qed.

(** A pass only appends turns to the session. *)
Lemma iteration_chat st :
  exists suffix, chat (state_of (iteration st)) = chat st ++ suffix.
Proof.
  body st; try (exists []; rewrite app_nil_r; reflexivity).
  - rewrite <- app_assoc. eexists; reflexivity.
  - rewrite <- app_assoc. eexists; reflexivity.
  - eexists; reflexivity.
Qed.

Lemma emitted_length_out st :
  List.length (tool_calls (out (state_of (iteration st)))) =
  List.length (tool_calls (out st)) + List.length (tool_calls (emitted st)) /\
  List.length (sends (out (state_of (iteration st)))) =
  List.length (sends (out st)) + List.length (sends (emitted st)).
Proof.
  rewrite iteration_out, tool_calls_app, sends_app, !length_app. auto.
Qed.

(** The ways a pass ends with [break]. *)
Lemma iteration_Exit st st' :
  iteration st = Exit st' ->
  let n := Datatypes.S (loopCount st) in
  (* the response holds no tool-call *)
  ((functionCalls (result st) = None \/ functionCalls (result st) = Some []) /\
   (exists t, text (result st) = Normal t /\ emitted st = [EvFinalResponse t]) /\
   chat st' = chat st /\ result st' = result st /\ data st' = data st)
  \/
  (* the name matches no handler *)
  (exists fc rest,
     functionCalls (result st) = Some (fc :: rest) /\
     dispatch n (data st) fc = Unexpected /\
     emitted st = [EvRequestedCall n (name fc); EvUnexpectedCall (name fc)] /\
     chat st' = chat st /\ result st' = result st /\ data st' = data st)
  \/
  (* the result was sent and the bound is reached *)
  (exists fc rest v d evs,
     functionCalls (result st) = Some (fc :: rest) /\
     dispatch n (data st) fc = Responded v d evs /\
     MAX_LOOPS <= n /\
     emitted st = [EvRequestedCall n (name fc)] ++ evs ++
                  [EvSend (FunctionResponse (name fc) v); EvMaxLoopsReached] /\
     chat st' = chat st ++ [FunctionResponse (name fc) v; ModelTurn (result st')] /\
     client (chat st ++ [FunctionResponse (name fc) v]) = Normal (result st')).
Proof.
  intros H n. subst n.
  pose proof (iteration_out st) as Hout. rewrite H in Hout. cbn [state_of] in Hout.
  revert H Hout. body st; intros H Hout; inversion H; subst st'; clear H;
    cbn [chat result loopCount data out] in *.
  - left. repeat split; auto. exists t. split; [reflexivity|].
    rewrite <- ?app_assoc in Hout. apply app_inv_head in Hout.
    rewrite <- Hout. reflexivity.
  - right; right. exists fnCall, others, apiResponse, d, evs.
    apply Nat.leb_le in Hmax.
    repeat split; auto.
    + rewrite <- ?app_assoc in Hout. apply app_inv_head in Hout.
      rewrite <- Hout. reflexivity.
    + rewrite <- app_assoc. reflexivity.
  - right; left. exists fnCall, others.
    repeat split; auto.
    rewrite <- ?app_assoc in Hout. apply app_inv_head in Hout.
      rewrite <- Hout. reflexivity.
  - left. repeat split; auto. exists t. split; [reflexivity|].
    rewrite <- ?app_assoc in Hout. apply app_inv_head in Hout.
    rewrite <- Hout. reflexivity.
Qed.

(** The ways a pass ends with an exception: the text of a response without
    tool-call cannot be read, the dispatch throws, or the model client
    does. *)
Lemma iteration_Raise st err st' :
  iteration st = Raise err st' ->
  let n := Datatypes.S (loopCount st) in
  ((functionCalls (result st) = None \/ functionCalls (result st) = Some []) /\
   text (result st) = Throw err /\ emitted st = [] /\
   chat st' = chat st /\ data st' = data st)
  \/
  exists fc rest,
    functionCalls (result st) = Some (fc :: rest) /\
    ((exists evs,
        dispatch n (data st) fc = Thrown err evs /\
        emitted st = [EvRequestedCall n (name fc)] ++ evs /\
        chat st' = chat st)
     \/
     (exists v d evs,
        dispatch n (data st) fc = Responded v d evs /\
        client (chat st ++ [FunctionResponse (name fc) v]) = Throw err /\
        emitted st = [EvRequestedCall n (name fc)] ++ evs ++
                     [EvSend (FunctionResponse (name fc) v)] /\
        chat st' = chat st ++ [FunctionResponse (name fc) v])).
Proof.
  intros H n. subst n.
  pose proof (iteration_out st) as Hout. rewrite H in Hout. cbn [state_of] in Hout.
  revert H Hout. body st; intros H Hout; inversion H; subst; clear H;
    cbn [chat result loopCount data out] in *.
  - left. repeat split; auto.
    rewrite <- (app_nil_r (out st)) in Hout at 1. apply app_inv_head in Hout.
    symmetry; exact Hout.
  - right. exists fnCall, others. split; [reflexivity|].
    rewrite <- ?app_assoc in Hout; apply app_inv_head in Hout.
    right. exists apiResponse, d, evs. rewrite <- Hout. auto.
  - right. exists fnCall, others. split; [reflexivity|].
    rewrite <- ?app_assoc in Hout; apply app_inv_head in Hout.
    left. exists evs. rewrite <- Hout. auto.
  - left. repeat split; auto.
    rewrite <- (app_nil_r (out st)) in Hout at 1. apply app_inv_head in Hout.
    symmetry; exact Hout.
Qed.

(** The one way a pass reaches the end of the body. *)
Lemma iteration_Next st st' :
  iteration st = Next st' ->
  let n := Datatypes.S (loopCount st) in
  exists fc rest v evs,
    functionCalls (result st) = Some (fc :: rest) /\
    dispatch n (data st) fc = Responded v (data st') evs /\
    n < MAX_LOOPS /\
    emitted st = [EvRequestedCall n (name fc)] ++ evs ++
                 [EvSend (FunctionResponse (name fc) v)] /\
    chat st' = chat st ++ [FunctionResponse (name fc) v; ModelTurn (result st')] /\
    client (chat st ++ [FunctionResponse (name fc) v]) = Normal (result st').
Proof.
  intros H n. subst n.
  pose proof (iteration_out st) as Hout. rewrite H in Hout. cbn [state_of] in Hout.
  revert H Hout. body st; intros H Hout; inversion H; subst; clear H;
    cbn [chat result loopCount data out] in *.
  exists fnCall, others, apiResponse, evs.
  apply Nat.leb_gt in Hmax.
  rewrite <- ?app_assoc in Hout. apply app_inv_head in Hout.
  rewrite <- Hout, <- app_assoc. auto 10.
Qed.

(** *** Counting dispatches and round trips *)

Section CountingPasses.

Hypothesis one_handler : one_handler_per_call dispatch.

(** A pass that continues runs one handler and makes one round trip. *)
Lemma Next_counts st st' :
  iteration st = Next st' ->
  List.length (tool_calls (emitted st)) = 1 /\ List.length (sends (emitted st)) = 1.
Proof.
  intros H. destruct (iteration_Next st _ H) as (fc & rest & v & evs & _ & Hd & _ & He & _).
  pose proof (one_handler (Datatypes.S (loopCount st)) (data st) fc) as Ho.
  rewrite Hd in Ho. destruct Ho as [Hs Ht].
  rewrite He. rewrite !tool_calls_app, !sends_app, !length_app, Hs, Ht. simpl. lia.
Qed.

(** No pass runs more than one handler, and a pass makes a round trip only
    after it ran one. *)
Lemma pass_counts st :
  List.length (sends (emitted st)) <= List.length (tool_calls (emitted st)) /\
  List.length (tool_calls (emitted st)) <= 1.
Proof.
  destruct (iteration st) as [st'|st'|e st'] eqn:H.
  - destruct (Next_counts st _ H). lia.
  - destruct (iteration_Exit st _ H) as
      [(_ & (t & _ & He) & _) | [(fc & rest & _ & _ & He & _) | (fc & rest & v & d & evs & _ & Hd & _ & He & _)]];
      rewrite He; try (simpl; lia).
    pose proof (one_handler (Datatypes.S (loopCount st)) (data st) fc) as Ho.
    rewrite Hd in Ho. destruct Ho as [Hs Ht].
    rewrite !tool_calls_app, !sends_app, !length_app, Hs, Ht. simpl. lia.
  - destruct (iteration_Raise st _ _ H) as
      [(_ & _ & He & _) |
       (fc & rest & _ & [(evs & Hd & He & _) | (v & d & evs & Hd & _ & He & _)])];
      [rewrite He; simpl; lia | |];
      pose proof (one_handler (Datatypes.S (loopCount st)) (data st) fc) as Ho;
      rewrite Hd in Ho; destruct Ho as [Hs Ht]; rewrite He;
      rewrite !tool_calls_app, !sends_app, !length_app, Hs; simpl; lia.
Qed.

End CountingPasses.

(** ** The function-calling loop: whole runs *)

Lemma continues_count st st' :
  continues st st' -> loopCount st' = Datatypes.S (loopCount st).
Proof.
  intros [_ H]. rewrite <- (iteration_loopCount st), H. reflexivity.
Qed.

Lemma pass_count st st' :
  pass st st' -> loopCount st' = Datatypes.S (loopCount st) /\ loopCount st' <= MAX_LOOPS.
Proof.
  intros [Hlt H]. rewrite <- H, iteration_loopCount. split; [reflexivity | lia].
Qed.

Lemma at_loop_head_count st0 st :
  at_loop_head st0 st -> loopCount st0 <= loopCount st.
Proof.
  induction 1 as [|st st' _ IH Hc]; [lia|].
  rewrite (continues_count _ _ Hc). lia.
Qed.

Lemma at_loop_head_prepend st0 st1 st :
  continues st0 st1 -> at_loop_head st1 st -> at_loop_head st0 st.
Proof.
  intros Hc. induction 1 as [|st st' _ IH Hc'].
  - eapply head_next; [apply head_first | exact Hc].
  - eapply head_next; [exact IH | exact Hc'].
Qed.

(** Running the loop from its first state passes through every state at
    the head of the loop. *)
Lemma while_loop_at_head st0 st :
  at_loop_head st0 st ->
  forall fuel,
    while_loop (fuel + (loopCount st - loopCount st0)) st0 = while_loop fuel st.
Proof.
  induction 1 as [|st st' Hh IH Hc]; intros fuel.
  - rewrite Nat.sub_diag, Nat.add_0_r. reflexivity.
  - pose proof (at_loop_head_count _ _ Hh) as Hle.
    rewrite (continues_count _ _ Hc).
    replace (fuel + (Datatypes.S (loopCount st) - loopCount st0))
      with (Datatypes.S fuel + (loopCount st - loopCount st0)) by lia.
    rewrite IH. destruct Hc as [Hlt Hn]. cbn [Loop.while_loop].
    apply Nat.ltb_lt in Hlt. rewrite Hlt, Hn. reflexivity.
Qed.

(** The loop ends: fuel beyond the passes that remain is never used up. *)
Lemma while_loop_enough fuel :
  forall st, MAX_LOOPS - loopCount st < fuel ->
    (exists st', while_loop fuel st = Finished st') \/
    (exists e st', while_loop fuel st = Raised e st').
Proof.
  induction fuel as [|fuel IH]; intros st Hf; [lia|].
  cbn [Loop.while_loop].
  destruct (loopCount st <? MAX_LOOPS)%nat eqn:Hlt; [|left; eauto].
  apply Nat.ltb_lt in Hlt.
  destruct (iteration st) as [st'|st'|e st'] eqn:Hi; [|left; eauto|right; eauto].
  apply IH.
  pose proof (iteration_loopCount st) as Hc. rewrite Hi in Hc. cbn [state_of] in Hc.
  lia.
Qed.

Lemma while_loop_Finished fuel :
  forall st0 st', while_loop fuel st0 = Finished st' ->
    (MAX_LOOPS <= loopCount st0 /\ st' = st0) \/
    exists st, at_loop_head st0 st /\ loopCount st < MAX_LOOPS /\ iteration st = Exit st'.
Proof.
  induction fuel as [|fuel IH]; intros st0 st' H; [discriminate|].
  cbn [Loop.while_loop] in H.
  destruct (loopCount st0 <? MAX_LOOPS)%nat eqn:Hlt.
  - apply Nat.ltb_lt in Hlt. right.
    destruct (iteration st0) as [st1|st1|e st1] eqn:Hi; try discriminate.
    + destruct (IH _ _ H) as [[Hge ->] | (st & Hh & Hl & He)].
      * pose proof (iteration_loopCount st0) as Hc. rewrite Hi in Hc.
        cbn [state_of] in Hc.
        destruct (iteration_Next st0 _ Hi) as (_ & _ & _ & _ & _ & _ & Hn & _).
        lia.
      * exists st. split; [|auto].
        eapply at_loop_head_prepend; [split; eassumption | exact Hh].
    + inversion H; subst. exists st0. split; [apply head_first | auto].
  - apply Nat.ltb_ge in Hlt. inversion H; subst. left; auto.
Qed.

Lemma while_loop_Raised fuel :
  forall st0 e st', while_loop fuel st0 = Raised e st' ->
    exists st, at_loop_head st0 st /\ loopCount st < MAX_LOOPS /\ iteration st = Raise e st'.
Proof.
  induction fuel as [|fuel IH]; intros st0 e st' H; [discriminate|].
  cbn [Loop.while_loop] in H.
  destruct (loopCount st0 <? MAX_LOOPS)%nat eqn:Hlt; [|discriminate].
  apply Nat.ltb_lt in Hlt.
  destruct (iteration st0) as [st1|st1|e1 st1] eqn:Hi; try discriminate.
  - destruct (IH _ _ _ H) as (st & Hh & Hl & He).
    exists st. split; [|auto].
    eapply at_loop_head_prepend; [split; eassumption | exact Hh].
  - inversion H; subst. exists st0. split; [apply head_first | auto].
Qed.

(** Between two states at the head of the loop the session and the output
    have only grown. *)
Lemma at_loop_head_grows st0 st :
  at_loop_head st0 st ->
  (exists suffix, chat st = chat st0 ++ suffix) /\
  (exists evs, out st = out st0 ++ evs).
Proof.
  induction 1 as [|st st' _ [[sfx Hs] [evs He]] [_ Hc]].
  - split; exists []; rewrite app_nil_r; reflexivity.
  - pose proof (iteration_out st) as Ho.
    destruct (iteration_chat st) as [sfx' Hs'].
    rewrite Hc in Ho, Hs'. cbn [state_of] in Ho, Hs'.
    split.
    + exists (sfx ++ sfx'). rewrite Hs', Hs, app_assoc. reflexivity.
    + exists (evs ++ emitted st). rewrite Ho, He, app_assoc. reflexivity.
Qed.

Section CountingAtHead.

Hypothesis one_handler : one_handler_per_call dispatch.

(** At the head of the loop, every pass so far ran one handler and made one
    round trip. *)
Lemma at_loop_head_counts st0 st :
  at_loop_head st0 st ->
  List.length (tool_calls (out st)) =
    List.length (tool_calls (out st0)) + (loopCount st - loopCount st0) /\
  List.length (sends (out st)) =
    List.length (sends (out st0)) + (loopCount st - loopCount st0).
Proof.
  induction 1 as [|st st' Hh [IHt IHs] Hc]; [rewrite Nat.sub_diag; lia|].
  pose proof (at_loop_head_count _ _ Hh) as Hle.
  pose proof (continues_count _ _ Hc) as Hn.
  destruct Hc as [_ Hc].
  destruct (Next_counts one_handler st _ Hc) as [Ht Hs].
  destruct (emitted_length_out st) as [Et Es].
  rewrite Hc in Et, Es. cbn [state_of] in Et, Es.
  rewrite Et, Es, Ht, Hs, IHt, IHs, Hn. lia.
Qed.

End CountingAtHead.

(** *** From the first message to the end of [main] *)

Lemma start_state userQuery (d0 : S) chat0 st0 :
  start client userQuery d0 = (chat0, Normal st0) ->
  loopCount st0 = 0 /\ out st0 = [EvSend (UserText userQuery)] /\
  data st0 = d0 /\ chat st0 = chat0 /\
  chat0 = [UserText userQuery; ModelTurn (result st0)].
Proof.
  unfold start, sendMessage, Session.append, Session.view, Session.empty.
  cbn [app]. destruct (client [UserText userQuery]) as [r|e]; cbn [fst snd];
    intros H; inversion H; subst; cbn; auto.
Qed.

Lemma at_loop_head_lt st0 st :
  loopCount st0 < MAX_LOOPS -> at_loop_head st0 st -> loopCount st < MAX_LOOPS.
Proof.
  intros H0. induction 1 as [|st st' _ _ [_ Hc]]; [exact H0|].
  destruct (iteration_Next st _ Hc) as (_ & _ & _ & _ & _ & _ & Hn & _).
  pose proof (iteration_loopCount st) as Hl. rewrite Hc in Hl. cbn [state_of] in Hl.
  lia.
Qed.

(** A run, seen from any state it reaches at the head of the loop. *)
Lemma run_from_head userQuery (d0 : S) chat0 st0 st :
  start client userQuery d0 = (chat0, Normal st0) ->
  at_loop_head st0 st ->
  loopCount st < MAX_LOOPS /\
  run client dispatch userQuery d0 =
    finish (while_loop (Datatypes.S MAX_LOOPS - loopCount st) st).
Proof.
  intros Hs Hh. destruct (start_state _ _ _ _ Hs) as (Hc0 & _).
  assert (Hlt : loopCount st < MAX_LOOPS).
  { apply (at_loop_head_lt st0 st); [rewrite Hc0; unfold MAX_LOOPS; lia | exact Hh]. }
  split; [exact Hlt|].
  unfold run. rewrite Hs.
  rewrite <- (while_loop_at_head st0 st Hh). rewrite Hc0.
  replace (Datatypes.S MAX_LOOPS - loopCount st + (loopCount st - 0))
    with (Datatypes.S MAX_LOOPS) by lia.
  reflexivity.
Qed.

Lemma after_loop_quiet (st : LoopState S) :
  tool_calls (fst (after_loop st)) = [] /\ sends (fst (after_loop st)) = [].
Proof.
  unfold after_loop.
  destruct (MAX_LOOPS <=? loopCount st)%nat; [|auto].
  destruct (text (result st)) as [t|e]; [destruct (String.eqb t "")|]; auto.
Qed.

(** What follows a loop that was left without exception adds no handler
    call and no round trip. *)
Lemma finish_Finished (st : LoopState S) :
  let r := finish (Finished st) in
  tool_calls (events r) = tool_calls (out st) /\
  sends (events r) = sends (out st) /\
  count r = loopCount st /\ session r = chat st /\ outcome r <> Diverged.
Proof.
  cbv zeta. unfold finish. destruct (after_loop_quiet st) as [At As].
  destruct (snd (after_loop st)); cbn [events count outcome session];
    rewrite ?tool_calls_app, ?sends_app, At, As; cbn; rewrite ?app_nil_r;
    repeat split; discriminate.
Qed.

Section CountingRuns.

Hypothesis one_handler : one_handler_per_call dispatch.

(** What every run satisfies: it ends, the counter stays within the bound,
    there is at most one dispatch per pass and at most one round trip per
    dispatch besides the first message. *)
Lemma run_bounded userQuery (d0 : S) :
  let r := run client dispatch userQuery d0 in
  outcome r <> Diverged /\
  count r <= MAX_LOOPS /\
  List.length (tool_calls (events r)) <= count r /\
  List.length (sends (events r)) <= 1 + List.length (tool_calls (events r)).
Proof.
  cbv zeta. unfold run.
  destruct (start client userQuery d0) as [chat0 [st0|e]] eqn:Hs;
    [|cbn; repeat split; try discriminate; lia].
  destruct (start_state _ _ _ _ Hs) as (Hc0 & Ho0 & _).
  assert (Hfuel : MAX_LOOPS - loopCount st0 < Datatypes.S MAX_LOOPS) by lia.
  destruct (while_loop_enough _ _ Hfuel) as [[st' Hw] | (e & st' & Hw)]; rewrite Hw.
  - destruct (finish_Finished st') as (Ft & Fs & Fc & _ & Fo). cbv zeta in *.
    rewrite Ft, Fs, Fc.
    destruct (while_loop_Finished _ _ _ Hw) as [[Hge _] | (st & Hh & Hlt & Hi)];
      [rewrite Hc0 in Hge; unfold MAX_LOOPS in Hge; lia|].
    destruct (at_loop_head_counts one_handler _ _ Hh) as [Ht Hsd].
    rewrite Ho0, Hc0 in Ht, Hsd. cbn in Ht, Hsd.
    destruct (emitted_length_out st) as [Et Es].
    pose proof (iteration_loopCount st) as Hl.
    rewrite Hi in Et, Es, Hl. cbn [state_of] in Et, Es, Hl.
    destruct (pass_counts one_handler st) as [P1 P2].
    rewrite Et, Es. repeat split; try assumption; lia.
  - cbn [finish outcome count events].
    destruct (while_loop_Raised _ _ _ _ Hw) as (st & Hh & Hlt & Hi).
    destruct (at_loop_head_counts one_handler _ _ Hh) as [Ht Hsd].
    rewrite Ho0, Hc0 in Ht, Hsd. cbn in Ht, Hsd.
    destruct (emitted_length_out st) as [Et Es].
    pose proof (iteration_loopCount st) as Hl.
    rewrite Hi in Et, Es, Hl. cbn [state_of] in Et, Es, Hl.
    destruct (pass_counts one_handler st) as [P1 P2].
    rewrite tool_calls_app, sends_app, !length_app, Et, Es.
    cbn. repeat split; try discriminate; lia.
Qed.

(** The run in which every pass up to the bound dispatches a tool: the
    result of the last dispatch is sent to the model, and only then does the
    loop stop and report. *)
Lemma run_reaches_bound userQuery (d0 : S) :
  let r := run client dispatch userQuery d0 in
  outcome r = Completed ->
  List.length (tool_calls (events r)) = MAX_LOOPS ->
  exists pre fc v reply t,
    text reply = Normal t /\
    events r = pre ++ [EvSend (FunctionResponse (name fc) v);
                       EvMaxLoopsReached; EvExitedMaxIterations]
                   ++ (if String.eqb t "" then [] else [EvLastText t]) /\
    List.length (tool_calls pre) = MAX_LOOPS /\
    List.length (sends pre) = MAX_LOOPS /\
    count r = MAX_LOOPS /\
    exists s, session r = s ++ [FunctionResponse (name fc) v; ModelTurn reply].
Proof.
  cbv zeta. unfold run.
  destruct (start client userQuery d0) as [chat0 [st0|e]] eqn:Hs;
    [|cbn; discriminate].
  destruct (start_state _ _ _ _ Hs) as (Hc0 & Ho0 & _).
  assert (Hfuel : MAX_LOOPS - loopCount st0 < Datatypes.S MAX_LOOPS) by lia.
  destruct (while_loop_enough _ _ Hfuel) as [[st' Hw] | (e & st' & Hw)]; rewrite Hw;
    [|cbn [finish outcome]; discriminate].
  destruct (finish_Finished st') as (Ft & _). cbv zeta in Ft. rewrite Ft.
  unfold finish.
  destruct (snd (after_loop st')) as [e|] eqn:Hsnd;
    cbn [outcome count events session]; [discriminate|].
  intros _ Hfive.
  destruct (while_loop_Finished _ _ _ Hw) as [[Hge _] | (st & Hh & Hlt & Hi)];
    [rewrite Hc0 in Hge; unfold MAX_LOOPS in Hge; lia|].
  destruct (at_loop_head_counts one_handler _ _ Hh) as [Ht Hsd].
  rewrite Ho0, Hc0 in Ht, Hsd. cbn in Ht, Hsd.
  pose proof (iteration_out st) as Hout.
  pose proof (iteration_loopCount st) as Hl.
  rewrite Hi in Hout, Hl. cbn [state_of] in Hout, Hl.
  rewrite Hout, tool_calls_app, length_app in Hfive.
  destruct (iteration_Exit st _ Hi) as
    [(_ & (t0 & _ & He) & _) | [(fc & rest & _ & _ & He & _) |
                     (fc & rest & v & d & evs & _ & Hd & Hmax & He & Hchat & _)]];
    try (rewrite He in Hfive; cbn in Hfive; lia).
  pose proof (one_handler (Datatypes.S (loopCount st)) (data st) fc) as Ho.
  rewrite Hd in Ho. destruct Ho as [Hes Het].
  assert (Hcount : loopCount st' = MAX_LOOPS) by lia.
  unfold after_loop in Hsnd |- *. rewrite Hcount, Nat.leb_refl in Hsnd |- *.
  destruct (text (result st')) as [t|e] eqn:Htext; cbn [fst snd] in Hsnd |- *;
    [|discriminate].
  exists (out st ++ [EvRequestedCall (Datatypes.S (loopCount st)) (name fc)] ++ evs),
    fc, v, (result st'), t.
  split; [exact Htext|].
  split; [|split; [|split; [|split]]].
  - rewrite Hout, He, <- !app_assoc. reflexivity.
  - rewrite !tool_calls_app, !length_app, Het, Ht. cbn. lia.
  - rewrite !sends_app, !length_app, Hes, Hsd. cbn. lia.
  - reflexivity.
  - exists (chat st). exact Hchat.
Qed.

End CountingRuns.

(** *** What a run does from a given state at the head of the loop *)

Lemma iteration_no_call st t :
  functionCalls (result st) = None \/ functionCalls (result st) = Some [] ->
  text (result st) = Normal t ->
  iteration st =
    Exit {| chat := chat st; result := result st;
            loopCount := Datatypes.S (loopCount st); data := data st;
            out := out st ++ [EvFinalResponse t] |}.
Proof.
  intros [H|H] Ht; unfold Loop.iteration, Loop.emit; cbn [chat result loopCount data out];
    rewrite H, Ht; reflexivity.
Qed.

Lemma iteration_unreadable st e :
  functionCalls (result st) = None \/ functionCalls (result st) = Some [] ->
  text (result st) = Throw e ->
  iteration st =
    Raise e {| chat := chat st; result := result st;
               loopCount := Datatypes.S (loopCount st); data := data st;
               out := out st |}.
Proof.
  intros [H|H] Ht; unfold Loop.iteration, Loop.emit; cbn [chat result loopCount data out];
    rewrite H, Ht; reflexivity.
Qed.

Lemma iteration_unexpected st fc rest :
  functionCalls (result st) = Some (fc :: rest) ->
  dispatch (Datatypes.S (loopCount st)) (data st) fc = Unexpected ->
  iteration st =
    Exit {| chat := chat st; result := result st;
            loopCount := Datatypes.S (loopCount st); data := data st;
            out := out st ++ [EvRequestedCall (Datatypes.S (loopCount st)) (name fc);
                              EvUnexpectedCall (name fc)] |}.
Proof.
  intros H Hd. unfold Loop.iteration, Loop.emit; cbn [chat result loopCount data out].
  rewrite H, Hd. cbn [chat result loopCount data out].
  rewrite <- app_assoc. reflexivity.
Qed.

Lemma iteration_thrown st fc rest e evs :
  functionCalls (result st) = Some (fc :: rest) ->
  dispatch (Datatypes.S (loopCount st)) (data st) fc = Thrown e evs ->
  iteration st =
    Raise e {| chat := chat st; result := result st;
               loopCount := Datatypes.S (loopCount st); data := data st;
               out := out st ++ [EvRequestedCall (Datatypes.S (loopCount st)) (name fc)]
                             ++ evs |}.
Proof.
  intros H Hd. unfold Loop.iteration, Loop.emit; cbn [chat result loopCount data out].
  rewrite H, Hd. cbn [chat result loopCount data out].
  rewrite <- app_assoc. reflexivity.
Qed.

Lemma while_loop_step fuel st :
  loopCount st < MAX_LOOPS ->
  while_loop (Datatypes.S fuel) st =
    match iteration st with
    | Next st' => while_loop fuel st'
    | Exit st' => Finished st'
    | Raise e st' => Raised e st'
    end.
Proof.
  intros H. cbn [Loop.while_loop]. apply Nat.ltb_lt in H. rewrite H. reflexivity.
Qed.

Lemma run_step userQuery (d0 : S) chat0 st0 st :
  start client userQuery d0 = (chat0, Normal st0) ->
  at_loop_head st0 st ->
  run client dispatch userQuery d0 =
    finish match iteration st with
           | Next st' => while_loop (MAX_LOOPS - loopCount st) st'
           | Exit st' => Finished st'
           | Raise e st' => Raised e st'
           end.
Proof.
  intros Hs Hh. destruct (run_from_head _ _ _ _ _ Hs Hh) as [Hlt ->].
  replace (Datatypes.S MAX_LOOPS - loopCount st)
    with (Datatypes.S (MAX_LOOPS - loopCount st)) by lia.
  rewrite (while_loop_step _ _ Hlt). reflexivity.
Qed.

Lemma after_loop_early (st : LoopState S) :
  loopCount st < MAX_LOOPS -> after_loop st = ([], None).
Proof.
  intros H. unfold after_loop. apply Nat.leb_gt in H. rewrite H. reflexivity.
Qed.

(** At the bound: the report, then the text of the last reply or the
    exception of reading it. *)
Lemma after_loop_late (st : LoopState S) :
  MAX_LOOPS <= loopCount st ->
  after_loop st =
    match text (result st) with
    | Normal t =>
        (EvExitedMaxIterations :: (if String.eqb t "" then [] else [EvLastText t]), None)
    | Throw e => ([EvExitedMaxIterations], Some e)
    end.
Proof.
  intros H. unfold after_loop. apply Nat.leb_le in H. rewrite H. reflexivity.
Qed.

(** A response without tool-call ends the run in the pass that reads it:
    the text is logged, nothing is sent and no handler runs; only the report
    after the loop may follow. *)
Lemma run_no_call userQuery (d0 : S) chat0 st0 st t :
  start client userQuery d0 = (chat0, Normal st0) ->
  at_loop_head st0 st ->
  functionCalls (result st) = None \/ functionCalls (result st) = Some [] ->
  text (result st) = Normal t ->
  let r := run client dispatch userQuery d0 in
  outcome r = Completed /\ session r = chat st /\
  count r = Datatypes.S (loopCount st) /\
  exists report,
    events r = out st ++ [EvFinalResponse t] ++ report /\
    (forall e, In e report -> e = EvExitedMaxIterations \/ e = EvLastText t) /\
    (Datatypes.S (loopCount st) < MAX_LOOPS -> report = []).
Proof.
  intros Hs Hh Hc Ht. cbv zeta.
  rewrite (run_step _ _ _ _ _ Hs Hh), (iteration_no_call _ _ Hc Ht).
  unfold finish, after_loop. cbn [chat result loopCount data out].
  destruct (MAX_LOOPS <=? Datatypes.S (loopCount st))%nat eqn:E; cbn [fst snd].
  - rewrite Ht. cbn [fst snd outcome session count events].
    repeat split. eexists. split; [rewrite <- app_assoc; reflexivity|].
    split.
    + intros e He. destruct (String.eqb t ""); cbn in He;
        repeat (destruct He as [He|He]; [subst; auto|]); contradiction.
    + intros Hlt. apply Nat.leb_le in E. lia.
  - cbn [outcome session count events].
    repeat split. exists []. split; [rewrite <- app_assoc; reflexivity|].
    split; [intros e []|reflexivity].
Qed.

(** A tool-call whose name no branch matches ends the run in the same way,
    with the warning as the last word of the loop: no handler runs and
    nothing is sent.  Before the fifth pass nothing follows the warning; in
    the fifth pass the report follows, and then the text of the reply that
    asked for the tool, or the exception of reading it. *)
Lemma run_unexpected userQuery (d0 : S) chat0 st0 st fc rest :
  start client userQuery d0 = (chat0, Normal st0) ->
  at_loop_head st0 st ->
  functionCalls (result st) = Some (fc :: rest) ->
  dispatch (Datatypes.S (loopCount st)) (data st) fc = Unexpected ->
  let r := run client dispatch userQuery d0 in
  session r = chat st /\
  tool_calls (events r) = tool_calls (out st) /\
  sends (events r) = sends (out st) /\
  exists report,
    events r = out st ++ [EvRequestedCall (Datatypes.S (loopCount st)) (name fc);
                          EvUnexpectedCall (name fc)] ++ report /\
    (Datatypes.S (loopCount st) < MAX_LOOPS -> report = [] /\ outcome r = Completed) /\
    (MAX_LOOPS <= Datatypes.S (loopCount st) ->
     match text (result st) with
     | Normal t =>
         outcome r = Completed /\
         report = EvExitedMaxIterations ::
                    (if String.eqb t "" then [] else [EvLastText t])
     | Throw e =>
         outcome r = Failed e /\ report = [EvExitedMaxIterations; EvCaught e]
     end).
Proof.
  intros Hs Hh Hc Hd. cbv zeta.
  rewrite (run_step _ _ _ _ _ Hs Hh), (iteration_unexpected _ _ _ Hc Hd).
  match goal with |- context [finish (Finished ?x)] => set (st' := x) end.
  destruct (finish_Finished st') as (Ft & Fs & _ & Fse & _). cbv zeta in *.
  split; [exact Fse|].
  split; [rewrite Ft; subst st'; cbn [out]; rewrite tool_calls_app; cbn;
          apply app_nil_r|].
  split; [rewrite Fs; subst st'; cbn [out]; rewrite sends_app; cbn;
          apply app_nil_r|].
  unfold finish.
  destruct (Nat.lt_ge_cases (Datatypes.S (loopCount st)) MAX_LOOPS) as [Hlt|Hge].
  - rewrite (after_loop_early st') by exact Hlt. cbn [fst snd events outcome].
    exists []. subst st'; cbn [out]. split; [rewrite <- ?app_assoc; reflexivity|].
    split; [auto|intros H; lia].
  - rewrite (after_loop_late st') by exact Hge. subst st'; cbn [result out].
    destruct (text (result st)) as [t|e]; cbn [fst snd events outcome].
    + eexists. split; [rewrite <- app_assoc; reflexivity|].
      split; [intros H; lia|auto].
    + eexists. split; [rewrite <- !app_assoc; reflexivity|].
      split; [intros H; lia|auto].
Qed.

(** An exception thrown by the dispatch ends the run in the [catch]
    block. *)
Lemma run_thrown userQuery (d0 : S) chat0 st0 st fc rest e evs :
  start client userQuery d0 = (chat0, Normal st0) ->
  at_loop_head st0 st ->
  functionCalls (result st) = Some (fc :: rest) ->
  dispatch (Datatypes.S (loopCount st)) (data st) fc = Thrown e evs ->
  let r := run client dispatch userQuery d0 in
  outcome r = Failed e /\ session r = chat st /\
  events r = out st ++ [EvRequestedCall (Datatypes.S (loopCount st)) (name fc)]
                    ++ evs ++ [EvCaught e].
Proof.
  intros Hs Hh Hc Hd. cbv zeta.
  rewrite (run_step _ _ _ _ _ Hs Hh), (iteration_thrown _ _ _ _ _ Hc Hd).
  cbn [finish outcome session count events chat out loopCount].
  repeat split. rewrite <- !app_assoc. reflexivity.
Qed.

(** The events of a pass that reads a response with a tool-call. *)
Lemma emitted_call st fc rest :
  functionCalls (result st) = Some (fc :: rest) ->
  emitted st =
    EvRequestedCall (Datatypes.S (loopCount st)) (name fc) ::
    match dispatch (Datatypes.S (loopCount st)) (data st) fc with
    | Responded v _ evs =>
        evs ++ EvSend (FunctionResponse (name fc) v) ::
        match client (chat st ++ [FunctionResponse (name fc) v]) with
        | Normal _ =>
            if (MAX_LOOPS <=? Datatypes.S (loopCount st))%nat
            then [EvMaxLoopsReached] else []
        | Throw _ => []
        end
    | Thrown _ evs => evs
    | Unexpected => [EvUnexpectedCall (name fc)]
    end.
Proof.
  intros Hc. unfold Loop.emitted.
  match goal with |- skipn _ ?l = ?x => assert (H : l = out st ++ x) end.
  { unfold Loop.iteration, Loop.emit, sendMessage, Session.append, Session.view.
    cbn [chat result loopCount data out fst snd].
    rewrite Hc.
    destruct (dispatch (Datatypes.S (loopCount st)) (data st) fc)
      as [v d evs|e evs|]; cbn [chat result loopCount data out fst snd state_of].
    - destruct (client (chat st ++ [FunctionResponse (name fc) v]));
        cbn [fst snd state_of out].
      + destruct (MAX_LOOPS <=? Datatypes.S (loopCount st))%nat;
          cbn [state_of out]; rewrite <- ?app_assoc; reflexivity.
      + rewrite <- ?app_assoc. reflexivity.
    - rewrite <- app_assoc. reflexivity.
    - rewrite <- app_assoc. reflexivity. }
  rewrite H. apply skipn_app_exact.
Qed.

End WithDispatch.

End LoopFacts.

(** ** The two dispatchers *)

Module DispatchFacts.

Import Js Sdk Client Trace Loop.
Open Scope list_scope.

Lemma settings_one_handler env userQuery :
  one_handler_per_call (Settings.dispatch env userQuery).
Proof.
  intros n d fc. unfold Settings.dispatch.
  destruct (String.eqb (name fc) "get_current_app_settings"); [cbn; auto|].
  destruct (String.eqb (name fc) "update_app_settings"); [|exact I].
  destruct d as [current|]; [|cbn; auto].
  unfold Settings.update_app_settings.
  destruct (Settings.update_app_settings_try _ _ _ _); cbn; auto.
Qed.

(** The events of the two handlers of the video assistant: the call, and
    the transactional call when the handler gets as far as its [try]. *)
Lemma timestamps_events P args model :
  exists tl,
    snd (Video.find_relevant_timestamps P args model)
    = EvToolCall "find_relevant_timestamps" [args] :: tl /\
    (tl = [] \/ exists request, tl = [EvGenerate request]).
Proof.
  unfold Video.find_relevant_timestamps.
  destruct (Get args "userQuery") as [q|e]; cbn [bind];
    [|eexists; split; [reflexivity|auto]].
  destruct (ToString P q) as [s|e]; cbn [bind];
    [|eexists; split; [reflexivity|auto]].
  destruct (Video.find_relevant_timestamps_try P q model);
    eexists; (split; [reflexivity|]); right; eexists; reflexivity.
Qed.

Lemma answer_events env args model :
  exists tl,
    snd (Video.answer_user_query env args model)
    = EvToolCall "answer_user_query" [args] :: tl /\
    (tl = [] \/ exists request, tl = [EvGenerate request]).
Proof.
  unfold Video.answer_user_query.
  destruct (Get args "userQuery") as [q|e]; cbn [bind];
    [|eexists; split; [reflexivity|auto]].
  destruct (Get args "relevantTimestamps") as [ts|e]; cbn [bind];
    [|eexists; split; [reflexivity|auto]].
  destruct (ToString (Video.platform env) q) as [s|e]; cbn [bind];
    [|eexists; split; [reflexivity|auto]].
  destruct (join (Video.platform env) ", " ts) as [j|e]; cbn [bind];
    [|eexists; split; [reflexivity|auto]].
  destruct (Video.loadImageBase64 env) as [img|e]; cbn [bind];
    [|eexists; split; [reflexivity|auto]].
  destruct (Video.answer_user_query_try model _);
    eexists; (split; [reflexivity|]); right; eexists; reflexivity.
Qed.

(** What the dispatcher of the video assistant emits for a registered
    tool: the call with the arguments of the request, and at most the
    transactional call after it. *)
Lemma video_dispatch_events env n d fc :
  In (name fc) Video.registered ->
  exists tl,
    (tl = [] \/ exists request, tl = [EvGenerate request]) /\
    match Video.dispatch env n d fc with
    | Responded _ _ evs | Thrown _ evs => evs = EvToolCall (name fc) [args fc] :: tl
    | Unexpected => False
    end.
Proof.
  intros Hin. unfold Video.dispatch, Video.of_handler.
  destruct (String.eqb (name fc) "find_relevant_timestamps") eqn:E1.
  - apply String.eqb_eq in E1.
    destruct (timestamps_events (Video.platform env) (args fc)
                (Video.transactionalModel env n)) as (tl & Hs & Htl).
    exists tl. split; [exact Htl|].
    destruct (fst (Video.find_relevant_timestamps _ _ _)); rewrite E1; exact Hs.
  - destruct (String.eqb (name fc) "answer_user_query") eqn:E2.
    + apply String.eqb_eq in E2.
      destruct (answer_events env (args fc) (Video.transactionalModel env n))
        as (tl & Hs & Htl).
      exists tl. split; [exact Htl|].
      destruct (fst (Video.answer_user_query _ _ _)); rewrite E2; exact Hs.
    + exfalso. cbn in Hin. destruct Hin as [H|[H|[]]]; rewrite <- H in *; discriminate.
Qed.

Lemma video_one_handler env : one_handler_per_call (Video.dispatch env).
Proof.
  intros n d fc.
  destruct (in_dec String.string_dec (name fc) Video.registered) as [Hin|Hin].
  - destruct (video_dispatch_events env n d fc Hin) as (tl & Htl & H).
    destruct (Video.dispatch env n d fc) as [v d' evs|e evs|]; [| |exact I];
      subst evs; destruct Htl as [->|[request ->]]; cbn; auto.
  - unfold Video.dispatch.
    destruct (String.eqb (name fc) "find_relevant_timestamps") eqn:E1;
      [apply String.eqb_eq in E1; exfalso; apply Hin; rewrite E1; cbn; auto|].
    destruct (String.eqb (name fc) "answer_user_query") eqn:E2;
      [apply String.eqb_eq in E2; exfalso; apply Hin; rewrite E2; cbn; auto|].
    exact I.
Qed.

Lemma settings_unexpected env userQuery n d fc :
  ~ In (name fc) Settings.registered ->
  Settings.dispatch env userQuery n d fc = Unexpected.
Proof.
  intros H. unfold Settings.dispatch.
  destruct (String.eqb (name fc) "get_current_app_settings") eqn:E1;
    [apply String.eqb_eq in E1; exfalso; apply H; rewrite E1; cbn; auto|].
  destruct (String.eqb (name fc) "update_app_settings") eqn:E2;
    [apply String.eqb_eq in E2; exfalso; apply H; rewrite E2; cbn; auto|].
  reflexivity.
Qed.

Lemma video_unexpected env n d fc :
  ~ In (name fc) Video.registered ->
  Video.dispatch env n d fc = Unexpected.
Proof.
  intros H. unfold Video.dispatch.
  destruct (String.eqb (name fc) "find_relevant_timestamps") eqn:E1;
    [apply String.eqb_eq in E1; exfalso; apply H; rewrite E1; cbn; auto|].
  destruct (String.eqb (name fc) "answer_user_query") eqn:E2;
    [apply String.eqb_eq in E2; exfalso; apply H; rewrite E2; cbn; auto|].
  reflexivity.
Qed.

(** [currentSettingsData] is set by [get_current_app_settings] and by
    nothing else. *)
Lemma settings_data_invariant env userQuery st0 st :
  data st0 = None ->
  at_loop_head (Settings.model env) (Settings.dispatch env userQuery) st0 st ->
  data st = None \/ In (EvToolCall "get_current_app_settings" []) (out st).
Proof.
  intros H0. induction 1 as [|st st' _ IH [_ Hc]]; [left; exact H0|].
  destruct (LoopFacts.iteration_Next _ _ _ st st' Hc)
    as (fc & rest & v & evs & _ & Hd & _ & _).
  pose proof (LoopFacts.iteration_out _ (Settings.model env)
                (Settings.dispatch env userQuery) st) as Ho.
  rewrite Hc in Ho. cbn [state_of] in Ho.
  destruct (LoopFacts.iteration_Next _ _ _ st st' Hc)
    as (fc' & rest' & v' & evs' & Hf' & Hd' & _ & He & _).
  right. rewrite Ho, He. apply in_or_app.
  revert Hd'. unfold Settings.dispatch.
  destruct (String.eqb (name fc') "get_current_app_settings").
  - intros E. inversion E; subst. right. cbn. auto.
  - destruct (String.eqb (name fc') "update_app_settings"); [|discriminate].
    destruct (data st) as [current|] eqn:Ed; [|discriminate].
    destruct IH as [IH|IH]; [discriminate|]. left. exact IH.
Qed.

End DispatchFacts.

(** ** The validators of the two examples without tools *)

Module ValidatorFacts.

Import Js Sdk Client.
Open Scope list_scope.

(** A payload that lacks one of the two required fields is rejected by the
    validator of the query refinement. *)
Lemma refine_missing_required P responseText o :
  JSON_parse P responseText = Some o ->
  Get o "rephrasedQuery" = Normal JUndefined \/ Get o "reason" = Normal JUndefined ->
  Refine.validate P responseText = Normal None.
Proof.
  intros Hp H. unfold Refine.validate, parse. rewrite Hp. cbn [bind].
  destruct (ToBoolean o) eqn:Ht; cbn [negb]; [|reflexivity].
  destruct H as [H|H].
  - rewrite H. reflexivity.
  - destruct (Get o "rephrasedQuery") as [q|e] eqn:Hq; cbn [bind].
    + destruct (ToBoolean q); cbn [negb]; [|reflexivity].
      rewrite H. reflexivity.
    + destruct o; cbn in Hq, H; discriminate.
Qed.

(** A payload without a non-empty [response] array is rejected by the
    validator of the classification. *)
Lemma classify_missing_required P responseText o :
  JSON_parse P responseText = Some o ->
  Get o "response" = Normal JUndefined ->
  Classify.validate P responseText = Normal None.
Proof.
  intros Hp H. unfold Classify.validate, parse. rewrite Hp. cbn [bind].
  destruct (ToBoolean o); cbn [negb]; [|reflexivity].
  rewrite H. reflexivity.
Qed.

End ValidatorFacts.

Module NavigationFacts.

Import Js Sdk Client Trace.
Open Scope list_scope.

(** The navigation assistant has no bound

    Against a model none of whose replies opens with a tool-call, the loop
    is still running after any number of passes. *)
Lemma navigation_loop_unbounded env :
  Navigation.keeps_talking (Navigation.model env) ->
  forall fuel st,
    Navigation.completedFunctionCall st = false ->
    Navigation.first_part_functionCall (Navigation.response st) = None ->
    Navigation.first_part_functionCall (Navigation.result st) = None ->
    (exists t, text (Navigation.result st) = Normal t) ->
    exists st', Navigation.while_loop env fuel st = Navigation.OutOfFuel st'.
Proof.
  intros Hk fuel.
  induction fuel as [|fuel IH]; intros st Hc Hr Hres [t Ht]; cbn [Navigation.while_loop].
  - eexists; reflexivity.
  - rewrite Hc. cbn [negb]. unfold Navigation.iteration, sendMessage. rewrite Hr, Ht.
    destruct (Hk (Session.view (Session.append (Navigation.chat st) Navigation.ok_message)))
      as (r & t' & Hm & Hf & Ht').
    rewrite Hm. cbn [fst snd].
    apply IH; cbn [Navigation.completedFunctionCall Navigation.response Navigation.result];
      eauto.
Qed.

End NavigationFacts.

(** ** The session *)

Module SessionFacts.

Import Js Sdk Client.
Open Scope list_scope.

Lemma fold_left_append turns :
  forall s, fold_left Session.append turns s = s ++ turns.
Proof.
  induction turns as [|t turns IH]; intros s; cbn [fold_left].
  - rewrite app_nil_r. reflexivity.
  - rewrite IH. unfold Session.append. rewrite <- app_assoc. reflexivity.
Qed.

Lemma session_run_grows ops :
  forall s, exists added, Session.view (Session.run s ops) = Session.view s ++ added.
Proof.
  unfold Session.run, Session.view.
  induction ops as [|o ops IH]; intros s; cbn [fold_left].
  - exists []. rewrite app_nil_r. reflexivity.
  - destruct (IH (Session.apply s o)) as [added Ha].
    destruct o as [turn|]; cbn [Session.apply] in *.
    + exists (turn :: added). rewrite Ha. unfold Session.append.
      rewrite <- app_assoc. reflexivity.
    + exists added. exact Ha.
Qed.

End SessionFacts.

(** ** The scenarios *)

Module ScenarioFacts.

Import Js Sdk Client Trace Loop.
Open Scope list_scope.

(** The second state of the usual exchange is reached by one pass from the
    first. *)
Lemma second_state_reached :
  let env := Scenarios.settings_env Scenarios.read_update_confirm
               (Scenarios.answers Scenarios.text_font_5) in
  start (Settings.model env) Scenarios.default_query None
    = ([UserText Scenarios.default_query; ModelTurn Scenarios.get_call],
       Normal (Scenarios.first_state Scenarios.get_call)) /\
  at_loop_head (Settings.model env) (Settings.dispatch env Scenarios.default_query)
    (Scenarios.first_state Scenarios.get_call) Scenarios.second_state.
Proof.
  cbv zeta. split; [reflexivity|].
  eapply head_next; [apply head_first|].
  split; [cbn; unfold MAX_LOOPS; lia | reflexivity].
Qed.

(** The examples of the specification for clamping, and the corner cases of
    the number type. *)
Example clamp_above : JsNumber.clamp 0.8 2.0 5.0 = 2.0%float.
Proof. reflexivity. Qed.

Example clamp_below : JsNumber.clamp 0.8 2.0 (-1) = 0.8%float.
Proof. reflexivity. Qed.

Example clamp_inside : JsNumber.clamp 0.8 2.0 1.25 = 1.25%float.
Proof. reflexivity. Qed.

Example clamp_nan : JsNumber.clamp 0.5 2.0 nan = nan.
Proof. reflexivity. Qed.

Example clamp_negative_zero : JsNumber.clamp 0 1 (-0) = 0%float.
Proof. reflexivity. Qed.

Example clamp_infinity : JsNumber.clamp 0 1 infinity = 1%float.
Proof. reflexivity. Qed.

(** The usual exchange: a read, an update, the confirmation. *)
Example usual_exchange :
  let r := Settings.main
             (Scenarios.settings_env Scenarios.read_update_confirm
                (Scenarios.answers Scenarios.text_font_5))
             Scenarios.default_query in
  outcome r = Completed /\ count r = 3 /\
  tool_calls (events r)
    = [ EvToolCall "get_current_app_settings" [];
        EvToolCall "update_app_settings"
          [Settings.toolArgs Scenarios.current Scenarios.default_query] ] /\
  last (events r) EvMaxLoopsReached = EvFinalResponse "Dark mode is on.".
Proof. cbv zeta. repeat split; vm_compute; reflexivity. Qed.

(** The model answers without asking for a tool. *)
Example answer_at_once :
  let r := Settings.main
             (Scenarios.settings_env Scenarios.answers_at_once Scenarios.unavailable)
             Scenarios.default_query in
  outcome r = Completed /\
  events r = [ EvSend (UserText Scenarios.default_query);
               EvFinalResponse "Hello! How can I help?" ].
Proof. cbv zeta. split; vm_compute; reflexivity. Qed.

(** The chat model fails when the first tool result is sent to it: the
    [catch] block of [main] reports the failure. *)
Example transport_failure :
  let r := Settings.main
             (Scenarios.settings_env (Scenarios.fails_from 1 [Scenarios.get_call])
                Scenarios.unavailable)
             Scenarios.default_query in
  outcome r = Failed (ClientError "fetch failed") /\ count r = 1 /\
  last (events r) EvMaxLoopsReached = EvCaught (ClientError "fetch failed").
Proof. cbv zeta. repeat split; vm_compute; reflexivity. Qed.

(** The first handler of the video assistant on a well-formed payload, on a
    payload that is [null], and when its arguments are [null] (the
    destructuring of the parameter throws before the [try] block). *)
Example timestamps_found :
  fst (Video.find_relevant_timestamps Scenarios.platform
         (JObj [("userQuery"%string, JStr "What is he wearing?")])
         (Scenarios.answers Scenarios.text_timestamps 0))
  = Normal (JObj [("relevantTimestamps"%string, JArr [JStr "0:05"; JStr "0:24"] [])]).
Proof. reflexivity. Qed.

Example timestamps_null_payload :
  fst (Video.find_relevant_timestamps Scenarios.platform
         (JObj [("userQuery"%string, JStr "What is he wearing?")])
         (Scenarios.answers Scenarios.text_null 0))
  = Normal Video.no_timestamps.
Proof. reflexivity. Qed.

Example timestamps_null_arguments :
  fst (Video.find_relevant_timestamps Scenarios.platform JNull
         (Scenarios.answers Scenarios.text_timestamps 0))
  = Throw TypeError.
Proof. reflexivity. Qed.

(** A handler of the video assistant that throws ends the run in the
    [catch] block of [main]. *)
Example video_handler_failure :
  let r := Video.main
             (Scenarios.video_env
                (Scenarios.scripted [Scenarios.call_response "answer_user_query" JNull]
                   (Scenarios.text_response "unreachable"))
                (Scenarios.answers Scenarios.text_timestamps)) in
  outcome r = Failed TypeError /\
  tool_calls (events r) = [EvToolCall "answer_user_query" [JNull]].
Proof. cbv zeta. split; vm_compute; reflexivity. Qed.

(** The font size of the other example of the specification: -1 comes back
    as 0.8. *)
Example font_minus_1 :
  Get (fst (Settings.update_app_settings Scenarios.platform Scenarios.current
              Scenarios.default_query (Scenarios.answers Scenarios.text_font_minus_1 0)))
      "fontSizeFactor"
  = Normal (JNum 0.8).
Proof. reflexivity. Qed.

End ScenarioFacts.

(* ================================================================== *)
(** * Part III.  The properties of the specification                   *)
(* ================================================================== *)

Import Js Sdk Client Trace Loop.
Open Scope list_scope.

(** C1, as the code has it.  In the two bounded loops (settings assistant
    and video assistant) [loopCount] grows by one with every pass and never
    exceeds [MAX_LOOPS = 5]; every run ends with its exceptions caught, after
    at most five dispatches and at most one round trip per dispatch besides
    the first message.  When all five passes dispatch a tool and nothing
    throws, the result of the fifth dispatch is still sent to the model (a
    round trip after the fifth dispatch); then the loop stops, reports the
    abort and shows the text of that last reply when it is not empty.  The
    loop of the navigation assistant has no counter and no bound: for as
    long as the replies of the model can be read and none of them opens with
    a tool-call, it is still running after any number of passes. *)
Theorem C1_loop_bound :
  MAX_LOOPS = 5 /\
  (forall (S : Type) client (dispatch : nat -> S -> FunctionCall -> Dispatch S) st st',
     pass client dispatch st st' ->
     loopCount st' = Datatypes.S (loopCount st) /\ loopCount st' <= MAX_LOOPS) /\
  (forall env userQuery,
     let r := Settings.main env userQuery in
     outcome r <> Diverged /\ count r <= MAX_LOOPS /\
     List.length (tool_calls (events r)) <= count r /\
     List.length (sends (events r)) <= 1 + List.length (tool_calls (events r))) /\
  (forall env,
     let r := Video.main env in
     outcome r <> Diverged /\ count r <= MAX_LOOPS /\
     List.length (tool_calls (events r)) <= count r /\
     List.length (sends (events r)) <= 1 + List.length (tool_calls (events r))) /\
  (forall env userQuery,
     let r := Settings.main env userQuery in
     outcome r = Completed ->
     List.length (tool_calls (events r)) = MAX_LOOPS ->
     exists pre fc v reply t,
       text reply = Normal t /\
       events r = pre ++ [EvSend (FunctionResponse (name fc) v);
                          EvMaxLoopsReached; EvExitedMaxIterations]
                      ++ (if String.eqb t "" then [] else [EvLastText t]) /\
       List.length (tool_calls pre) = MAX_LOOPS /\
       List.length (sends pre) = MAX_LOOPS /\
       count r = MAX_LOOPS /\
       exists s, session r = s ++ [FunctionResponse (name fc) v; ModelTurn reply]) /\
  (forall env,
     let r := Video.main env in
     outcome r = Completed ->
     List.length (tool_calls (events r)) = MAX_LOOPS ->
     exists pre fc v reply t,
       text reply = Normal t /\
       events r = pre ++ [EvSend (FunctionResponse (name fc) v);
                          EvMaxLoopsReached; EvExitedMaxIterations]
                      ++ (if String.eqb t "" then [] else [EvLastText t]) /\
       List.length (tool_calls pre) = MAX_LOOPS /\
       List.length (sends pre) = MAX_LOOPS /\
       count r = MAX_LOOPS /\
       exists s, session r = s ++ [FunctionResponse (name fc) v; ModelTurn reply]) /\
  (forall env chat0 r t fuel,
     Navigation.keeps_talking (Navigation.model env) ->
     Navigation.first_part_functionCall r = None ->
     text r = Normal t ->
     exists st,
       Navigation.while_loop env fuel (Navigation.enter chat0 r) = Navigation.OutOfFuel st).
Proof.
  split; [reflexivity|].
  split; [intros S client dispatch st st'; apply LoopFacts.pass_count|].
  split; [intros env q; apply LoopFacts.run_bounded, DispatchFacts.settings_one_handler|].
  split; [intros env; apply LoopFacts.run_bounded, DispatchFacts.video_one_handler|].
  split; [|split].
  - intros env q. apply LoopFacts.run_reaches_bound, DispatchFacts.settings_one_handler.
  - intros env. apply LoopFacts.run_reaches_bound, DispatchFacts.video_one_handler.
  - intros env chat0 r t fuel Hk Hr Ht.
    apply NavigationFacts.navigation_loop_unbounded;
      cbn [Navigation.enter Navigation.completedFunctionCall Navigation.response
           Navigation.result]; eauto.
Qed.

(** C1 at six consecutive tool-call rounds: the run is complete, it made
    five dispatches, and the sixth [sendMessage] follows the fifth of them.
    And the navigation assistant against a model that only ever asks back:
    it has not left its loop after a thousand passes. *)
Lemma C1_loop_bound_witness :
  let r := Settings.main
             (Scenarios.settings_env Scenarios.six_calls
                (Scenarios.answers Scenarios.text_font_5))
             Scenarios.default_query in
  (outcome r = Completed /\
   List.length (tool_calls (events r)) = MAX_LOOPS /\
   exists pre fc v reply t,
     text reply = Normal t /\
     events r = pre ++ [EvSend (FunctionResponse (name fc) v);
                        EvMaxLoopsReached; EvExitedMaxIterations]
                    ++ (if String.eqb t "" then [] else [EvLastText t]) /\
     List.length (tool_calls pre) = MAX_LOOPS /\
     List.length (sends pre) = MAX_LOOPS /\
     count r = MAX_LOOPS /\
     exists s, session r = s ++ [FunctionResponse (name fc) v; ModelTurn reply]) /\
  (Navigation.keeps_talking Scenarios.never_calls /\
   exists st,
     Navigation.while_loop Scenarios.navigation_env 1000
       (Navigation.enter [] (Scenarios.text_response "Where would you like to go?"))
     = Navigation.OutOfFuel st).
Proof.
  cbv zeta. split.
  - split; [reflexivity|].
    split; [reflexivity|].
    apply (proj1 (proj2 (proj2 (proj2 (proj2 C1_loop_bound))))); reflexivity.
  - assert (Hk : Navigation.keeps_talking Scenarios.never_calls).
    { intros view. eexists _, _. repeat split; reflexivity. }
    split; [exact Hk|].
    exact (proj2 (proj2 (proj2 (proj2 (proj2 (proj2 C1_loop_bound)))))
             Scenarios.navigation_env []
             (Scenarios.text_response "Where would you like to go?")
             "Where would you like to go?"%string 1000 Hk eq_refl eq_refl).
Defined.

(** C1 as stated fails: with six consecutive tool-call rounds the loop
    makes a model round trip after its fifth dispatch. *)
Lemma C1_counterexample :
  ~ no_round_trip_after 5
      (events (Settings.main
                 (Scenarios.settings_env Scenarios.six_calls
                    (Scenarios.answers Scenarios.text_font_5))
                 Scenarios.default_query)).
Proof.
  intros H.
  pose (tr := events (Settings.main
                 (Scenarios.settings_env Scenarios.six_calls
                    (Scenarios.answers Scenarios.text_font_5))
                 Scenarios.default_query)).
  specialize (H (firstn 15 tr) (nth 15 tr EvMaxLoopsReached) (skipn 16 tr)).
  assert (E : is_send (nth 15 tr EvMaxLoopsReached) = true) by reflexivity.
  rewrite H in E; [discriminate | reflexivity | reflexivity].
Qed.



(** C3, at the input on which the code departs from it.  The model asks for
    a tool in four rounds and gives its final answer in the fifth: the loop
    logs the answer and leaves at once, and the code after the loop then
    reports the run as aborted by the iteration bound and shows the answer a
    second time. *)
Theorem C3_final_answer_in_fifth_round :
  let r := Settings.main
             (Scenarios.settings_env Scenarios.answer_in_round_5
                (Scenarios.answers Scenarios.text_font_5))
             Scenarios.default_query in
  functionCalls (Scenarios.text_response "All set.") = Some [] /\
  outcome r = Completed /\ count r = MAX_LOOPS /\
  List.length (tool_calls (events r)) = 4 /\
  exists pre,
    events r = pre ++ [EvFinalResponse "All set.";
                       EvExitedMaxIterations; EvLastText "All set."].
Proof.
  cbv zeta. split; [reflexivity|].
  split; [reflexivity|]. split; [reflexivity|]. split; [reflexivity|].
  exists (firstn 13 (events (Settings.main
             (Scenarios.settings_env Scenarios.answer_in_round_5
                (Scenarios.answers Scenarios.text_font_5))
             Scenarios.default_query))).
  vm_compute. reflexivity.
Qed.

(** C4, as the code has it.  In the video assistant a registered tool is
    run once per pass with the arguments of the request.  In the settings
    assistant [get_current_app_settings] is run once, without arguments, and
    [update_app_settings] is run once with the settings stored by the last
    read and the text the user typed, whatever arguments the request
    carries; when no settings are stored it is not run at all. *)
Theorem C4_handler_arguments :
  (forall env st fc rest,
     functionCalls (result st) = Some (fc :: rest) ->
     In (name fc) Video.registered ->
     tool_calls (emitted (Video.model env) (Video.dispatch env) st)
       = [EvToolCall (name fc) [args fc]]) /\
  (forall env userQuery st fc rest,
     functionCalls (result st) = Some (fc :: rest) ->
     name fc = "get_current_app_settings"%string ->
     tool_calls (emitted (Settings.model env) (Settings.dispatch env userQuery) st)
       = [EvToolCall "get_current_app_settings" []]) /\
  (forall env userQuery st fc rest current,
     functionCalls (result st) = Some (fc :: rest) ->
     name fc = "update_app_settings"%string ->
     data st = Some current ->
     tool_calls (emitted (Settings.model env) (Settings.dispatch env userQuery) st)
       = [EvToolCall "update_app_settings" [Settings.toolArgs current userQuery]]) /\
  (forall env userQuery st fc rest,
     functionCalls (result st) = Some (fc :: rest) ->
     name fc = "update_app_settings"%string ->
     data st = None ->
     tool_calls (emitted (Settings.model env) (Settings.dispatch env userQuery) st) = []).
Proof.
  split; [|split; [|split]].
  - intros env st fc rest Hc Hin.
    rewrite (LoopFacts.emitted_call _ _ _ st fc rest Hc).
    destruct (DispatchFacts.video_dispatch_events env (Datatypes.S (loopCount st))
                (data st) fc Hin) as (tl & Htl & H).
    destruct (Video.dispatch env _ _ fc) as [v d evs|e evs|]; [| |contradiction];
      subst evs.
    + destruct (Video.model env _) as [r|e1]; [destruct (MAX_LOOPS <=? _)%nat|];
        destruct Htl as [->|[request ->]]; reflexivity.
    + destruct Htl as [->|[request ->]]; reflexivity.
  - intros env q st fc rest Hc Hn.
    rewrite (LoopFacts.emitted_call _ _ _ st fc rest Hc).
    unfold Settings.dispatch. rewrite Hn. cbn [String.eqb Ascii.eqb Bool.eqb].
    cbn [Settings.get_current_app_settings fst snd].
    destruct (Settings.model env _) as [r|e1];
      [destruct (MAX_LOOPS <=? _)%nat|]; reflexivity.
  - intros env q st fc rest current Hc Hn Hd.
    rewrite (LoopFacts.emitted_call _ _ _ st fc rest Hc).
    unfold Settings.dispatch. rewrite Hn, Hd.
    change (String.eqb "update_app_settings" "get_current_app_settings") with false.
    change (String.eqb "update_app_settings" "update_app_settings") with true.
    cbv iota. unfold Settings.update_app_settings.
    destruct (Settings.update_app_settings_try _ _ _ _) as [p|e0];
      (destruct (Settings.model env _) as [r|e1];
       [destruct (MAX_LOOPS <=? _)%nat|]); reflexivity.
  - intros env q st fc rest Hc Hn Hd.
    rewrite (LoopFacts.emitted_call _ _ _ st fc rest Hc).
    unfold Settings.dispatch. rewrite Hn, Hd. reflexivity.
Qed.

(** C4 in the usual exchange: the update handler receives the stored
    settings and the text the user typed. *)
Lemma C4_handler_arguments_witness :
  let env := Scenarios.settings_env Scenarios.read_update_confirm
               (Scenarios.answers Scenarios.text_font_5) in
  tool_calls (emitted (Settings.model env)
                (Settings.dispatch env Scenarios.default_query) Scenarios.second_state)
    = [EvToolCall "update_app_settings"
         [Settings.toolArgs Scenarios.current Scenarios.default_query]].
Proof.
  cbv zeta.
  apply (proj1 (proj2 (proj2 C4_handler_arguments))
           (Scenarios.settings_env Scenarios.read_update_confirm
              (Scenarios.answers Scenarios.text_font_5))
           Scenarios.default_query Scenarios.second_state
           {| name := "update_app_settings"; args := Scenarios.update_args |} []
           Scenarios.current); reflexivity.
Defined.

(** C4 as stated fails: in the usual exchange the model asks for the update
    with arguments of its own, and the handler is run with other ones. *)
Lemma C4_counterexample :
  ~ dispatched_verbatim
      (Settings.main
         (Scenarios.settings_env Scenarios.read_update_confirm
            (Scenarios.answers Scenarios.text_font_5))
         Scenarios.default_query).
Proof.
  intros H.
  specialize (H "update_app_settings"%string
                [Settings.toolArgs Scenarios.current Scenarios.default_query]).
  destruct H as (fc & (r0 & rest & Hin & Hfc) & Hnm & Ha).
  { apply (nth_error_In _ 5). reflexivity. }
  remember (session _) as s eqn:Es in Hin. vm_compute in Es. subst s.
  repeat (destruct Hin as [Hin|Hin]; [try discriminate|]); try contradiction;
    inversion Hin; subst r0; clear Hin; vm_compute in Hfc;
    inversion Hfc; subst fc; clear Hfc.
  - discriminate Hnm.
  - vm_compute in Ha. discriminate Ha.
Qed.




(** C6, at the input on which the code departs from it.  The transactional
    call returns an object that holds [darkMode] and none of the other seven
    required fields: [update_app_settings] returns that object with [NaN] in
    the three clamped fields, not the settings it was given.  The validator
    of the query refinement example, given a payload without its required
    [reason], does fall back to [null]. *)
Theorem C6_missing_required_field :
  let proposed :=
    fst (Settings.update_app_settings Scenarios.platform Scenarios.current
           Scenarios.default_query (Scenarios.answers Scenarios.text_dark_only 0)) in
  JSON_parse Scenarios.platform Scenarios.text_dark_only
    = Some (JObj [("darkMode"%string, JBool true)]) /\
  proposed = JObj [ ("darkMode"%string, JBool true);
                    ("fontSizeFactor"%string, JNum nan);
                    ("notificationVolume"%string, JNum nan);
                    ("textToSpeechRate"%string, JNum nan) ] /\
  proposed <> Settings.to_js Scenarios.current /\
  Refine.refineQueryWithContext Scenarios.platform
    (Scenarios.answers Scenarios.text_only_query 0) Scenarios.default_query = None.
Proof.
  cbv zeta. split; [reflexivity|]. split; [reflexivity|]. split; [|reflexivity].
  vm_compute. discriminate.
Qed.



(** C8, as the code has it.  A tool-call whose name is not registered ends
    the loop in the pass that reads it: the warning naming the tool is
    logged, no handler runs, nothing is sent to the model and the call is not
    tried again.  No failure is raised for it: before the fifth pass the
    [try] block runs to its end with the warning as the last word; in the
    fifth pass the abort report follows, and the text of the reply (the
    [catch] block runs only if that text cannot be read). *)
Theorem C8_unknown_tool_is_terminal :
  (forall env userQuery chat0 st0 st fc rest,
     start (Settings.model env) userQuery None = (chat0, Normal st0) ->
     at_loop_head (Settings.model env) (Settings.dispatch env userQuery) st0 st ->
     functionCalls (result st) = Some (fc :: rest) ->
     ~ In (name fc) Settings.registered ->
     let r := Settings.main env userQuery in
     session r = chat st /\
     tool_calls (events r) = tool_calls (out st) /\
     sends (events r) = sends (out st) /\
     exists report,
       events r = out st ++ [EvRequestedCall (Datatypes.S (loopCount st)) (name fc);
                             EvUnexpectedCall (name fc)] ++ report /\
       (Datatypes.S (loopCount st) < MAX_LOOPS ->
        report = [] /\ outcome r = Completed) /\
       (MAX_LOOPS <= Datatypes.S (loopCount st) ->
        match text (result st) with
        | Normal t =>
            outcome r = Completed /\
            report = EvExitedMaxIterations ::
                       (if String.eqb t "" then [] else [EvLastText t])
        | Throw e =>
            outcome r = Failed e /\ report = [EvExitedMaxIterations; EvCaught e]
        end)) /\
  (forall env chat0 st0 st fc rest,
     start (Video.model env) Video.userQuery tt = (chat0, Normal st0) ->
     at_loop_head (Video.model env) (Video.dispatch env) st0 st ->
     functionCalls (result st) = Some (fc :: rest) ->
     ~ In (name fc) Video.registered ->
     let r := Video.main env in
     session r = chat st /\
     tool_calls (events r) = tool_calls (out st) /\
     sends (events r) = sends (out st) /\
     exists report,
       events r = out st ++ [EvRequestedCall (Datatypes.S (loopCount st)) (name fc);
                             EvUnexpectedCall (name fc)] ++ report /\
       (Datatypes.S (loopCount st) < MAX_LOOPS ->
        report = [] /\ outcome r = Completed) /\
       (MAX_LOOPS <= Datatypes.S (loopCount st) ->
        match text (result st) with
        | Normal t =>
            outcome r = Completed /\
            report = EvExitedMaxIterations ::
                       (if String.eqb t "" then [] else [EvLastText t])
        | Throw e =>
            outcome r = Failed e /\ report = [EvExitedMaxIterations; EvCaught e]
        end)).
Proof.
  split.
  - intros env q chat0 st0 st fc rest Hs Hh Hc Hn.
    apply (LoopFacts.run_unexpected _ _ _ q None chat0 st0 st fc rest Hs Hh Hc).
    apply DispatchFacts.settings_unexpected, Hn.
  - intros env chat0 st0 st fc rest Hs Hh Hc Hn.
    apply (LoopFacts.run_unexpected _ _ _ Video.userQuery tt chat0 st0 st fc rest Hs Hh Hc).
    apply DispatchFacts.video_unexpected, Hn.
Qed.

(** C8 when the first reply of the model names an undeclared tool. *)
Lemma C8_unknown_tool_is_terminal_witness :
  let r := Settings.main
             (Scenarios.settings_env Scenarios.unknown_first Scenarios.unavailable)
             Scenarios.default_query in
  outcome r = Completed /\
  events r = [EvSend (UserText Scenarios.default_query);
              EvRequestedCall 1 "reset_all_settings";
              EvUnexpectedCall "reset_all_settings"].
Proof.
  cbv zeta.
  pose (env := Scenarios.settings_env Scenarios.unknown_first Scenarios.unavailable).
  pose (s := start (Settings.model env) Scenarios.default_query
               (@None Settings.AppSettings)).
  assert (Hs : s = (fst s, Normal
                 {| chat := fst s;
                    result := Scenarios.call_response "reset_all_settings" Scenarios.no_args;
                    loopCount := 0; data := None;
                    out := [EvSend (UserText Scenarios.default_query)] |}))
    by reflexivity.
  destruct (proj1 C8_unknown_tool_is_terminal env Scenarios.default_query _ _ _
              Scenarios.unknown_call [] Hs (head_first _ _ _ _) eq_refl)
    as (_ & _ & _ & report & He & Hr & _).
  - cbn. intros [H|[H|[]]]; discriminate.
  - destruct (Hr ltac:(cbn; unfold MAX_LOOPS; lia)) as [Hrep Ho].
    split; [exact Ho|].
    etransitivity; [exact He|]. rewrite Hrep. reflexivity.
Defined.

(** C8 as stated fails: the run in which the first reply names an
    undeclared tool surfaces no failure; it ends as a run does after a final
    answer. *)
Lemma C8_counterexample :
  ~ LoopMore.explicit_failure
      (Settings.main
         (Scenarios.settings_env Scenarios.unknown_first Scenarios.unavailable)
         Scenarios.default_query).
Proof.
  intros (e & Ho & _). vm_compute in Ho. discriminate Ho.
Qed.

(** C9.  Appending the turns [T1..Tn] to a new session and reading the view
    gives exactly [T1..Tn] in that order; whatever operations are applied to
    a session, the turns it held stay where they were, as they were; and the
    loops themselves touch the session by appending only. *)
Theorem C9_session_order :
  (forall turns,
     Session.view (fold_left Session.append turns Session.empty) = turns) /\
  (forall s ops,
     exists added, Session.view (Session.run s ops) = Session.view s ++ added) /\
  (forall client chat msg,
     exists added,
       Session.view (fst (sendMessage client chat msg)) = Session.view chat ++ msg :: added) /\
  (forall (S : Type) client (dispatch : nat -> S -> FunctionCall -> Dispatch S) st,
     exists added,
       Session.view (chat (state_of (iteration client dispatch st)))
         = Session.view (chat st) ++ added).
Proof.
  split; [|split; [|split]].
  - intros turns. rewrite SessionFacts.fold_left_append. reflexivity.
  - intros s ops. apply SessionFacts.session_run_grows.
  - intros client c msg. unfold sendMessage, Session.append, Session.view.
    destruct (client (c ++ [msg])) as [r|e]; cbn [fst].
    + exists [ModelTurn r]. rewrite <- app_assoc. reflexivity.
    + exists []. reflexivity.
  - intros S client dispatch st. apply LoopFacts.iteration_chat.
Qed.

(** C10.  When the model asks for [update_app_settings] and no
    [get_current_app_settings] has run in the interaction, the loop throws
    the error of its guard: the handler is not entered, nothing is sent, and
    the run ends in the [catch] block. *)
Theorem C10_update_before_read_throws env userQuery chat0 st0 st fc rest :
  start (Settings.model env) userQuery None = (chat0, Normal st0) ->
  at_loop_head (Settings.model env) (Settings.dispatch env userQuery) st0 st ->
  ~ In (EvToolCall "get_current_app_settings" []) (out st) ->
  functionCalls (result st) = Some (fc :: rest) ->
  name fc = "update_app_settings"%string ->
  let r := Settings.main env userQuery in
  outcome r = Failed (Error Settings.guard_message) /\
  session r = chat st /\
  events r = out st ++ [EvRequestedCall (Datatypes.S (loopCount st)) "update_app_settings";
                        EvCaught (Error Settings.guard_message)] /\
  tool_calls (events r) = tool_calls (out st) /\
  sends (events r) = sends (out st).
Proof.
  intros Hs Hh Hno Hc Hn.
  destruct (LoopFacts.start_state _ _ _ _ _ _ Hs) as (_ & _ & Hd0 & _).
  destruct (DispatchFacts.settings_data_invariant env userQuery st0 st Hd0 Hh)
    as [Hd|Hin]; [|contradiction].
  assert (Hdisp : Settings.dispatch env userQuery (Datatypes.S (loopCount st)) (data st) fc
                  = Thrown (Error Settings.guard_message) []).
  { unfold Settings.dispatch. rewrite Hn, Hd. reflexivity. }
  destruct (LoopFacts.run_thrown _ _ _ userQuery None chat0 st0 st fc rest _ _ Hs Hh Hc Hdisp)
    as (Ho & Hse & He).
  cbv zeta. unfold Settings.main. rewrite Hn in He. cbn [app] in He.
  rewrite Ho, Hse, He.
  rewrite LoopFacts.tool_calls_app, LoopFacts.sends_app. cbn.
  rewrite !app_nil_r. auto.
Qed.

(** C10 when the first reply of the model already asks for the update. *)
Lemma C10_update_before_read_throws_witness :
  let r := Settings.main
             (Scenarios.settings_env Scenarios.update_first
                (Scenarios.answers Scenarios.text_font_5))
             Scenarios.default_query in
  outcome r = Failed (Error Settings.guard_message) /\
  tool_calls (events r) = [].
Proof.
  cbv zeta.
  pose (env := Scenarios.settings_env Scenarios.update_first
                 (Scenarios.answers Scenarios.text_font_5)).
  pose (s := start (Settings.model env) Scenarios.default_query
               (@None Settings.AppSettings)).
  assert (Hs : s = (fst s, Normal
                 {| chat := fst s; result := Scenarios.update_call;
                    loopCount := 0; data := None;
                    out := [EvSend (UserText Scenarios.default_query)] |}))
    by reflexivity.
  destruct (C10_update_before_read_throws env Scenarios.default_query _ _ _
              {| name := "update_app_settings"; args := Scenarios.update_args |} []
              Hs (head_first _ _ _ _))
    as (Ho & _ & _ & Ht & _).
  - cbn. intros [H|[]]. discriminate.
  - reflexivity.
  - reflexivity.
  - split; [exact Ho | exact Ht].
Defined.

(* ================================================================== *)
(** * Part IV.  Further properties of the code                         *)
(* ================================================================== *)

(** ** Clamping *)

Module ClampFacts.

Import JsNumber JsNumberFacts.
Open Scope float_scope.

(** [clamp] decided by the two comparisons. *)
Lemma clamp_compare lo hi v :
  declared_range lo hi = true ->
  clamp lo hi v =
    match SFcompare (Prim2SF v) (Prim2SF hi) with
    | None => nan
    | Some Gt => hi
    | _ => match SFcompare (Prim2SF v) (Prim2SF lo) with
           | None => nan
           | Some Gt => v
           | _ => lo
           end
    end.
Proof.
  intros Hr. destruct (declared_range_inv _ _ Hr) as (Hlo & Hhi & Hlt).
  unfold clamp. rewrite (Math_min_compare hi v Hhi).
  assert (Hgt : SFcompare (Prim2SF hi) (Prim2SF lo) = Some Gt)
    by (rewrite SFcompare_antisym, Hlt; reflexivity).
  destruct (SFcompare (Prim2SF v) (Prim2SF hi)) as [[| |]|].
  - apply Math_max_compare, Hlo.
  - apply Math_max_compare, Hlo.
  - rewrite (Math_max_compare lo hi Hlo), Hgt. reflexivity.
  - apply Math_max_nan, Hlo.
Qed.

Lemma compare_self_bound c :
  nonneg_finite (Prim2SF c) = true -> SFcompare (Prim2SF c) (Prim2SF c) = Some Eq.
Proof.
  intros H. apply SFcompare_refl. intros E. rewrite E in H. discriminate.
Qed.

Lemma compare_nan c : SFcompare (Prim2SF nan) c = None.
Proof. reflexivity. Qed.

(** The value [clamp] returns is one of four, each with its place relative
    to the bounds. *)
Lemma clamp_result lo hi v :
  declared_range lo hi = true ->
  let r := clamp lo hi v in
  (r <? lo) = false /\ (hi <? r) = false /\ clamp lo hi r = r.
Proof.
  intros Hr. cbv zeta.
  destruct (declared_range_inv _ _ Hr) as (Hlo & Hhi & Hlt).
  assert (Hgt : SFcompare (Prim2SF hi) (Prim2SF lo) = Some Gt)
    by (rewrite SFcompare_antisym, Hlt; reflexivity).
  pose proof (compare_self_bound lo Hlo) as Ell.
  pose proof (compare_self_bound hi Hhi) as Ehh.
  rewrite (clamp_compare lo hi v Hr).
  destruct (SFcompare (Prim2SF v) (Prim2SF hi)) as [[| |]|] eqn:Chi;
    [ destruct (SFcompare (Prim2SF v) (Prim2SF lo)) as [[| |]|] eqn:Clo
    | destruct (SFcompare (Prim2SF v) (Prim2SF lo)) as [[| |]|] eqn:Clo
    | | ];
    rewrite ?(clamp_compare lo hi lo Hr), ?(clamp_compare lo hi hi Hr),
            ?(clamp_compare lo hi v Hr), ?(clamp_compare lo hi nan Hr);
    rewrite ?(ltb_compare lo lo), ?(ltb_compare hi lo), ?(ltb_compare v lo),
            ?(ltb_compare nan lo), ?(gtb_compare lo hi), ?(gtb_compare hi hi),
            ?(gtb_compare v hi), ?(gtb_compare nan hi);
    rewrite ?compare_nan, ?Ell, ?Ehh, ?Hlt, ?Hgt, ?Chi, ?Clo;
    rewrite ?Ell, ?Ehh, ?Hlt, ?Hgt, ?Chi, ?Clo;
    repeat split; reflexivity.
Qed.

Lemma leb_compare v c :
  (v <=? c) = match SFcompare (Prim2SF v) (Prim2SF c) with
              | Some Lt | Some Eq => true
              | _ => false
              end.
Proof. rewrite leb_spec. reflexivity. Qed.

Lemma geb_compare v c :
  (c <=? v) = match SFcompare (Prim2SF v) (Prim2SF c) with
              | Some Gt | Some Eq => true
              | _ => false
              end.
Proof.
  rewrite leb_spec. unfold SFleb.
  rewrite (SFcompare_antisym (Prim2SF v) (Prim2SF c)).
  destruct (SFcompare (Prim2SF v) (Prim2SF c)) as [[| |]|]; reflexivity.
Qed.

(** For a declared range, "a number of the range, or [NaN]" is "neither
    below the lower bound nor above the upper bound". *)
Lemma in_range_or_nan_iff lo hi n :
  declared_range lo hi = true ->
  in_range_or_nan lo hi n = true <-> (n <? lo) = false /\ (hi <? n) = false.
Proof.
  intros Hr. destruct (declared_range_inv _ _ Hr) as (Hlo & Hhi & _).
  unfold in_range_or_nan.
  pose proof (is_nan_compare n lo Hlo) as N1.
  pose proof (is_nan_compare n hi Hhi) as N2.
  rewrite (geb_compare n lo), (leb_compare n hi), (ltb_compare n lo), (gtb_compare n hi).
  rewrite N1 in N2 |- *.
  destruct (SFcompare (Prim2SF n) (Prim2SF lo)) as [[| |]|];
    destruct (SFcompare (Prim2SF n) (Prim2SF hi)) as [[| |]|];
    cbn; try discriminate; split; auto; intros [? ?]; discriminate.
Qed.

(** A clamped number is a number of the range, or [NaN]. *)
Lemma clamp_in_range_or_nan lo hi v :
  declared_range lo hi = true -> in_range_or_nan lo hi (clamp lo hi v) = true.
Proof.
  intros Hr. apply (in_range_or_nan_iff lo hi _ Hr).
  destruct (clamp_result lo hi v Hr) as (A & B & _). auto.
Qed.

End ClampFacts.

(** ** What [update_app_settings] returns *)

Module UpdateFacts.

Import JsNumber JsNumberFacts JsFacts SettingsFacts.
Open Scope list_scope.

Lemma assign_lookup_id k v own :
  Js.lookup k own = v -> v <> JUndefined -> Js.assign k v own = own.
Proof.
  induction own as [|[k' v'] rest IH]; cbn [Js.lookup Js.assign].
  - intros <- H. contradiction.
  - destruct (String.eqb k k'); intros H Hv.
    + subst. reflexivity.
    + rewrite IH by assumption. reflexivity.
Qed.

Lemma Put_same o k v :
  Get o k = Normal v -> v <> JUndefined -> Put o k v = Normal o.
Proof.
  destruct o; cbn; intros H Hv; try (inversion H; subst; contradiction);
    try discriminate; inversion H as [H1];
    rewrite (assign_lookup_id k _ _ eq_refl) by (rewrite H1; exact Hv);
    reflexivity.
Qed.

(** A number equal to a bound is the bound itself, unless it is [-0]. *)
Lemma eqb_bound_eq lo n :
  nonneg_finite (Prim2SF lo) = true ->
  (lo =? n)%float = true -> n <> (-0)%float -> n = lo.
Proof.
  intros Hlo He Hz. rewrite (eqb_compare n lo) in He.
  apply Prim2SF_inj.
  destruct (Prim2SF lo) as [[|]|[|]| |[|] ml el] eqn:El; try discriminate;
    destruct (Prim2SF n) as [[|]|[|]| |[|] m e] eqn:En; try discriminate;
    try reflexivity.
  - exfalso. apply Hz. apply Prim2SF_inj. rewrite En. reflexivity.
  - unfold SFcompare in He.
    destruct (Z.compare_spec e el) as [E1|E1|E1]; try discriminate.
    change (PosDef.Pos.compare_cont Eq m ml) with (Pos.compare m ml) in He.
    destruct (Pos.compare_spec m ml) as [E2|E2|E2]; try discriminate.
    subst. reflexivity.
Qed.

(** Ranged fields that hold a number of their range, or [NaN], before an
    update do so after it: the [try] block clamps them, the [catch] block
    hands the settings back. *)
Lemma update_within P current userRequest model :
  (forall k lo hi, In (k, (lo, hi)) Settings.declared_ranges ->
                   LoopMore.within (Settings.to_js current) k lo hi) ->
  forall k lo hi, In (k, (lo, hi)) Settings.declared_ranges ->
    LoopMore.within (fst (Settings.update_app_settings P current userRequest model))
      k lo hi.
Proof.
  intros Hcur k lo hi Hin.
  unfold Settings.update_app_settings.
  destruct (Settings.update_app_settings_try P current userRequest model)
    as [r|e] eqn:Ht; cbn [fst]; [|apply Hcur, Hin].
  destruct (SettingsFacts.update_try_normal _ _ _ _ _ Ht) as (n1 & n2 & n3 & R1 & R2 & R3).
  cbn in Hin. destruct Hin as [E|[E|[E|[]]]]; inversion E; subst; clear E;
    eexists; (split; [eassumption|]); apply ClampFacts.clamp_in_range_or_nan;
    reflexivity.
Qed.

(** The settings of [get_current_app_settings] are within their ranges. *)
Lemma stored_within k lo hi :
  In (k, (lo, hi)) Settings.declared_ranges ->
  LoopMore.within (Settings.to_js SettingsMore.stored) k lo hi.
Proof.
  intros Hin. cbn in Hin.
  destruct Hin as [E|[E|[E|[]]]]; inversion E; subst;
    eexists; (split; [reflexivity|]); reflexivity.
Qed.

End UpdateFacts.

(** X1.  Clamping into a declared range gives a number that is neither
    below the lower bound nor above the upper bound, and clamping a clamped
    number changes nothing. *)
Theorem X1_clamp_stays_in_range k lo hi n :
  In (k, (lo, hi)) Settings.declared_ranges ->
  let r := JsNumber.clamp lo hi n in
  (r <? lo)%float = false /\ (hi <? r)%float = false /\
  JsNumber.clamp lo hi r = r.
Proof.
  intros Hin. apply ClampFacts.clamp_result.
  cbn in Hin. destruct Hin as [E|[E|[E|[]]]]; inversion E; subst; reflexivity.
Qed.

(** X1 on a notification volume of 7.5. *)
Lemma X1_clamp_stays_in_range_witness :
  let r := JsNumber.clamp 0 1 7.5 in
  (r <? 0)%float = false /\ (1 <? r)%float = false /\ JsNumber.clamp 0 1 r = r.
Proof.
  apply (X1_clamp_stays_in_range "notificationVolume" 0 1 7.5).
  right; left; reflexivity.
Defined.

(** X2.  [update_app_settings] never hands on a ranged field that lies
    outside its range: when every ranged field of the settings it is given
    holds a number of its range or [NaN], so does every ranged field of what
    it returns, whatever the transactional model answers.  ([NaN] is what a
    field of the answer that is missing or no number comes back as; see
    C6.) *)
Theorem X2_update_keeps_ranges P current userRequest model :
  (forall k lo hi, In (k, (lo, hi)) Settings.declared_ranges ->
                   LoopMore.within (Settings.to_js current) k lo hi) ->
  forall k lo hi, In (k, (lo, hi)) Settings.declared_ranges ->
    exists n,
      Get (fst (Settings.update_app_settings P current userRequest model)) k
      = Normal (JNum n) /\
      (is_nan n = true \/ ((lo <=? n)%float = true /\ (n <=? hi)%float = true)).
Proof.
  intros Hcur k lo hi Hin.
  destruct (UpdateFacts.update_within P current userRequest model Hcur k lo hi Hin)
    as (n & Hg & Hn).
  exists n. split; [exact Hg|].
  unfold JsNumber.in_range_or_nan in Hn.
  destruct (is_nan n); [left; reflexivity|right].
  cbn [orb] in Hn. apply andb_true_iff in Hn. exact Hn.
Qed.

(** X2 on the settings of [get_current_app_settings] and a payload that
    asks for a font size factor of 5.0 and says nothing of the volume: the
    factor comes back within its range, the volume as [NaN]. *)
Lemma X2_update_keeps_ranges_witness :
  let r := fst (Settings.update_app_settings Scenarios.platform SettingsMore.stored
                  Scenarios.default_query (Scenarios.answers Scenarios.text_font_5 0)) in
  (exists n, Get r "fontSizeFactor" = Normal (JNum n) /\
             (is_nan n = true \/ ((0.8 <=? n)%float = true /\ (n <=? 2.0)%float = true))) /\
  Get r "fontSizeFactor" = Normal (JNum 2.0) /\
  Get r "notificationVolume" = Normal (JNum nan).
Proof.
  cbv zeta. split; [|split; reflexivity].
  apply (X2_update_keeps_ranges Scenarios.platform SettingsMore.stored
           Scenarios.default_query (Scenarios.answers Scenarios.text_font_5 0)).
  - intros k lo hi Hin. cbn in Hin.
    destruct Hin as [E|[E|[E|[]]]]; inversion E; subst;
      eexists; (split; [reflexivity|]); reflexivity.
  - left; reflexivity.
Defined.

(** X3.  A payload that is already valid passes through unchanged: when each
    ranged field of the parsed object holds a number within its range (and
    not [-0]), [update_app_settings] returns the parsed object as it is. *)
Theorem X3_valid_payload_unchanged P current userRequest model response t o :
  model (SettingsPrompt (Settings.to_js current) userRequest) = Normal response ->
  text response = Normal t ->
  JSON_parse P t = Some o ->
  (forall k lo hi, In (k, (lo, hi)) Settings.declared_ranges ->
     exists n, Get o k = Normal (JNum n) /\
               (n <? lo)%float = false /\ (hi <? n)%float = false /\
               n <> (-0)%float) ->
  fst (Settings.update_app_settings P current userRequest model) = o.
Proof.
  intros Hm Ht Hp Hf.
  assert (Hstep : forall k lo hi,
            In (k, (lo, hi)) Settings.declared_ranges ->
            Settings.clamp_field P o k lo hi = Normal o).
  { intros k lo hi Hin. destruct (Hf k lo hi Hin) as (n & Hg & H1 & H2 & Hz).
    assert (Hr : JsNumber.declared_range lo hi = true).
    { cbn in Hin. destruct Hin as [E|[E|[E|[]]]]; inversion E; subst; reflexivity. }
    unfold Settings.clamp_field. rewrite Hg. cbn [bind ToNumber].
    fold (JsNumber.clamp lo hi n).
    assert (Hc : JsNumber.clamp lo hi n = n).
    { destruct (JsNumberFacts.clamp_in_range_eq lo hi n Hr H1 H2) as [E|[E1 E2]];
        [exact E|].
      rewrite E2. symmetry. apply UpdateFacts.eqb_bound_eq; try assumption.
      apply (JsNumberFacts.declared_range_inv lo hi Hr). }
    rewrite Hc. apply UpdateFacts.Put_same; [exact Hg | discriminate]. }
  unfold Settings.update_app_settings, Settings.update_app_settings_try, parse.
  rewrite Hm. cbn [bind]. rewrite Ht. cbn [bind]. rewrite Hp. cbn [bind].
  rewrite (Hstep "fontSizeFactor"%string 0.8 2.0)%float by (left; reflexivity).
  cbn [bind].
  rewrite (Hstep "notificationVolume"%string 0 1)%float by (right; left; reflexivity).
  cbn [bind].
  rewrite (Hstep "textToSpeechRate"%string 0.5 2.0)%float
    by (right; right; left; reflexivity).
  reflexivity.
Qed.

(** X3 on a complete payload with every field in its range. *)
Lemma X3_valid_payload_unchanged_witness :
  fst (Settings.update_app_settings ScenariosMore.platform SettingsMore.stored
         Scenarios.default_query
         (Scenarios.answers ScenariosMore.text_valid_settings 0))
  = ScenariosMore.valid_settings.
Proof.
  apply (X3_valid_payload_unchanged ScenariosMore.platform SettingsMore.stored
           Scenarios.default_query
           (Scenarios.answers ScenariosMore.text_valid_settings 0)
           (Scenarios.text_response ScenariosMore.text_valid_settings)
           ScenariosMore.text_valid_settings).
  - reflexivity.
  - reflexivity.
  - reflexivity.
  - intros k lo hi Hin. cbn in Hin.
    destruct Hin as [E|[E|[E|[]]]]; inversion E; subst;
      eexists; (split; [reflexivity|]);
      (split; [reflexivity|]); (split; [reflexivity|]);
      intros H; apply (f_equal Prim2SF) in H; vm_compute in H; discriminate.
Defined.

(** ** Invariants of the function-calling loop *)

Module RunFacts.

Import Js Sdk Client Trace Loop.
Open Scope list_scope.

Section WithDispatch.

Variable S : Type.
Variable client : ModelClient.
Variable dispatch : nat -> S -> FunctionCall -> Dispatch S.

(** What one pass adds to the output and does to the data of the loop. *)
Lemma pass_shape (st : LoopState S) :
  let n := Datatypes.S (loopCount st) in
  let st' := state_of (iteration client dispatch st) in
  match functionCalls (result st) with
  | None | Some [] =>
      match text (result st) with
      | Normal t => out st' = out st ++ [EvFinalResponse t] /\ data st' = data st
      | Throw _ => out st' = out st /\ data st' = data st
      end
  | Some (fc :: _) =>
      match dispatch n (data st) fc with
      | Unexpected =>
          out st' = out st ++ [EvRequestedCall n (name fc); EvUnexpectedCall (name fc)] /\
          data st' = data st
      | Thrown _ evs =>
          out st' = out st ++ EvRequestedCall n (name fc) :: evs /\ data st' = data st
      | Responded v d evs =>
          exists tl, (tl = [] \/ tl = [EvMaxLoopsReached]) /\
            out st' = out st ++ EvRequestedCall n (name fc) :: evs ++
                                EvSend (FunctionResponse (name fc) v) :: tl /\
            data st' = d
      end
  end.
Proof.
  cbv zeta. unfold iteration, emit, sendMessage, Session.append, Session.view.
  cbn [chat result loopCount data out fst snd].
  destruct (functionCalls (result st)) as [[|fc others]|].
  1, 3: destruct (text (result st)); cbn [state_of out data]; auto.
  destruct (dispatch _ _ fc) as [v d evs|e evs|];
    cbn [state_of chat result loopCount data out fst snd].
  - destruct (client _) as [r|e]; cbn [fst snd];
      [destruct (MAX_LOOPS <=? _)%nat|];
      cbn [state_of chat result loopCount data out fst snd].
    + exists [EvMaxLoopsReached]. rewrite <- !app_assoc. cbn [app]. auto.
    + exists []. rewrite <- !app_assoc. cbn [app]. auto.
    + exists []. rewrite <- !app_assoc. cbn [app]. auto.
  - rewrite <- app_assoc. auto.
  - rewrite <- app_assoc. auto.
Qed.

Section Invariant.

Variable Inv : LoopState S -> Prop.
Hypothesis Inv_pass :
  forall st, Inv st -> loopCount st < MAX_LOOPS ->
             Inv (state_of (iteration client dispatch st)).

(** What every pass keeps holds when the loop is left, however it is
    left. *)
Lemma while_loop_invariant fuel :
  forall st, Inv st -> Inv (LoopMore.exit_state (while_loop client dispatch fuel st)).
Proof.
  induction fuel as [|fuel IH]; intros st H; cbn [while_loop]; [exact H|].
  destruct (loopCount st <? MAX_LOOPS)%nat eqn:E; [|exact H].
  apply Nat.ltb_lt in E. pose proof (Inv_pass st H E) as H'.
  destruct (iteration client dispatch st) as [st'|st'|e st'];
    cbn [state_of] in H'; cbn [LoopMore.exit_state]; auto.
Qed.

(** It holds at every head of the loop that a run goes through. *)
Lemma at_loop_head_invariant st0 st :
  Inv st0 -> at_loop_head client dispatch st0 st -> Inv st.
Proof.
  intros H0 Hh. induction Hh as [|st st' _ IH [Hlt Hn]]; [exact H0|].
  pose proof (Inv_pass st IH Hlt) as H'. rewrite Hn in H'. exact H'.
Qed.

End Invariant.

(** A run either fails at its first message or enters the loop and ends
    with what follows the loop. *)
Lemma run_cases userQuery (d0 : S) :
  let r := run client dispatch userQuery d0 in
  (exists e, client [UserText userQuery] = Throw e /\
             events r = [EvSend (UserText userQuery); EvCaught e] /\
             outcome r = Failed e /\ count r = 0)
  \/
  (exists chat0 st0,
     start client userQuery d0 = (chat0, Normal st0) /\
     r = finish (while_loop client dispatch (Datatypes.S MAX_LOOPS) st0)).
Proof.
  cbv zeta. unfold run.
  destruct (start client userQuery d0) as [chat0 [st0|e]] eqn:Hs.
  - right. exists chat0, st0. auto.
  - left. exists e. unfold start, sendMessage, Session.append, Session.view in Hs.
    cbn [Session.empty app] in Hs.
    destruct (client [UserText userQuery]) as [r|e0]; cbn [fst snd] in Hs;
      inversion Hs; subst. auto.
Qed.

(** The events of a run that entered the loop: the output of the loop and
    then the report after it or the entry of the [catch] block. *)
Lemma finish_events (x : LoopExit S) :
  events (finish x) =
    out (LoopMore.exit_state x) ++
    match x with
    | Finished st =>
        fst (after_loop st) ++
        match snd (after_loop st) with
        | Some e => [EvCaught e]
        | None => []
        end
    | Raised e _ => [EvCaught e]
    | OutOfFuel _ => []
    end.
Proof.
  destruct x as [st|e st|st]; cbn [finish LoopMore.exit_state];
    [destruct (snd (after_loop st))|..]; cbn [events]; rewrite ?app_nil_r; reflexivity.
Qed.

(** The tail of a run that left the loop without exception holds nothing
    but the report, the last text and the entry of the [catch] block. *)
Lemma after_loop_events (st : LoopState S) e :
  In e (fst (after_loop st) ++
        match snd (after_loop st) with
        | Some err => [EvCaught err]
        | None => []
        end) ->
  e = EvExitedMaxIterations \/ (exists t, e = EvLastText t) \/
  (exists err, e = EvCaught err).
Proof.
  unfold after_loop.
  destruct (MAX_LOOPS <=? loopCount st)%nat; cbn [fst snd app]; [|intros []].
  destruct (text (result st)) as [t|err]; cbn [fst snd app];
    [destruct (String.eqb t "")|]; cbn;
    intros H; repeat (destruct H as [H|H]; [subst; eauto|]); contradiction.
Qed.

(** The reply held in [result] is a turn of the session, at every pass. *)
Lemma reply_in_chat_pass (st : LoopState S) :
  In (ModelTurn (result st)) (chat st) ->
  let st' := state_of (iteration client dispatch st) in
  In (ModelTurn (result st')) (chat st').
Proof.
  intros H. cbv zeta.
  unfold iteration, emit, sendMessage, Session.append, Session.view.
  cbn [chat result loopCount data out fst snd].
  destruct (functionCalls (result st)) as [[|fc others]|].
  1, 3: destruct (text (result st)); cbn [state_of chat result]; exact H.
  destruct (dispatch _ _ fc) as [v d evs|e evs|];
    cbn [state_of chat result loopCount data out fst snd]; [|exact H|exact H].
  destruct (client _) as [r|e]; cbn [fst snd];
    [destruct (MAX_LOOPS <=? _)%nat|];
    cbn [state_of chat result loopCount data out fst snd];
    rewrite ?in_app_iff; cbn [In]; auto.
Qed.

(** What brings a run to the [catch] block: [chat.sendMessage] threw,
    [response.text()] threw on a reply of the session, or the dispatch of the
    first tool-call of the reply at a head of the loop threw. *)
Lemma run_failed userQuery (d0 : S) e :
  let r := run client dispatch userQuery d0 in
  outcome r = Failed e ->
  (exists view, client view = Throw e) \/
  (exists reply, text reply = Throw e /\ In (ModelTurn reply) (session r)) \/
  (exists chat0 st0 st fc rest evs,
     start client userQuery d0 = (chat0, Normal st0) /\
     at_loop_head client dispatch st0 st /\
     functionCalls (result st) = Some (fc :: rest) /\
     dispatch (Datatypes.S (loopCount st)) (data st) fc = Thrown e evs /\
     requested (session r) fc /\
     events r = out st ++ [EvRequestedCall (Datatypes.S (loopCount st)) (name fc)]
                       ++ evs ++ [EvCaught e]).
Proof.
  cbv zeta. intros Hf.
  destruct (run_cases userQuery d0) as [(e0 & Hc & _ & Ho & _)|(chat0 & st0 & Hs & Hr)].
  - rewrite Ho in Hf. inversion Hf; subst e0. left. eexists; exact Hc.
  - rewrite Hr in *.
    destruct (LoopFacts.start_state _ _ _ _ _ _ Hs) as (_ & _ & _ & Hchat & Hchat0).
    assert (H0 : In (ModelTurn (result st0)) (chat st0)).
    { rewrite Hchat, Hchat0. right. left. reflexivity. }
    destruct (while_loop client dispatch (Datatypes.S MAX_LOOPS) st0)
      as [st'|e1 st'|st'] eqn:Hw.
    + pose proof (while_loop_invariant
                    (fun s => In (ModelTurn (result s)) (chat s))
                    (fun s H _ => reply_in_chat_pass s H)
                    (Datatypes.S MAX_LOOPS) st0 H0) as Hin.
      rewrite Hw in Hin. cbn [LoopMore.exit_state] in Hin.
      right. left. exists (result st'). cbn [finish] in *.
      unfold after_loop in *.
      destruct (MAX_LOOPS <=? loopCount st')%nat; cbn [fst snd] in *;
        [|discriminate].
      destruct (text (result st')) as [t|e1]; cbn [fst snd outcome session] in *;
        [discriminate|].
      inversion Hf; subst e1. auto.
    + cbn [finish outcome session events] in *. inversion Hf; subst e1; clear Hf.
      destruct (LoopFacts.while_loop_Raised _ _ _ _ _ _ _ Hw) as (st & Hh & Hlt & Hi).
      pose proof (at_loop_head_invariant
                    (fun s => In (ModelTurn (result s)) (chat s))
                    (fun s H _ => reply_in_chat_pass s H) st0 st H0 Hh) as Hin.
      pose proof (LoopFacts.iteration_out _ client dispatch st) as Hout.
      rewrite Hi in Hout. cbn [state_of] in Hout.
      destruct (LoopFacts.iteration_Raise _ _ _ _ _ _ Hi)
        as [(_ & Ht & _ & Hch & _)
           |(fc & rest & Hcalls & [(evs & Hdis & Hem & Hch)|(v & d & evs & _ & Hthrow & _)])].
      * right. left. exists (result st). rewrite Hch. auto.
      * right. right. exists chat0, st0, st, fc, rest, evs.
        rewrite Hout, Hem, <- !app_assoc, Hch.
        repeat (split; [assumption|]). split; [|reflexivity].
        exists (result st), rest. auto.
      * left. eexists; exact Hthrow.
    + cbn [finish outcome] in Hf. discriminate.
Qed.

End WithDispatch.

End RunFacts.

Module SettingsRunFacts.

Import Js Sdk Client Trace Loop SettingsMore.
Open Scope list_scope.

Lemma has_read_app a b : has_read (a ++ b) = has_read a || has_read b.
Proof. apply existsb_app. Qed.

(** Reading a trace in two parts: the second part is read with what the
    first has seen. *)
Lemma calls_in_order_app q a :
  forall seen b,
    calls_in_order q seen (a ++ b) <->
    calls_in_order q seen a /\ calls_in_order q (seen || has_read a) b.
Proof.
  induction a as [|e a IH]; intros seen b.
  - cbn [app calls_in_order has_read existsb]. rewrite orb_false_r. tauto.
  - destruct e as [m|nm args0|g|t|n0 nm|nm| | |t|e|t]; cbn [app calls_in_order];
      try (rewrite IH; unfold has_read; cbn [existsb orb]; reflexivity).
    rewrite !IH. unfold has_read. cbn [existsb].
    split.
    + intros [(Hn & Ha & Hc & Hb)|(Hn & Hs & Ha & Hc & Hb)].
      * subst nm. cbn [String.eqb Ascii.eqb Bool.eqb orb] in *.
        rewrite orb_true_r. split; [left; auto|exact Hb].
      * subst nm seen.
        change (String.eqb "update_app_settings" "get_current_app_settings") with false.
        cbn [orb] in *. split; [right; auto|exact Hb].
    + intros [[(Hn & Ha & Hc)|(Hn & Hs & Ha & Hc)] Hb].
      * subst nm. cbn [String.eqb Ascii.eqb Bool.eqb orb] in *.
        rewrite orb_true_r in Hb. left; auto.
      * subst nm seen.
        change (String.eqb "update_app_settings" "get_current_app_settings") with false in Hb.
        cbn [orb] in *. right; auto.
Qed.

Lemma Inv_pass env q st :
  Inv q st ->
  Inv q (state_of (iteration (Settings.model env) (Settings.dispatch env q) st)).
Proof.
  intros (Hc & Hd & Hs). unfold Inv.
  pose proof (RunFacts.pass_shape _ (Settings.model env) (Settings.dispatch env q) st) as Sh.
  cbv zeta in Sh.
  set (st' := state_of (iteration (Settings.model env) (Settings.dispatch env q) st)) in *.
  clearbody st'.
  destruct (functionCalls (result st)) as [[|fc others]|].
  1, 3: destruct (text (result st)); destruct Sh as [Ho Hdata]; rewrite Ho, Hdata;
        [|auto];
        rewrite calls_in_order_app, has_read_app, Forall_app;
        cbn [calls_in_order has_read existsb orb];
        rewrite orb_false_r; repeat split; auto; repeat constructor.
  unfold Settings.dispatch in Sh.
  destruct (String.eqb (name fc) "get_current_app_settings") eqn:E1.
  - apply String.eqb_eq in E1.
    cbv [Settings.get_current_app_settings] in Sh. cbv beta iota in Sh.
    destruct Sh as (tl & Htl & Ho & Hdata). rewrite Ho, Hdata.
    rewrite calls_in_order_app, has_read_app, Forall_app.
    cbn [app calls_in_order has_read existsb String.eqb Ascii.eqb Bool.eqb orb].
    rewrite orb_true_r.
    split; [|split].
    + split; [exact Hc|]. left. repeat split; auto.
      destruct Htl as [->| ->]; cbn [calls_in_order]; exact I.
    + right. split; reflexivity.
    + split; [exact Hs|]. repeat constructor.
      * cbn [safe_to_send]. rewrite E1. discriminate.
      * destruct Htl as [->| ->]; repeat constructor.
  - destruct (String.eqb (name fc) "update_app_settings") eqn:E2.
    + apply String.eqb_eq in E2.
      destruct Hd as [[Hd Hr]|[Hd Hr]]; rewrite Hd in Sh.
      * destruct Sh as [Ho Hdata]. rewrite Ho, Hdata, calls_in_order_app, has_read_app,
          Forall_app. cbn [calls_in_order has_read existsb orb].
        rewrite orb_false_r. repeat split; auto. repeat constructor.
      * unfold Settings.update_app_settings in Sh.
        set (u := Settings.update_app_settings_try _ _ _ _) in Sh.
        assert (Hw : forall v, v = match u with
                                   | Normal p => p
                                   | Throw _ => Settings.to_js stored
                                   end ->
                     forall k lo hi, In (k, (lo, hi)) Settings.declared_ranges ->
                                     LoopMore.within v k lo hi).
        { intros v -> k lo hi Hin.
          pose proof (UpdateFacts.update_within (Settings.platform env) stored q
                        (Settings.transactionalModel env (Datatypes.S (loopCount st)))
                        UpdateFacts.stored_within k lo hi Hin) as W.
          unfold Settings.update_app_settings in W. fold u in W.
          destruct u; exact W. }
        destruct u as [p|e0]; destruct Sh as (tl & Htl & Ho & Hdata);
          rewrite Ho, Hdata, calls_in_order_app, has_read_app, Forall_app, Hr;
          cbn [app calls_in_order has_read existsb orb];
          (split;
           [ split; [exact Hc|]; right; repeat split; auto;
             destruct Htl as [->| ->]; cbn [calls_in_order]; exact I
           | split;
             [ right; split; reflexivity
             | split; [exact Hs|]; repeat constructor;
               [ cbn [safe_to_send]; intros _; apply Hw; reflexivity
               | destruct Htl as [->| ->]; repeat constructor ] ] ]).
    + destruct Sh as [Ho Hdata]. rewrite Ho, Hdata, calls_in_order_app, has_read_app,
        Forall_app. cbn [calls_in_order has_read existsb orb].
      rewrite orb_false_r. repeat split; auto. repeat constructor.
Qed.

Lemma Inv_start env q chat0 st0 :
  start (Settings.model env) q None = (chat0, Normal st0) -> Inv q st0.
Proof.
  intros Hs.
  destruct (LoopFacts.start_state _ _ _ _ _ _ Hs) as (_ & Ho & Hd & _).
  unfold Inv. rewrite Ho, Hd. cbn [calls_in_order has_read existsb orb].
  repeat split; auto. repeat constructor.
Qed.

(** The invariant on the events of a whole run. *)
Lemma main_invariant env q :
  let tr := events (Settings.main env q) in
  calls_in_order q false tr /\ Forall safe_to_send tr.
Proof.
  cbv zeta. unfold Settings.main.
  destruct (RunFacts.run_cases _ (Settings.model env) (Settings.dispatch env q) q None)
    as [(e & _ & He & _)|(chat0 & st0 & Hs & Hr)].
  - rewrite He. cbn [calls_in_order]. repeat constructor.
  - rewrite Hr, RunFacts.finish_events.
    pose proof (RunFacts.while_loop_invariant _ (Settings.model env)
                  (Settings.dispatch env q) (Inv q)
                  (fun st H _ => Inv_pass env q st H)
                  (Datatypes.S MAX_LOOPS) st0 (Inv_start env q chat0 st0 Hs))
      as (Hc & _ & Hf).
    rewrite calls_in_order_app, Forall_app.
    split; [split; [exact Hc|]|split; [exact Hf|]].
    + destruct (while_loop _ _ _ _) as [st|e st|st]; cbn [calls_in_order]; auto.
      unfold after_loop. destruct (MAX_LOOPS <=? _)%nat; cbn [fst snd app calls_in_order];
        auto.
      destruct (text (result st)) as [t|e]; cbn [fst snd app calls_in_order]; auto.
      destruct (String.eqb t ""); cbn [app calls_in_order]; auto.
    + destruct (while_loop _ _ _ _) as [st|e st|st]; repeat constructor.
      unfold after_loop. destruct (MAX_LOOPS <=? _)%nat; cbn [fst snd app];
        repeat constructor.
      destruct (text (result st)) as [t|e]; cbn [fst snd app]; repeat constructor.
      destruct (String.eqb t ""); repeat constructor.
Qed.

End SettingsRunFacts.

(** ** The settings assistant over a whole run *)

(** X4.  Over a whole run of the settings assistant, whatever the chat
    model requests and with whatever arguments: every handler call is either
    a read without arguments, or an update that receives the settings of
    [get_current_app_settings] and the text the user typed, and that comes
    after a read. *)
Theorem X4_settings_calls_in_order env q pre nm a post :
  events (Settings.main env q) = pre ++ EvToolCall nm a :: post ->
  (nm = "get_current_app_settings"%string /\ a = []) \/
  (nm = "update_app_settings"%string /\
   a = [Settings.toolArgs SettingsMore.stored q] /\
   SettingsMore.has_read pre = true).
Proof.
  intros He.
  destruct (SettingsRunFacts.main_invariant env q) as [Hc _]. cbv zeta in Hc.
  rewrite He in Hc. apply SettingsRunFacts.calls_in_order_app in Hc.
  destruct Hc as [_ Hc]. cbn [SettingsMore.calls_in_order orb] in Hc.
  destruct Hc as [(Hn & Ha & _)|(Hn & Hs & Ha & _)]; auto.
Qed.

(** X4 in the usual exchange: the update is the second handler call. *)
Lemma X4_settings_calls_in_order_witness :
  let env := Scenarios.settings_env Scenarios.read_update_confirm
               (Scenarios.answers Scenarios.text_font_5) in
  let tr := events (Settings.main env Scenarios.default_query) in
  tr = firstn 5 tr ++
       EvToolCall "update_app_settings"
         [Settings.toolArgs SettingsMore.stored Scenarios.default_query]
       :: skipn 6 tr /\
  (("update_app_settings"%string = "get_current_app_settings"%string /\
    [Settings.toolArgs SettingsMore.stored Scenarios.default_query] = []) \/
   ("update_app_settings"%string = "update_app_settings"%string /\
    [Settings.toolArgs SettingsMore.stored Scenarios.default_query]
      = [Settings.toolArgs SettingsMore.stored Scenarios.default_query] /\
    SettingsMore.has_read (firstn 5 tr) = true)).
Proof.
  cbv zeta.
  assert (H : events (Settings.main
                 (Scenarios.settings_env Scenarios.read_update_confirm
                    (Scenarios.answers Scenarios.text_font_5))
                 Scenarios.default_query)
              = firstn 5 (events (Settings.main
                   (Scenarios.settings_env Scenarios.read_update_confirm
                      (Scenarios.answers Scenarios.text_font_5))
                   Scenarios.default_query)) ++
                EvToolCall "update_app_settings"
                  [Settings.toolArgs SettingsMore.stored Scenarios.default_query]
                :: skipn 6 (events (Settings.main
                     (Scenarios.settings_env Scenarios.read_update_confirm
                        (Scenarios.answers Scenarios.text_font_5))
                     Scenarios.default_query))).
  { vm_compute. reflexivity. }
  split; [exact H|].
  exact (X4_settings_calls_in_order _ _ _ _ _ _ H).
Defined.

(** X5.  What reaches the [catch] block of the settings assistant: the
    error of the guard, and then no read has run in the whole run; an error
    thrown by [chat.sendMessage]; or an error thrown by [response.text()]
    on a reply of the session.  No failure of a handler gets there. *)
Theorem X5_settings_failures env q e :
  outcome (Settings.main env q) = Failed e ->
  (e = Error Settings.guard_message /\
   SettingsMore.has_read (events (Settings.main env q)) = false) \/
  (exists view, Settings.model env view = Throw e) \/
  (exists reply, text reply = Throw e /\
                 In (ModelTurn reply) (session (Settings.main env q))).
Proof.
  unfold Settings.main. intros Hf.
  destruct (RunFacts.run_failed _ (Settings.model env) (Settings.dispatch env q)
              q None e Hf)
    as [Hm|[Ht|(chat0 & st0 & st & fc & rest & evs & Hs & Hh & _ & Hdis & _ & Hev)]];
    [right; left; exact Hm|right; right; exact Ht|].
  left.
  pose proof (RunFacts.at_loop_head_invariant _ (Settings.model env)
                (Settings.dispatch env q) (SettingsMore.Inv q)
                (fun s H _ => SettingsRunFacts.Inv_pass env q s H)
                st0 st (SettingsRunFacts.Inv_start env q chat0 st0 Hs) Hh)
    as (_ & Hd & _).
  unfold Settings.dispatch in Hdis.
  destruct (String.eqb (name fc) "get_current_app_settings"); [discriminate|].
  destruct (String.eqb (name fc) "update_app_settings"); [|discriminate].
  destruct Hd as [[Hd Hr0]|[Hd Hr0]]; rewrite Hd in Hdis.
  - inversion Hdis; subst. split; [reflexivity|].
    rewrite Hev, !SettingsRunFacts.has_read_app, Hr0. reflexivity.
  - destruct (Settings.update_app_settings _ _ _ _); discriminate.
Qed.

(** X5 when the model asks for the update first: the guard's error. *)
Lemma X5_settings_failures_witness :
  let env := Scenarios.settings_env Scenarios.update_first
               (Scenarios.answers Scenarios.text_font_5) in
  (Error Settings.guard_message = Error Settings.guard_message /\
   SettingsMore.has_read (events (Settings.main env Scenarios.default_query)) = false) \/
  (exists view, Settings.model env view = Throw (Error Settings.guard_message)) \/
  (exists reply, text reply = Throw (Error Settings.guard_message) /\
                 In (ModelTurn reply)
                    (session (Settings.main env Scenarios.default_query))).
Proof.
  cbv zeta.
  apply (X5_settings_failures
           (Scenarios.settings_env Scenarios.update_first
              (Scenarios.answers Scenarios.text_font_5))
           Scenarios.default_query (Error Settings.guard_message)).
  vm_compute. reflexivity.
Defined.

(** X6.  Whatever the chat model and the transactional model answer, every
    result the settings assistant sends back for [update_app_settings] holds
    under each ranged field a number, and that number is [NaN] or lies in
    the range of the field. *)
Theorem X6_update_replies_in_range env q v :
  In (EvSend (FunctionResponse "update_app_settings" v)) (events (Settings.main env q)) ->
  forall k lo hi,
    In (k, (lo, hi)) Settings.declared_ranges ->
    exists n, Get v k = Normal (JNum n) /\
              (is_nan n = true \/ ((lo <=? n)%float = true /\ (n <=? hi)%float = true)).
Proof.
  intros Hin k lo hi Hk.
  destruct (SettingsRunFacts.main_invariant env q) as [_ Hf]. cbv zeta in Hf.
  rewrite Forall_forall in Hf.
  destruct (Hf _ Hin eq_refl k lo hi Hk) as (n & Hg & Hr).
  exists n. split; [exact Hg|].
  unfold JsNumber.in_range_or_nan in Hr.
  apply orb_true_iff in Hr. destruct Hr as [Hr|Hr]; [left; exact Hr|right].
  apply andb_true_iff in Hr. exact Hr.
Qed.

(** X6 in the usual exchange, where the transactional model proposes a font
    size factor of 5.0: the result holds 2.0. *)
Lemma X6_update_replies_in_range_witness :
  exists n,
    Get (fst (Settings.update_app_settings Scenarios.platform SettingsMore.stored
                Scenarios.default_query (Scenarios.answers Scenarios.text_font_5 2)))
        "fontSizeFactor" = Normal (JNum n) /\
    (is_nan n = true \/ ((0.8 <=? n)%float = true /\ (n <=? 2.0)%float = true)).
Proof.
  apply (X6_update_replies_in_range
           (Scenarios.settings_env Scenarios.read_update_confirm
              (Scenarios.answers Scenarios.text_font_5))
           Scenarios.default_query).
  - vm_compute. do 7 right. left. reflexivity.
  - left. reflexivity.
Defined.

(** ** The report after the loop *)

Module ReportFacts.

Import Js Sdk Client Trace Loop.
Open Scope list_scope.

Lemma handler_events_quiet evs :
  forallb LoopMore.is_handler_event evs = true -> ~ In EvExitedMaxIterations evs.
Proof.
  intros H Hin. rewrite forallb_forall in H. specialize (H _ Hin). discriminate.
Qed.

Lemma settings_handlers_only env q : LoopMore.handlers_only (Settings.dispatch env q).
Proof.
  intros n d fc. unfold Settings.dispatch.
  destruct (String.eqb (name fc) "get_current_app_settings"); [reflexivity|].
  destruct (String.eqb (name fc) "update_app_settings"); [|exact I].
  destruct d as [current|]; [|reflexivity].
  unfold Settings.update_app_settings.
  destruct (Settings.update_app_settings_try _ _ _ _); reflexivity.
Qed.

Lemma video_handlers_only env : LoopMore.handlers_only (Video.dispatch env).
Proof.
  intros n d fc. unfold Video.dispatch, Video.of_handler.
  destruct (String.eqb (name fc) "find_relevant_timestamps").
  - destruct (DispatchFacts.timestamps_events (Video.platform env) (args fc)
                (Video.transactionalModel env n)) as (tl & Hs & Htl).
    destruct (fst (Video.find_relevant_timestamps _ _ _)); rewrite Hs;
      destruct Htl as [->|[request ->]]; reflexivity.
  - destruct (String.eqb (name fc) "answer_user_query"); [|exact I].
    destruct (DispatchFacts.answer_events env (args fc)
                (Video.transactionalModel env n)) as (tl & Hs & Htl).
    destruct (fst (Video.answer_user_query _ _ _)); rewrite Hs;
      destruct Htl as [->|[request ->]]; reflexivity.
Qed.

Section WithDispatch.

Variable S : Type.
Variable client : ModelClient.
Variable dispatch : nat -> S -> FunctionCall -> Dispatch S.
Hypothesis only_handlers : LoopMore.handlers_only dispatch.

Local Abbreviation Inv := (@LoopMore.no_report_yet S).

Lemma no_report_yet_pass st :
  Inv st -> loopCount st < MAX_LOOPS -> Inv (state_of (iteration client dispatch st)).
Proof.
  intros [Hn Hle] Hlt. split; [|rewrite LoopFacts.iteration_loopCount; exact Hlt].
  pose proof (RunFacts.pass_shape _ client dispatch st) as Sh. cbv zeta in Sh.
  pose proof (only_handlers (Datatypes.S (loopCount st)) (data st)) as Ho.
  destruct (functionCalls (result st)) as [[|fc others]|].
  1, 3: destruct (text (result st)); destruct Sh as [-> _];
        [rewrite in_app_iff; intros [H|[H|[]]]; [exact (Hn H)|discriminate]
        |exact Hn].
  specialize (Ho fc).
  destruct (dispatch _ _ fc) as [v d evs|e evs|].
  - destruct Sh as (tl & Htl & -> & _). rewrite in_app_iff. intros [H|[H|H]].
    + exact (Hn H).
    + discriminate.
    + rewrite in_app_iff in H. destruct H as [H|[H|H]].
      * exact (handler_events_quiet _ Ho H).
      * discriminate.
      * destruct Htl as [->| ->]; [destruct H|destruct H as [H|[]]; discriminate].
  - destruct Sh as [-> _]. rewrite in_app_iff. intros [H|[H|H]].
    + exact (Hn H).
    + discriminate.
    + exact (handler_events_quiet _ Ho H).
  - destruct Sh as [-> _]. rewrite in_app_iff. intros [H|[H|[H|[]]]].
    + exact (Hn H).
    + discriminate.
    + discriminate.
Qed.

(** The abort report is printed only once the loop is left with the counter
    at the bound; then the [try] block runs to its end, unless
    [result.response.text()] throws right after the report.  A run that
    completes with the counter at the bound has printed it. *)
Lemma report_cases userQuery (d0 : S) :
  let r := run client dispatch userQuery d0 in
  (In EvExitedMaxIterations (events r) ->
   count r = MAX_LOOPS /\
   (outcome r = Completed \/
    exists e pre,
      outcome r = Failed e /\ ~ In EvExitedMaxIterations pre /\
      events r = pre ++ [EvExitedMaxIterations; EvCaught e])) /\
  (outcome r = Completed -> count r = MAX_LOOPS ->
   In EvExitedMaxIterations (events r)).
Proof.
  cbv zeta.
  destruct (RunFacts.run_cases _ client dispatch userQuery d0)
    as [(e & _ & He & Ho & _)|(chat0 & st0 & Hs & Hr)].
  - rewrite He, Ho. split.
    + intros [H|[H|[]]]; discriminate.
    + intros H; discriminate.
  - rewrite Hr.
    assert (I0 : Inv st0).
    { destruct (LoopFacts.start_state _ _ _ _ _ _ Hs) as (Hc & Ho & _).
      split; [rewrite Ho; intros [H|[]]; discriminate|rewrite Hc; apply Nat.le_0_l]. }
    pose proof (RunFacts.while_loop_invariant _ client dispatch Inv no_report_yet_pass
                  (Datatypes.S MAX_LOOPS) st0 I0) as [Hn Hle].
    destruct (while_loop _ _ _ st0) as [st|e st|st];
      cbn [LoopMore.exit_state finish] in *.
    + unfold after_loop.
      destruct (MAX_LOOPS <=? loopCount st)%nat eqn:E.
      * apply Nat.leb_le in E.
        assert (Hc : loopCount st = MAX_LOOPS) by (apply Nat.le_antisymm; assumption).
        destruct (text (result st)) as [t|e]; cbn [fst snd events outcome count].
        -- split; [intros _; auto|].
           intros _ _. rewrite in_app_iff. right. left. reflexivity.
        -- split; [|intros H; discriminate].
           intros _. split; [exact Hc|]. right. exists e, (out st). auto.
      * apply Nat.leb_gt in E. cbn [fst snd events outcome count]. split.
        -- rewrite app_nil_r. intros H. destruct (Hn H).
        -- intros _ H. rewrite H in E. exfalso. exact (Nat.lt_irrefl _ E).
    + cbn [events outcome count]. split.
      * rewrite in_app_iff. intros [H|[H|[]]]; [destruct (Hn H)|discriminate].
      * intros H; discriminate.
    + cbn [events outcome count]. split;
        [intros H; destruct (Hn H)|intros H; discriminate].
Qed.

End WithDispatch.

End ReportFacts.



(** ** The handlers of the video assistant *)

Module VideoHandlerFacts.

Import Js Sdk Client Trace.
Open Scope list_scope.
Open Scope string_scope.

(** [join] on an array throws what the conversion of one of its elements
    throws. *)
Lemma join_elements_Throw P separator e :
  forall elems,
    join_elements P separator elems = Throw e ->
    exists v, In v elems /\ ToString P v = Throw e.
Proof.
  induction elems as [|x rest IH]; intros H; [discriminate|].
  cbn [join_elements] in H.
  destruct (element_string P x) as [s|e0] eqn:Hx.
  - destruct rest as [|y rest']; [discriminate|].
    destruct (join_elements P separator (y :: rest')) as [r|e'] eqn:Hr;
      [discriminate|].
    inversion H; subst e'.
    destruct (IH eq_refl) as (v & Hin & Hv).
    exists v. split; [right; exact Hin|exact Hv].
  - inversion H; subst e0. exists x. split; [left; reflexivity|].
    destruct x; cbn [element_string] in Hx; try discriminate; exact Hx.
Qed.

Lemma join_Throw P separator x e :
  join P separator x = Throw e ->
  (e = TypeError /\ forall elems own, x <> JArr elems own) \/
  (exists elems own v, x = JArr elems own /\ In v elems /\ ToString P v = Throw e).
Proof.
  destruct x; cbn [join]; intros H;
    try (inversion H; left; split; [reflexivity|intros ? ? ?; discriminate]).
  right. destruct (join_elements_Throw P separator e elems H) as (v & Hin & Hv).
  exists elems, own, v. auto.
Qed.

Lemma Get_Throw o k e :
  Get o k = Throw e -> e = TypeError /\ (o = JNull \/ o = JUndefined).
Proof.
  destruct o; cbn [Get]; intros H; inversion H; auto.
Qed.

(** What [find_relevant_timestamps] throws: the [TypeError] of the
    destructuring, or what the conversion of [userQuery] in its template
    literals throws. *)
Lemma timestamps_throws P a model e :
  fst (Video.find_relevant_timestamps P a model) = Throw e ->
  (e = TypeError /\ (a = JNull \/ a = JUndefined)) \/
  (exists u, Get a "userQuery" = Normal u /\ ToString P u = Throw e).
Proof.
  unfold Video.find_relevant_timestamps.
  destruct (Get a "userQuery") as [u|e0] eqn:Hg; cbn [bind fst].
  - destruct (ToString P u) as [s|e0] eqn:Hs; cbn [bind fst].
    + destruct (Video.find_relevant_timestamps_try P u model); cbn [fst];
        discriminate.
    + intros H; inversion H; subst e0. right. exists u. auto.
  - intros H; inversion H; subst e0. left. exact (Get_Throw _ _ _ Hg).
Qed.

(** What [answer_user_query] throws, all of it before its [try]. *)
Lemma answer_throws env a model e :
  fst (Video.answer_user_query env a model) = Throw e ->
  (e = TypeError /\ (a = JNull \/ a = JUndefined)) \/
  (exists u, Get a "userQuery" = Normal u /\
             ToString (Video.platform env) u = Throw e) \/
  (exists ts, Get a "relevantTimestamps" = Normal ts /\
              join (Video.platform env) ", " ts = Throw e) \/
  (e = Error "Failed to load storyboard image." /\
   exists e0, Video.loadImageBase64 env = Throw e0).
Proof.
  unfold Video.answer_user_query.
  destruct (Get a "userQuery") as [u|e0] eqn:Hu; cbn [bind fst].
  - destruct (Get a "relevantTimestamps") as [ts|e0] eqn:Hts; cbn [bind fst].
    + destruct (ToString (Video.platform env) u) as [s|e0] eqn:Hs; cbn [bind fst].
      * destruct (join (Video.platform env) ", " ts) as [j|e0] eqn:Hj; cbn [bind fst].
        -- destruct (Video.loadImageBase64 env) as [img|e0] eqn:Hi; cbn [bind fst].
           ++ destruct (Video.answer_user_query_try model _); cbn [fst]; discriminate.
           ++ intros H; inversion H. right; right; right.
              split; [reflexivity|eexists; reflexivity].
        -- intros H; inversion H; subst e0. right; right; left. exists ts. auto.
      * intros H; inversion H; subst e0. right; left. exists u. auto.
    + intros H; inversion H; subst e0. left. exact (Get_Throw _ _ _ Hts).
  - intros H; inversion H; subst e0. left. exact (Get_Throw _ _ _ Hu).
Qed.

End VideoHandlerFacts.

(** X8.  [find_relevant_timestamps] throws only before its [try]: the
    [TypeError] of the destructuring when its argument is [null] or
    [undefined], or what the conversion of [userQuery] to a string throws in
    its template literals.  Otherwise, whatever the transactional model
    answers, it returns an object whose only field, [relevantTimestamps],
    holds an array. *)
Theorem X8_timestamps_result P args model :
  match fst (Video.find_relevant_timestamps P args model) with
  | Throw e =>
      (e = TypeError /\ (args = JNull \/ args = JUndefined)) \/
      (exists userQuery,
         Get args "userQuery" = Normal userQuery /\ ToString P userQuery = Throw e)
  | Normal r =>
      (exists userQuery s,
         Get args "userQuery" = Normal userQuery /\ ToString P userQuery = Normal s) /\
      exists elems own, r = JObj [("relevantTimestamps"%string, JArr elems own)]
  end.
Proof.
  destruct (fst (Video.find_relevant_timestamps P args model)) as [r|e] eqn:Hr;
    [|exact (VideoHandlerFacts.timestamps_throws P args model e Hr)].
  unfold Video.find_relevant_timestamps in Hr.
  destruct (Get args "userQuery") as [u|e] eqn:Hg; cbn [bind fst] in Hr;
    [|discriminate].
  destruct (ToString P u) as [s|e] eqn:Hs; cbn [bind fst] in Hr; [|discriminate].
  split; [exists u, s; auto|].
  destruct (Video.find_relevant_timestamps_try P u model) as [r0|e] eqn:Ht;
    cbn [fst] in Hr; inversion Hr; subst; [|exists [], []; reflexivity].
  unfold Video.find_relevant_timestamps_try in Ht.
  destruct (model _) as [response|e]; cbn [bind] in Ht; [|discriminate].
  destruct (text response) as [t|e]; cbn [bind] in Ht; [|discriminate].
  destruct (parse P t) as [parsed|e]; cbn [bind] in Ht; [|discriminate].
  destruct (Get parsed "timestamps") as [ts|e]; cbn [bind] in Ht; [|discriminate].
  destruct (ToBoolean ts).
  - destruct ts; cbn [join bind] in Ht; try discriminate.
    destruct (join_elements P _ elems); cbn [bind] in Ht; [|discriminate].
    inversion Ht. eexists _, _. reflexivity.
  - cbn [join join_elements bind] in Ht. inversion Ht. eexists _, _. reflexivity.
Qed.

(** X9.  [answer_user_query] throws exactly on what comes before its
    [try]: the [TypeError] of the destructuring, what the conversion of
    [userQuery] to a string throws, what [relevantTimestamps.join] throws (a
    [TypeError] when it is no array, else what the conversion of an element
    throws), or the storyboard error when the image cannot be loaded; and
    then it has not called the model.  Otherwise it returns an
    [answerText]: the text of the model's reply, or the apology when the
    call or the reading of the text fails. *)
Theorem X9_answer_user_query_outcome env args model :
  let r := Video.answer_user_query env args model in
  match fst r with
  | Throw e =>
      ((e = TypeError /\ (args = JNull \/ args = JUndefined)) \/
       (exists userQuery,
          Get args "userQuery" = Normal userQuery /\
          ToString (Video.platform env) userQuery = Throw e) \/
       (exists ts,
          Get args "relevantTimestamps" = Normal ts /\
          join (Video.platform env) ", " ts = Throw e) \/
       (e = Error "Failed to load storyboard image." /\
        exists e0, Video.loadImageBase64 env = Throw e0)) /\
      (forall request, ~ In (EvGenerate request) (snd r))
  | Normal v =>
      exists userQuery ts img,
        Get args "userQuery" = Normal userQuery /\
        Get args "relevantTimestamps" = Normal ts /\
        (exists s, ToString (Video.platform env) userQuery = Normal s) /\
        (exists s, join (Video.platform env) ", " ts = Normal s) /\
        Video.loadImageBase64 env = Normal img /\
        snd r = [EvToolCall "answer_user_query" [args];
                 EvGenerate (AnswerPrompt userQuery img)] /\
        v = JObj [("answerText"%string,
                   JStr match model (AnswerPrompt userQuery img) with
                        | Normal response =>
                            match text response with
                            | Normal answerText => answerText
                            | Throw _ => Video.apology
                            end
                        | Throw _ => Video.apology
                        end)]
  end.
Proof.
  cbv zeta.
  destruct (fst (Video.answer_user_query env args model)) as [v|e] eqn:Hr.
  - unfold Video.answer_user_query in *.
    destruct (Get args "userQuery") as [u|e] eqn:Hu; cbn [bind fst snd] in *;
      [|discriminate].
    destruct (Get args "relevantTimestamps") as [ts|e] eqn:Hts; cbn [bind fst snd] in *;
      [|discriminate].
    destruct (ToString (Video.platform env) u) as [s|e] eqn:Hs; cbn [bind fst snd] in *;
      [|discriminate].
    destruct (join (Video.platform env) ", " ts) as [j|e] eqn:Hj; cbn [bind fst snd] in *;
      [|discriminate].
    destruct (Video.loadImageBase64 env) as [img|e] eqn:Hi; cbn [bind fst snd] in *;
      [|discriminate].
    exists u, ts, img.
    repeat (split; [first [assumption|reflexivity|eexists; eassumption]|]).
    unfold Video.answer_user_query_try in *.
    destruct (model (AnswerPrompt u img)) as [response|e1]; cbn [bind fst snd] in *;
      [destruct (text response) as [t|e1]; cbn [bind fst snd] in *|];
      inversion Hr; repeat (split; [first [assumption|reflexivity|eexists; eassumption]|]);
      reflexivity.
  - split; [exact (VideoHandlerFacts.answer_throws env args model e Hr)|].
    intros request Hin.
    destruct (DispatchFacts.answer_events env args model) as (tl & Hs & Htl).
    rewrite Hs in Hin.
    unfold Video.answer_user_query in Hr, Hs.
    destruct (Get args "userQuery") as [u|e0]; cbn [bind fst snd] in *;
      [|inversion Hs; subst tl; destruct Hin as [H|[]]; discriminate].
    destruct (Get args "relevantTimestamps") as [ts|e0]; cbn [bind fst snd] in *;
      [|inversion Hs; subst tl; destruct Hin as [H|[]]; discriminate].
    destruct (ToString (Video.platform env) u) as [s|e0]; cbn [bind fst snd] in *;
      [|inversion Hs; subst tl; destruct Hin as [H|[]]; discriminate].
    destruct (join (Video.platform env) ", " ts) as [j|e0]; cbn [bind fst snd] in *;
      [|inversion Hs; subst tl; destruct Hin as [H|[]]; discriminate].
    destruct (Video.loadImageBase64 env) as [img|e0]; cbn [bind fst snd] in *;
      [|inversion Hs; subst tl; destruct Hin as [H|[]]; discriminate].
    destruct (Video.answer_user_query_try model _); cbn [fst] in Hr; discriminate.
Qed.

(** X10.  What reaches the [catch] block of the video assistant: an error
    thrown by [chat.sendMessage]; an error thrown by [response.text()] on a
    reply of the session; or, while a call the model asked for is handled, a
    [TypeError] of the handler's argument handling, what the conversion of
    an argument to a string throws, or the storyboard error.  A failure of
    a transactional call never gets there. *)
Theorem X10_video_failures env e :
  outcome (Video.main env) = Failed e ->
  (exists view, Video.model env view = Throw e) \/
  (exists reply, text reply = Throw e /\
                 In (ModelTurn reply) (session (Video.main env))) \/
  (exists fc,
     requested (session (Video.main env)) fc /\
     (e = TypeError \/
      (exists v, ToString (Video.platform env) v = Throw e) \/
      e = Error "Failed to load storyboard image.")).
Proof.
  unfold Video.main. intros Hf.
  destruct (RunFacts.run_failed _ (Video.model env) (Video.dispatch env)
              Video.userQuery tt e Hf)
    as [Hm|[Ht|(chat0 & st0 & st & fc & rest & evs & _ & _ & _ & Hdis & Hreq & _)]];
    [left; exact Hm|right; left; exact Ht|].
  right; right. exists fc. split; [exact Hreq|].
  unfold Video.dispatch, Video.of_handler in Hdis.
  destruct (String.eqb (name fc) "find_relevant_timestamps").
  - destruct (fst (Video.find_relevant_timestamps _ _ _)) as [v|e0] eqn:Hh;
      [discriminate|].
    inversion Hdis; subst e0.
    destruct (VideoHandlerFacts.timestamps_throws _ _ _ _ Hh)
      as [[-> _]|(u & _ & Hs)]; [left; reflexivity|right; left; exists u; exact Hs].
  - destruct (String.eqb (name fc) "answer_user_query"); [|discriminate].
    destruct (fst (Video.answer_user_query _ _ _)) as [v|e0] eqn:Hh; [discriminate|].
    inversion Hdis; subst e0.
    destruct (VideoHandlerFacts.answer_throws _ _ _ _ Hh)
      as [[-> _]|[(u & _ & Hs)|[(ts & _ & Hj)|[-> _]]]].
    + left; reflexivity.
    + right; left; exists u; exact Hs.
    + destruct (VideoHandlerFacts.join_Throw _ _ _ _ Hj)
        as [[-> _]|(elems & own & v & _ & _ & Hv)];
        [left; reflexivity|right; left; exists v; exact Hv].
    + right; right; reflexivity.
Qed.

(** X10 when the storyboard image is missing and the model asks for the
    answer: the storyboard error reaches the [catch] block. *)
Lemma X10_video_failures_witness :
  let env :=
    {| Video.platform := Scenarios.platform;
       Video.model :=
         Scenarios.scripted
           [Scenarios.call_response "answer_user_query"
              (JObj [("userQuery"%string, JStr "What is he wearing?");
                     ("relevantTimestamps"%string, JArr [JStr "0:05"] [])])]
           (Scenarios.text_response "unreachable");
       Video.transactionalModel := Scenarios.answers Scenarios.text_timestamps;
       Video.loadImageBase64 := Throw (Error "ENOENT") |} in
  let e := Error "Failed to load storyboard image." in
  (exists view, Video.model env view = Throw e) \/
  (exists reply, text reply = Throw e /\
                 In (ModelTurn reply) (session (Video.main env))) \/
  (exists fc,
     requested (session (Video.main env)) fc /\
     (e = TypeError \/
      (exists v, ToString (Video.platform env) v = Throw e) \/
      e = Error "Failed to load storyboard image.")).
Proof.
  cbv zeta.
  apply (X10_video_failures
           {| Video.platform := Scenarios.platform;
              Video.model :=
                Scenarios.scripted
                  [Scenarios.call_response "answer_user_query"
                     (JObj [("userQuery"%string, JStr "What is he wearing?");
                            ("relevantTimestamps"%string, JArr [JStr "0:05"] [])])]
                  (Scenarios.text_response "unreachable");
              Video.transactionalModel := Scenarios.answers Scenarios.text_timestamps;
              Video.loadImageBase64 := Throw (Error "ENOENT") |}
           (Error "Failed to load storyboard image.")).
  vm_compute. reflexivity.
Defined.

(** ** The navigation assistant *)

Module NavigationRunFacts.

Import Js Sdk Client Trace Navigation NavigationMain.
Open Scope list_scope.

Lemma answers_request_mono s s' e :
  (forall t, In t s -> In t s') -> answers_request s e -> answers_request s' e.
Proof.
  intros Hs. destruct e; cbn [answers_request]; auto.
  intros (Hn & reply & fc & Hin & H). split; [exact Hn|].
  exists reply, fc. split; [apply Hs, Hin|exact H].
Qed.

Lemma Forall_answers_mono s s' tr :
  (forall t, In t s -> In t s') ->
  Forall (answers_request s) tr -> Forall (answers_request s') tr.
Proof.
  intros Hs H. eapply Forall_impl; [|exact H].
  intros e. apply answers_request_mono, Hs.
Qed.

Lemma Inv_extend st chat' result' response' flag' evs :
  (forall t, In t (chat st) -> In t chat') ->
  In (ModelTurn response') chat' -> In (ModelTurn result') chat' ->
  Forall (answers_request chat') evs ->
  tool_calls (out st) = [] ->
  Forall (answers_request (chat st)) (out st) ->
  (flag' = false -> tool_calls evs = []) ->
  List.length (tool_calls evs) <= 1 ->
  Inv {| chat := chat'; result := result'; response := response';
         completedFunctionCall := flag'; out := out st ++ evs |}.
Proof.
  intros Hm Hresp Hres Hevs H0 Hall Hflag Hlen. unfold Inv.
  cbn [chat result response completedFunctionCall out].
  rewrite LoopFacts.tool_calls_app, H0. cbn [app].
  repeat split; auto.
  rewrite Forall_app. split; [|exact Hevs].
  eapply Forall_answers_mono; [exact Hm|exact Hall].
Qed.

Ltac grows := intros t Ht; rewrite ?in_app_iff; cbn [In]; auto.

Ltac extend Hcall :=
  rewrite <- ?app_assoc; apply Inv_extend;
  [ grows
  | rewrite ?in_app_iff; cbn [In]; auto
  | rewrite ?in_app_iff; cbn [In]; auto
  | repeat (apply Forall_cons; [try exact I|]); try apply Forall_nil;
    try (eapply answers_request_mono; [|exact Hcall]; grows)
  | assumption
  | assumption
  | try discriminate; intros _; reflexivity
  | cbn; auto ].

(** One pass of the loop keeps the invariant. *)
Lemma Inv_iteration env st :
  completedFunctionCall st = false -> Inv st ->
  match iteration env st with
  | Next st' | Raise _ st' => Inv st'
  end.
Proof.
  intros Hflag (H0 & _ & Hresp & Hres & Hall).
  specialize (H0 Hflag).
  unfold iteration, sendMessage, Session.append, Session.view.
  destruct (first_part_functionCall (response st)) as [fc|] eqn:Hfc.
  - assert (Htrue : True) by exact I.
    destruct (String.eqb (name fc) "find_route") eqn:Hname.
    + apply String.eqb_eq in Hname.
      unfold find_route.
      assert (Hcall : answers_request (chat st) (EvToolCall "find_route" [args fc])).
      { split; [reflexivity|]. exists (response st), fc. auto. }
      destruct (Get (args fc) "rephrasedUserQuery") as [q|e]; cbn [bind];
        [|extend Hcall].
      destruct (Get (args fc) "reasoning") as [re|e]; cbn [bind]; [|extend Hcall].
      destruct (ToString (platform env) q) as [s1|e]; cbn [bind]; [|extend Hcall].
      destruct (ToString (platform env) re) as [s2|e]; cbn [bind]; [|extend Hcall].
      destruct (model env _) as [r'|e]; cbn [fst snd]; extend Hcall.
    + extend Htrue.
  - assert (Htrue : True) by exact I.
    destruct (text (result st)) as [responseText|e].
    + destruct (model env _) as [r'|e]; cbn [fst snd]; extend Htrue.
    + unfold Inv. cbn [chat result response completedFunctionCall out].
      split; [intros _; exact H0|].
      split; [rewrite H0; apply Nat.le_0_l|].
      repeat split; assumption.
Qed.

(** The invariant holds when the loop is left, however it is left. *)
Lemma navigation_loop_invariant env fuel :
  forall st, Inv st -> Inv (exit_state (while_loop env fuel st)).
Proof.
  induction fuel as [|fuel IH]; intros st H; cbn [while_loop]; [exact H|].
  destruct (completedFunctionCall st) eqn:Hflag; cbn [negb]; [exact H|].
  pose proof (Inv_iteration env st Hflag H) as H'.
  destruct (iteration env st) as [st'|e st']; cbn [exit_state]; auto.
Qed.

(** The loop only adds to its output. *)
Lemma while_loop_out env fuel :
  forall st, exists evs, out (exit_state (while_loop env fuel st)) = out st ++ evs.
Proof.
  induction fuel as [|fuel IH]; intros st; cbn [while_loop];
    [exists []; rewrite app_nil_r; reflexivity|].
  destruct (completedFunctionCall st); cbn [negb];
    [exists []; rewrite app_nil_r; reflexivity|].
  assert (H : exists evs, match iteration env st with
                          | Next st' | Raise _ st' => out st' = out st ++ evs
                          end).
  { unfold iteration, find_route, sendMessage.
    destruct (first_part_functionCall (response st)) as [fc|].
    - destruct (String.eqb (name fc) "find_route").
      + destruct (Get (args fc) "rephrasedUserQuery") as [q|e]; cbn [bind];
          [|cbn [out]; rewrite <- !app_assoc; eexists; reflexivity].
        destruct (Get (args fc) "reasoning") as [re|e]; cbn [bind];
          [|cbn [out]; rewrite <- !app_assoc; eexists; reflexivity].
        destruct (ToString (platform env) q) as [s1|e]; cbn [bind];
          [|cbn [out]; rewrite <- !app_assoc; eexists; reflexivity].
        destruct (ToString (platform env) re) as [s2|e]; cbn [bind];
          [|cbn [out]; rewrite <- !app_assoc; eexists; reflexivity].
        destruct (model env _) as [r'|e]; cbn [fst snd out];
          rewrite <- !app_assoc; eexists; reflexivity.
      + cbn [out]. rewrite <- !app_assoc; eexists; reflexivity.
    - destruct (text (result st)) as [t|e];
        [destruct (model env _) as [r'|e]; cbn [fst snd out]; eexists; reflexivity|].
      cbn [out]. exists []. rewrite app_nil_r. reflexivity. }
  destruct H as [evs H].
  destruct (iteration env st) as [st'|e st']; cbn [exit_state].
  - destruct (IH st') as [evs' H']. rewrite H', H, <- app_assoc. eexists; reflexivity.
  - eexists; exact H.
Qed.

End NavigationRunFacts.

(** X11.  The tool-call the navigation assistant looks at, that of the first
    part of a reply, is also the first one the other two loops would take
    from the same reply. *)
Theorem X11_first_part_is_first_call r fc :
  Navigation.first_part_functionCall r = Some fc ->
  exists rest, functionCalls r = Some (fc :: rest).
Proof.
  unfold Navigation.first_part_functionCall, functionCalls.
  destruct (candidates r) as [[|c cs]|]; try discriminate.
  destruct (content c) as [ct|]; try discriminate.
  destruct (parts ct) as [[|p ps]|]; try discriminate.
  intros H. cbn [filter_functionCall]. rewrite H. eexists; reflexivity.
Qed.

Lemma X11_first_part_is_first_call_witness :
  exists rest,
    functionCalls ScenariosMore.route_call
    = Some ({| name := "find_route"; args := ScenariosMore.route_args |} :: rest).
Proof.
  apply (X11_first_part_is_first_call ScenariosMore.route_call
           {| name := "find_route"; args := ScenariosMore.route_args |}).
  reflexivity.
Defined.

(** X12.  The loop of the navigation assistant tests [response], which its
    [else] branch refreshes before the next message is sent, not after.  So
    when the reply to the second query opens without a tool-call, a run that
    completes has sent "Ok. Please help me find it." twice before it looks
    at the reply to the first of them, whatever that reply holds; the texts
    it printed on the way are those of the first three replies, all of them
    readable. *)
Theorem X12_second_reply_tested_twice env q fuel r1 r2 :
  Navigation.model env [UserText NavigationMain.query1] = Normal r1 ->
  Navigation.model env [UserText NavigationMain.query1; ModelTurn r1; UserText q]
    = Normal r2 ->
  Navigation.first_part_functionCall r2 = None ->
  NavigationMain.outcome (NavigationMain.main env q fuel) = Completed ->
  exists r3 t1 t2 t3 rest,
    Navigation.model env
      [UserText NavigationMain.query1; ModelTurn r1; UserText q; ModelTurn r2;
       Navigation.ok_message] = Normal r3 /\
    text r1 = Normal t1 /\ text r2 = Normal t2 /\ text r3 = Normal t3 /\
    NavigationMain.events (NavigationMain.main env q fuel)
    = [ EvSend (UserText NavigationMain.query1); EvAssistant t1;
        EvSend (UserText q);
        EvAssistant t2; EvSend Navigation.ok_message;
        EvAssistant t3; EvSend Navigation.ok_message ] ++ rest.
Proof.
  intros H1 H2 Hnone.
  set (R := NavigationMain.main env q fuel).
  assert (HR : R = NavigationMain.main env q fuel) by reflexivity. clearbody R.
  unfold NavigationMain.main, sendMessage, Session.append, Session.view, Session.empty in HR.
  cbn [app] in HR. rewrite H1 in HR. cbn [fst snd app] in HR.
  destruct (text r1) as [t1|e] eqn:Ht1; [|subst R; cbn; discriminate].
  rewrite H2 in HR. cbn [fst snd] in HR.
  unfold NavigationMain.entry in HR.
  destruct fuel as [|fuel]; [subst R; cbn; discriminate|].
  cbn [Navigation.while_loop Navigation.completedFunctionCall negb] in HR.
  unfold Navigation.iteration at 1, sendMessage, Session.append, Session.view in HR.
  cbn [Navigation.response Navigation.result Navigation.chat Navigation.out] in HR.
  rewrite Hnone in HR. cbn [app] in HR.
  destruct (text r2) as [t2|e] eqn:Ht2; [|subst R; cbn; discriminate].
  destruct (Navigation.model env
              [UserText NavigationMain.query1; ModelTurn r1; UserText q; ModelTurn r2;
               Navigation.ok_message]) as [r3|e] eqn:H3;
    cbn [fst snd] in HR; [|subst R; cbn; discriminate].
  destruct fuel as [|fuel]; [subst R; cbn; discriminate|].
  cbn [Navigation.while_loop Navigation.completedFunctionCall negb] in HR.
  unfold Navigation.iteration at 1, sendMessage, Session.append, Session.view in HR.
  cbn [Navigation.response Navigation.result Navigation.chat Navigation.out] in HR.
  rewrite Hnone in HR. cbn [app] in HR.
  destruct (text r3) as [t3|e] eqn:Ht3; [|subst R; cbn; discriminate].
  destruct (Navigation.model env
              [UserText NavigationMain.query1; ModelTurn r1; UserText q; ModelTurn r2;
               Navigation.ok_message; ModelTurn r3; Navigation.ok_message]) as [r4|e];
    cbn [fst snd] in HR; [|subst R; cbn; discriminate].
  match type of HR with
  | context [Navigation.while_loop env fuel ?s] =>
      destruct (NavigationRunFacts.while_loop_out env fuel s) as [evs Hout];
      destruct (Navigation.while_loop env fuel s) as [st'|e st'|st']
  end; [destruct (text (Navigation.response st')) as [t|e]|..];
    subst R; cbn [NavigationMain.outcome NavigationMain.events]; try discriminate.
  intros _. exists r3, t1, t2, t3. eexists.
  do 4 (split; [first [reflexivity|assumption]|]).
  cbn [NavigationMain.exit_state Navigation.out] in Hout.
  rewrite Hout. rewrite <- app_assoc. cbn [app]. reflexivity.
Qed.

(** X12 when the model asks back once and then requests the route: the
    second "Ok" is sent before that request is looked at. *)
Lemma X12_second_reply_tested_twice_witness :
  exists r3 t1 t2 t3 rest,
    Navigation.model (ScenariosMore.navigation_env ScenariosMore.asks_back_once)
      [UserText NavigationMain.query1;
       ModelTurn (Scenarios.text_response "The Pacific Science Center is accessible.");
       UserText NavigationMain.defaultQuery;
       ModelTurn (Scenarios.text_response "Do you want directions?");
       Navigation.ok_message] = Normal r3 /\
    text (Scenarios.text_response "The Pacific Science Center is accessible.")
    = Normal t1 /\
    text (Scenarios.text_response "Do you want directions?") = Normal t2 /\
    text r3 = Normal t3 /\
    NavigationMain.events
      (NavigationMain.main (ScenariosMore.navigation_env ScenariosMore.asks_back_once)
         NavigationMain.defaultQuery 4)
    = [ EvSend (UserText NavigationMain.query1); EvAssistant t1;
        EvSend (UserText NavigationMain.defaultQuery);
        EvAssistant t2; EvSend Navigation.ok_message;
        EvAssistant t3; EvSend Navigation.ok_message ] ++ rest.
Proof.
  apply (X12_second_reply_tested_twice
           (ScenariosMore.navigation_env ScenariosMore.asks_back_once)
           NavigationMain.defaultQuery 4
           (Scenarios.text_response "The Pacific Science Center is accessible.")
           (Scenarios.text_response "Do you want directions?")).
  - reflexivity.
  - reflexivity.
  - reflexivity.
  - vm_compute. reflexivity.
Defined.

(** X13.  In a run of the navigation assistant at most one handler runs,
    and a handler that runs is [find_route], called with the arguments of a
    reply of the session whose first part asks for it. *)
Theorem X13_navigation_one_call env q fuel :
  let r := NavigationMain.main env q fuel in
  List.length (tool_calls (NavigationMain.events r)) <= 1 /\
  forall nm a,
    In (EvToolCall nm a) (NavigationMain.events r) ->
    nm = "find_route"%string /\
    exists reply fc,
      In (ModelTurn reply) (NavigationMain.session r) /\
      Navigation.first_part_functionCall reply = Some fc /\
      name fc = "find_route"%string /\ a = [args fc].
Proof.
  cbv zeta. set (R := NavigationMain.main env q fuel).
  assert (HR : R = NavigationMain.main env q fuel) by reflexivity. clearbody R.
  unfold NavigationMain.main, sendMessage, Session.append, Session.view, Session.empty in HR.
  cbn [app] in HR.
  destruct (Navigation.model env [UserText NavigationMain.query1]) as [r1|e];
    cbn [fst snd app] in HR.
  2: { subst R. cbn [NavigationMain.events NavigationMain.session].
       split; [cbn; apply Nat.le_0_l|].
       intros nm a [H|[H|[]]]; discriminate. }
  destruct (text r1) as [t1|e].
  2: { subst R. cbn [NavigationMain.events NavigationMain.session].
       split; [cbn; apply Nat.le_0_l|].
       intros nm a [H|[H|[]]]; discriminate. }
  destruct (Navigation.model env [UserText NavigationMain.query1; ModelTurn r1; UserText q])
    as [r2|e]; cbn [fst snd] in HR.
  2: { subst R. cbn [NavigationMain.events NavigationMain.session].
       split; [cbn; apply Nat.le_0_l|].
       intros nm a [H|[H|[H|[H|[]]]]]; discriminate. }
  match type of HR with
  | context [Navigation.while_loop env fuel ?s] =>
      assert (I0 : NavigationMain.Inv s);
      [|pose proof (NavigationRunFacts.navigation_loop_invariant env fuel s I0)
          as (_ & Hlen & _ & _ & Hall);
        destruct (Navigation.while_loop env fuel s) as [st|e st|st];
        [destruct (text (Navigation.response st)) as [t|e]|..]]
  end.
  { unfold NavigationMain.Inv, NavigationMain.entry.
    cbn [Navigation.chat Navigation.result Navigation.response
         Navigation.completedFunctionCall Navigation.out].
    split; [reflexivity|]. split; [cbn; apply Nat.le_0_l|].
    split; [cbn [In]; auto|]. split; [cbn [In]; auto|]. repeat constructor. }
  all: subst R;
       cbn [NavigationMain.exit_state NavigationMain.events NavigationMain.session] in *.
  all: rewrite ?LoopFacts.tool_calls_app; cbn [tool_calls filter is_tool_call];
       rewrite ?app_nil_r; (split; [exact Hlen|]).
  all: intros nm a Hin; rewrite ?in_app_iff in Hin.
  all: rewrite Forall_forall in Hall.
  - destruct Hin as [Hin|[Hin|[]]]; [exact (Hall _ Hin)|discriminate].
  - destruct Hin as [Hin|[Hin|[]]]; [exact (Hall _ Hin)|discriminate].
  - destruct Hin as [Hin|[Hin|[]]]; [exact (Hall _ Hin)|discriminate].
  - exact (Hall _ Hin).
Qed.

(** ** The examples without tools *)

Module ValidatorMoreFacts.

Import Js Sdk Client.
Open Scope list_scope.

(** What the callback of [main] throws on one element: the [TypeError] of
    the property read on [null] or [undefined], or what the conversion of one
    of the two fields to a string throws. *)
Lemma describe_one_throws P c e :
  ClassifyMain.describe_one P c = Throw e <->
  (e = TypeError /\ (c = JNull \/ c = JUndefined)) \/
  (exists v, Get c "queryClassification" = Normal v /\ ToString P v = Throw e) \/
  (exists v w,
     Get c "queryClassification" = Normal v /\ (exists s, ToString P v = Normal s) /\
     Get c "reason" = Normal w /\ ToString P w = Throw e).
Proof.
  split.
  - unfold ClassifyMain.describe_one. intros H.
    destruct (Get c "queryClassification") as [v|e0] eqn:Hg; cbn [bind] in H.
    + right.
      destruct (ToString P v) as [s|e0] eqn:Hs; cbn [bind] in H.
      * right.
        destruct (Get c "reason") as [w|e0] eqn:Hw; cbn [bind] in H.
        -- destruct (ToString P w) as [s2|e0] eqn:Hs2; cbn [bind] in H;
             [discriminate|].
           inversion H; subst e0. exists v, w. eauto.
        -- destruct c; cbn [Get] in Hg, Hw; discriminate.
      * left. inversion H; subst e0. exists v. auto.
    + left. inversion H; subst e0. destruct c; cbn [Get] in Hg; inversion Hg; auto.
  - unfold ClassifyMain.describe_one.
    intros [[-> [->| ->]]|[(v & Hv & Ht)|(v & w & Hv & (s & Hs) & Hw & Ht)]].
    + reflexivity.
    + reflexivity.
    + rewrite Hv. cbn [bind]. rewrite Ht. reflexivity.
    + rewrite Hv. cbn [bind]. rewrite Hs. cbn [bind]. rewrite Hw. cbn [bind].
      rewrite Ht. reflexivity.
Qed.

(** [response.map(...)] throws what the callback throws on the first
    element it fails on. *)
Lemma describe_throws P e :
  forall elems,
    ClassifyMain.describe P elems = Throw e <->
    exists pre c post,
      elems = pre ++ c :: post /\
      (forall c', In c' pre -> exists line, ClassifyMain.describe_one P c' = Normal line) /\
      ClassifyMain.describe_one P c = Throw e.
Proof.
  induction elems as [|c0 rest IH].
  - cbn [ClassifyMain.describe]. split; [discriminate|].
    intros (pre & c & post & Heq & _). destruct pre; discriminate.
  - cbn [ClassifyMain.describe].
    destruct (ClassifyMain.describe_one P c0) as [line|e0] eqn:H0; cbn [bind].
    + destruct (ClassifyMain.describe P rest) as [lines|e1] eqn:Hd; cbn [bind].
      * split; [discriminate|].
        intros (pre & c & post & Heq & Hpre & Hc).
        destruct pre as [|x pre]; cbn [app] in Heq; inversion Heq; subst.
        -- rewrite H0 in Hc. discriminate.
        -- assert (X : Normal lines = Throw e).
           { apply IH. exists pre, c, post. split; [reflexivity|].
             split; [intros c' Hin; apply Hpre; right; exact Hin|exact Hc]. }
           discriminate.
      * split.
        -- intros H. inversion H; subst e1.
           destruct (proj1 IH eq_refl) as (pre & c & post & Heq & Hpre & Hc).
           exists (c0 :: pre), c, post. split; [rewrite Heq; reflexivity|].
           split; [|exact Hc].
           intros c' [<-|Hin]; [exists line; exact H0|apply Hpre, Hin].
        -- intros (pre & c & post & Heq & Hpre & Hc).
           destruct pre as [|x pre]; cbn [app] in Heq; inversion Heq; subst.
           ++ rewrite H0 in Hc. discriminate.
           ++ apply IH. exists pre, c, post. split; [reflexivity|].
              split; [intros c' Hin; apply Hpre; right; exact Hin|exact Hc].
    + split.
      * intros H. inversion H; subst e0. exists [], c0, rest.
        split; [reflexivity|]. split; [intros c' []|exact H0].
      * intros (pre & c & post & Heq & Hpre & Hc).
        destruct pre as [|x pre]; cbn [app] in Heq; inversion Heq; subst.
        -- rewrite H0 in Hc. inversion Hc. reflexivity.
        -- destruct (Hpre x (or_introl eq_refl)) as [line Hl].
           rewrite H0 in Hl. discriminate.
Qed.

End ValidatorMoreFacts.

(** X14.  What [refineQueryWithContext] returns is well-formed: it is the
    parse of the text of the first part of the model's reply, and both
    [rephrasedQuery] and [reason] hold a truthy value (an empty string is
    turned down). *)
Theorem X14_refined_query_has_both_fields P model userQuery p :
  Refine.refineQueryWithContext P model userQuery = Some p ->
  exists response t q r,
    model (RefinePrompt userQuery) = Normal response /\
    Refine.first_text response = Some t /\
    JSON_parse P t = Some p /\
    Get p "rephrasedQuery" = Normal q /\ ToBoolean q = true /\
    Get p "reason" = Normal r /\ ToBoolean r = true.
Proof.
  unfold Refine.refineQueryWithContext, Refine.validate, parse.
  destruct (model (RefinePrompt userQuery)) as [response|e] eqn:Hm; [|discriminate].
  destruct (Refine.first_text response) as [t|] eqn:Ht; [|discriminate].
  destruct (JSON_parse P t) as [o|] eqn:Hp; cbn [bind]; [|discriminate].
  destruct (ToBoolean o) eqn:Ho; cbn [negb]; [|discriminate].
  destruct (Get o "rephrasedQuery") as [q|e] eqn:Hq; cbn [bind]; [|discriminate].
  destruct (ToBoolean q) eqn:Hbq; cbn [negb]; [|discriminate].
  destruct (Get o "reason") as [r|e] eqn:Hr; cbn [bind]; [|discriminate].
  destruct (ToBoolean r) eqn:Hbr; cbn [negb]; [|discriminate].
  intros H. inversion H; subst o.
  exists response, t, q, r. repeat split; auto.
Qed.

Lemma X14_refined_query_has_both_fields_witness :
  exists response t q r,
    Scenarios.answers ScenariosMore.text_refined 0 (RefinePrompt "Whats the best Ruth to get there")
      = Normal response /\
    Refine.first_text response = Some t /\
    JSON_parse ScenariosMore.platform t = Some ScenariosMore.refined /\
    Get ScenariosMore.refined "rephrasedQuery" = Normal q /\ ToBoolean q = true /\
    Get ScenariosMore.refined "reason" = Normal r /\ ToBoolean r = true.
Proof.
  apply (X14_refined_query_has_both_fields ScenariosMore.platform
           (Scenarios.answers ScenariosMore.text_refined 0)
           "Whats the best Ruth to get there" ScenariosMore.refined).
  reflexivity.
Defined.

(** X15.  [main] of the classification example fails exactly when the
    callback it maps over the [response] array that [classifyQuery] accepted
    throws on an element, and it fails with what the callback throws on the
    first such element: the [TypeError] of the property read when the
    element is [null] or [undefined], or what the conversion of its
    [queryClassification] or [reason] to a string throws.  The validator
    looks at the array, not at its elements, and nothing in [main] catches
    the exception. *)
Theorem X15_classification_printing_fails P model userQuery e :
  (ClassifyMain.main P model userQuery = Throw e <->
   exists p elems own pre c post,
     Classify.classifyQuery P model userQuery = Some p /\
     Get p "response" = Normal (JArr elems own) /\
     elems = pre ++ c :: post /\
     (forall c', In c' pre -> exists line, ClassifyMain.describe_one P c' = Normal line) /\
     ClassifyMain.describe_one P c = Throw e) /\
  (forall c,
     ClassifyMain.describe_one P c = Throw e <->
     (e = TypeError /\ (c = JNull \/ c = JUndefined)) \/
     (exists v, Get c "queryClassification" = Normal v /\ ToString P v = Throw e) \/
     (exists v w,
        Get c "queryClassification" = Normal v /\ (exists s, ToString P v = Normal s) /\
        Get c "reason" = Normal w /\ ToString P w = Throw e)).
Proof.
  split; [|intros c; apply ValidatorMoreFacts.describe_one_throws].
  unfold ClassifyMain.main.
  destruct (Classify.classifyQuery P model userQuery) as [p|] eqn:Hc.
  2: { split; [discriminate|].
       intros (p & elems & own & pre & c & post & H & _). discriminate. }
  assert (Hp : exists elems own, Get p "response" = Normal (JArr elems own)).
  { unfold Classify.classifyQuery, Classify.validate, parse in Hc.
    destruct (model _) as [response|e0]; [|discriminate].
    destruct (text response) as [t|e0]; [|discriminate].
    destruct (JSON_parse P t) as [o|]; cbn [bind] in Hc; [|discriminate].
    destruct (ToBoolean o); cbn [negb] in Hc; [|discriminate].
    destruct (Get o "response") as [r|e0] eqn:Hr; cbn [bind] in Hc; [|discriminate].
    destruct r; cbn [Classify.nonempty_array negb] in Hc; try discriminate.
    destruct elems; cbn [negb] in Hc; try discriminate.
    inversion Hc; subst o. eexists _, _. exact Hr. }
  destruct Hp as (elems & own & Hp). rewrite Hp. cbn [bind].
  destruct (ClassifyMain.describe P elems) as [lines|e0] eqn:Hd; cbn [bind].
  - split; [discriminate|].
    intros (p' & elems' & own' & pre & c & post & Hc' & Hp' & Heq & Hpre & Hfail).
    inversion Hc'; subst p'. rewrite Hp in Hp'. inversion Hp'; subst elems' own'.
    assert (X : ClassifyMain.describe P elems = Throw e).
    { apply ValidatorMoreFacts.describe_throws. exists pre, c, post. auto. }
    rewrite Hd in X. discriminate.
  - pose proof Hd as Hd'.
    apply ValidatorMoreFacts.describe_throws in Hd.
    destruct Hd as (pre & c & post & Heq & Hpre & Hfail).
    split.
    + intros H. inversion H; subst e0.
      exists p, elems, own, pre, c, post. auto.
    + intros (p' & elems' & own' & pre' & c' & post' & Hc' & Hp' & Heq' & Hpre' & Hfail').
      inversion Hc'; subst p'. rewrite Hp in Hp'. inversion Hp'; subst elems' own'.
      assert (X : ClassifyMain.describe P elems = Throw e).
      { apply ValidatorMoreFacts.describe_throws. exists pre', c', post'. auto. }
      rewrite Hd' in X. inversion X. reflexivity.
Qed.

(** X16.  The compiled build of the classification example turns down every
    payload that holds only what its own response schema declares, the field
    [response]: its validator tests [query_classification] at the top of the
    payload. *)
Theorem X16_compiled_rejects_declared_shape P model query response t own :
  model (ClassifyPrompt query) = Normal response ->
  text response = Normal t ->
  JSON_parse P t = Some (JObj own) ->
  (forall k, lookup k own <> JUndefined -> k = "response"%string) ->
  ClassifyCompiled.classifyQuery P model query = None.
Proof.
  intros Hm Ht Hp Honly.
  unfold ClassifyCompiled.classifyQuery, ClassifyCompiled.validate, parse.
  rewrite Hm, Ht, Hp. cbn [bind ToBoolean negb Get].
  destruct (lookup "query_classification" own) eqn:Hl; cbn [Classify.nonempty_array negb bind];
    try reflexivity.
  assert (H : "query_classification"%string = "response"%string).
  { apply Honly. rewrite Hl. discriminate. }
  discriminate H.
Qed.

(** X16 on a payload that the TypeScript build accepts. *)
Lemma X16_compiled_rejects_declared_shape_witness :
  ClassifyCompiled.classifyQuery ScenariosMore.platform
    (Scenarios.answers ScenariosMore.text_classified 0) "make the font bigger" = None /\
  Classify.classifyQuery ScenariosMore.platform
    (Scenarios.answers ScenariosMore.text_classified 0) "make the font bigger"
  = Some ScenariosMore.classified.
Proof.
  split; [|reflexivity].
  apply (X16_compiled_rejects_declared_shape ScenariosMore.platform
           (Scenarios.answers ScenariosMore.text_classified 0) "make the font bigger"
           (Scenarios.text_response ScenariosMore.text_classified)
           ScenariosMore.text_classified
           [("response"%string,
             JArr [JObj [("queryClassification"%string, JStr "UPDATE_APP_SETTINGS");
                         ("reason"%string, JStr "asks for a bigger font")]] [])]).
  - reflexivity.
  - reflexivity.
  - reflexivity.
  - intros k Hk. cbn [lookup] in Hk.
    destruct (String.eqb k "response") eqn:E; [apply String.eqb_eq, E|].
    exfalso. apply Hk. reflexivity.
Defined.

(** The three payloads of [ScenariosMore], run through the code: a
    classification is printed as one line, a [null] element makes [main]
    fail, and an empty [reason] is turned down. *)
Example classification_printed :
  ClassifyMain.main ScenariosMore.platform
    (Scenarios.answers ScenariosMore.text_classified 0) "make the font bigger"
  = Normal (ClassifyMain.Classifications ["UPDATE_APP_SETTINGS: asks for a bigger font"%string]).
Proof. reflexivity. Qed.

Example classification_null_element :
  ClassifyMain.main ScenariosMore.platform
    (Scenarios.answers ScenariosMore.text_null_element 0) "make the font bigger"
  = Throw TypeError.
Proof. reflexivity. Qed.

Example refine_empty_reason :
  Refine.refineQueryWithContext ScenariosMore.platform
    (Scenarios.answers ScenariosMore.text_empty_reason 0) "Whats the best Ruth to get there"
  = None.
Proof. reflexivity. Qed.

(** The remaining scenarios: a reply that opens with text hides its
    tool-call from the navigation assistant but not from the other two
    loops; a model that asks for the route at once gets it in the first
    pass; the compiled build accepts the old shape of the payload, which the
    TypeScript build turns down. *)
Example text_before_call :
  Navigation.first_part_functionCall ScenariosMore.text_then_call = None /\
  functionCalls ScenariosMore.text_then_call
  = Some [{| name := "find_route"; args := ScenariosMore.route_args |}].
Proof. split; reflexivity. Qed.

Example route_at_once :
  let r := NavigationMain.main (ScenariosMore.navigation_env ScenariosMore.calls_at_once)
             NavigationMain.defaultQuery 2 in
  NavigationMain.outcome r = Completed /\
  tool_calls (NavigationMain.events r)
  = [EvToolCall "find_route" [ScenariosMore.route_args]] /\
  last (NavigationMain.events r) EvMaxLoopsReached = EvFinalResponse "No route was found.".
Proof. cbv zeta. repeat split; vm_compute; reflexivity. Qed.

(** A payload whose conversion throws, run through the code: a ranged field
    that cannot be converted to a number makes [update_app_settings] hand
    back the settings it was given. *)
Example unconvertible_field_falls_back :
  JSON_parse ScenariosMore.platform ScenariosMore.text_font_object
  = Some (JObj [("fontSizeFactor"%string, ScenariosMore.unconvertible)]) /\
  fst (Settings.update_app_settings ScenariosMore.platform Scenarios.current
         Scenarios.default_query (Scenarios.answers ScenariosMore.text_font_object 0))
  = Settings.to_js Scenarios.current.
Proof. split; reflexivity. Qed.

Example old_shape :
  ClassifyCompiled.classifyQuery ScenariosMore.platform
    (Scenarios.answers ScenariosMore.text_old_shape 0) "make the font bigger"
  = Some (JObj [("query_classification"%string, JArr [JStr "APP_SETTINGS"] [])]) /\
  Classify.classifyQuery ScenariosMore.platform
    (Scenarios.answers ScenariosMore.text_old_shape 0) "make the font bigger" = None.
Proof. split; reflexivity. Qed.
